(** * Portfolio_System: returns extraction, flow analysis, metrics,
      aggregation and allocation, embedded from the Python sources

    Sources embedded here:
    - [backend/app/core/data_loader.py]: [standardize_cnpj],
      [get_fund_returns], [calculate_fund_flow_metrics];
    - [backend/app/core/portfolio_metrics.py]: of [PortfolioMetrics],
      [cumulative_returns], [annualized_return], [max_drawdown],
      [underwater_series], [var], [cvar], [var_upper], [cvar_upper],
      [omega_ratio], [rachev_ratio], [sortino_ratio],
      [information_ratio] and [beta]; [calculate_portfolio_returns],
      [get_returns_for_frequency], [calculate_risk_metrics];
    - [backend/app/routers/portfolio.py]: [optimize_portfolio].

    Conventions.  Python floats are idealised as exact numbers: rationals
    [Q] wherever the code only adds, multiplies, divides and compares, and
    reals [R] for the functions that need roots and powers inside the
    statement (the annualised return and the Sortino ratio).  NaN and the
    infinities are explicit constructors, never encoded as numbers.  What
    is proved on exact numbers holds of the program up to rounding; where
    rounding decides a comparison, the tail figures are also given on
    IEEE 754 binary64 numbers ([var64], [cvar64]).  Library functions of numpy,
    pandas and scipy whose body is not part of the repository are either
    modelled from their documentation (percentile, rolling, dropna, ...)
    or taken as section variables (square root on [Q], date parsing,
    calendar offsets, the SLSQP solver). *)

From Stdlib Require Import Floats.
From Stdlib Require Import Ascii String.
From Stdlib Require Import List Bool Arith ZArith QArith Qround Lia Lqa Lra.
From Stdlib Require Import Sorted Permutation.
From Stdlib Require Import Reals.
Import ListNotations.

Close Scope Q_scope.
Close Scope float_scope.
Set Implicit Arguments.

(* ================================================================== *)
(** * Part I.  Definitions                                              *)
(* ================================================================== *)

(** ** Identifier normalisation ([standardize_cnpj]) *)

(** A Python [str] restricted to the code points U+0000..U+00FF, one
    [ascii] per code point.  [str.isdigit] holds on '0'..'9' and, in this
    range, on the superscript digits U+00B2, U+00B3 and U+00B9. *)
Definition isdigit (c : ascii) : bool :=
  let n := nat_of_ascii c in
  ((48 <=? n) && (n <=? 57)) || (n =? 178) || (n =? 179) || (n =? 185).

Definition is_sign (c : ascii) : bool :=
  (Ascii.eqb c "+") || (Ascii.eqb c "-").

(** [str.zfill(width)]: pads on the left with '0'; a leading sign stays in
    front of the padding. *)
Definition zfill (width : nat) (s : list ascii) : list ascii :=
  if width <=? length s then s
  else
    let fill := repeat "0"%char (width - length s) in
    match s with
    | c :: rest => if is_sign c then c :: fill ++ rest else fill ++ s
    | [] => fill
    end.

(** [standardize_cnpj], on the characters of [str(cnpj)]. *)
Definition standardize_chars (s : list ascii) : list ascii :=
  let cnpj_clean := filter isdigit s in
  if length cnpj_clean =? 14 then cnpj_clean
  else if length cnpj_clean <? 14 then zfill 14 cnpj_clean
  else firstn 14 cnpj_clean.

Definition standardize_cnpj (cnpj : option string) : option string :=
  match cnpj with
  | None => None
  | Some s =>
      Some (string_of_list_ascii (standardize_chars (list_ascii_of_string s)))
  end.

(** The normal form in the words of the specification: the digits of the
    input, left-padded with zeros to 14 when fewer, cut to the first 14
    when more. *)
Definition digits_of (s : string) : list ascii :=
  filter isdigit (list_ascii_of_string s).

Definition normalize_spec (s : string) : string :=
  let d := digits_of s in
  string_of_list_ascii
    (if length d <? 14 then repeat "0"%char (14 - length d) ++ d
     else firstn 14 d).

(** ** Values, floats and tables *)

(** What a Python call does: it raises, or it returns a value. *)
Inductive outcome (A : Type) : Type :=
| Raised
| Returned (a : A).
Arguments Raised {A}.
Arguments Returned {A} a.

Definition bind {A B : Type} (m : outcome A) (k : A -> outcome B)
  : outcome B :=
  match m with
  | Raised => Raised
  | Returned a => k a
  end.

Notation "x <- m ;; k" := (bind m (fun x => k))
  (at level 61, m at next level, right associativity).

Fixpoint mapM {A B : Type} (f : A -> outcome B) (l : list A)
  : outcome (list B) :=
  match l with
  | [] => Returned []
  | a :: l' => b <- f a ;; bs <- mapM f l' ;; Returned (b :: bs)
  end.

(** One cell of a pandas table or series: [None], NaN (also NaT in a
    date index), a signed infinity, a finite number, a string or a
    timestamp (a day number). *)
Inductive cell : Type :=
| CNone
| CNaN
| CInf (pos : bool)
| CNum (q : Q)
| CStr (s : string)
| CDate (d : Z).

(** [pd.isna] *)
Definition isna (c : cell) : bool :=
  match c with
  | CNone | CNaN => true
  | _ => false
  end.

(** Float arithmetic on cells, idealised on finite values; a cell that is
    not a float ([None], a string, a timestamp) is a [TypeError]. *)
Definition as_float (c : cell) : outcome cell :=
  match c with
  | CNaN | CInf _ | CNum _ => Returned c
  | CNone | CStr _ | CDate _ => Raised
  end.

Definition Qneg_b (q : Q) : bool := negb (Qle_bool 0 q).
Definition Qzero_b (q : Q) : bool := Qeq_bool q 0.

Definition fneg (c : cell) : cell :=
  match c with
  | CInf p => CInf (negb p)
  | CNum q => CNum (- q)
  | other => other
  end.

Definition fadd (a b : cell) : cell :=
  match a, b with
  | CNum x, CNum y => CNum (x + y)
  | CInf p, CInf p' => if Bool.eqb p p' then CInf p else CNaN
  | CInf p, CNum _ => CInf p
  | CNum _, CInf p => CInf p
  | _, _ => CNaN
  end.

Definition fsub (a b : cell) : cell := fadd a (fneg b).

Definition fmul (a b : cell) : cell :=
  match a, b with
  | CNum x, CNum y => CNum (x * y)
  | CInf p, CInf p' => CInf (Bool.eqb p p')
  | CInf p, CNum y | CNum y, CInf p =>
      if Qzero_b y then CNaN else CInf (Bool.eqb p (negb (Qneg_b y)))
  | _, _ => CNaN
  end.

Definition fdiv (a b : cell) : cell :=
  match a, b with
  | CNum x, CNum y =>
      if Qzero_b y
      then (if Qzero_b x then CNaN else CInf (negb (Qneg_b x)))
      else CNum (x / y)
  | CNum _, CInf _ => CNum 0
  | CInf p, CNum y => CInf (Bool.eqb p (negb (Qneg_b y)))
  | _, _ => CNaN
  end.

Definition arith (op : cell -> cell -> cell) (a b : cell) : outcome cell :=
  x <- as_float a ;; y <- as_float b ;; Returned (op x y).

(** A series is a list of (index label, value); a table has an index
    label and one cell per column in every row. *)
Definition Series : Type := list (cell * cell).

Record row : Type := { label : cell; vals : list cell }.

Record DataFrame : Type := {
  datetime_index : bool;     (* isinstance(df.index, pd.DatetimeIndex) *)
  columns : list string;
  rows : list row
}.

Definition has_column (name : string) (df : DataFrame) : bool :=
  existsb (String.eqb name) (columns df).

Fixpoint col_pos (name : string) (cols : list string) : option nat :=
  match cols with
  | [] => None
  | c :: cols' =>
      if String.eqb name c then Some 0
      else option_map S (col_pos name cols')
  end.

(** [df[name]]: a [KeyError] when the column is absent. *)
Definition column (df : DataFrame) (name : string) : outcome Series :=
  match col_pos name (columns df) with
  | None => Raised
  | Some i => Returned (map (fun r => (label r, nth i (vals r) CNaN)) (rows df))
  end.

(** [df[name] = values]: replaces the column when present, appends it
    otherwise; the table object itself is updated. *)
Fixpoint set_nth (i : nat) (v : cell) (l : list cell) : list cell :=
  match i, l with
  | _, [] => []
  | O, _ :: l' => v :: l'
  | S i', x :: l' => x :: set_nth i' v l'
  end.

Definition assign_column (df : DataFrame) (name : string) (values : list cell)
  : DataFrame :=
  match col_pos name (columns df) with
  | Some i =>
      {| datetime_index := datetime_index df;
         columns := columns df;
         rows := map (fun rv => {| label := label (fst rv);
                                   vals := set_nth i (snd rv) (vals (fst rv)) |})
                     (combine (rows df) values) |}
  | None =>
      {| datetime_index := datetime_index df;
         columns := columns df ++ [name];
         rows := map (fun rv => {| label := label (fst rv);
                                   vals := vals (fst rv) ++ [snd rv] |})
                     (combine (rows df) values) |}
  end.

(** [df[mask]] *)
Definition filter_rows (p : row -> bool) (df : DataFrame) : DataFrame :=
  {| datetime_index := datetime_index df;
     columns := columns df;
     rows := filter p (rows df) |}.

(** [df.set_index(df.columns[0])] *)
Definition set_index_first (df : DataFrame) : DataFrame :=
  {| datetime_index := false;
     columns := tl (columns df);
     rows := map (fun r => {| label := hd CNaN (vals r); vals := tl (vals r) |})
                 (rows df) |}.

(** Index order: timestamps ascending, NaT (and anything else) last. *)
Definition date_key (c : cell) : option Z :=
  match c with
  | CDate d => Some d
  | _ => None
  end.

Definition key_le (a b : option Z) : bool :=
  match a, b with
  | Some x, Some y => (x <=? y)%Z
  | Some _, None => true
  | None, Some _ => false
  | None, None => true
  end.

Definition key_eqb (a b : option Z) : bool :=
  match a, b with
  | Some x, Some y => (x =? y)%Z
  | None, None => true
  | _, _ => false
  end.

Section StableSort.
Variable A : Type.
Variable le : A -> A -> bool.

Fixpoint insert_sorted (x : A) (l : list A) : list A :=
  match l with
  | [] => [x]
  | y :: l' => if le x y then x :: l else y :: insert_sorted x l'
  end.

(** Stable: equal keys keep their positions relative to one another. *)
Definition stable_sort (l : list A) : list A :=
  fold_right insert_sorted [] l.
End StableSort.

(** [df.sort_index()], taken to keep rows of equal date in their
    order. *)
Definition sort_index (df : DataFrame) : DataFrame :=
  {| datetime_index := datetime_index df;
     columns := columns df;
     rows := stable_sort
               (fun r1 r2 => key_le (date_key (label r1)) (date_key (label r2)))
               (rows df) |}.

(** [s.dropna()] *)
Definition dropna (s : Series) : Series :=
  filter (fun lv => negb (isna (snd lv))) s.

(** [s[~s.index.duplicated(keep='first')]] *)
Fixpoint drop_duplicated_aux (seen : list (option Z)) (s : Series) : Series :=
  match s with
  | [] => []
  | (l, v) :: s' =>
      if existsb (key_eqb (date_key l)) seen
      then drop_duplicated_aux seen s'
      else (l, v) :: drop_duplicated_aux (date_key l :: seen) s'
  end.

Definition drop_duplicated (s : Series) : Series := drop_duplicated_aux [] s.

(** [s.pct_change()]: each value over the one before it, minus 1, with
    no filling of gaps; the first value has no predecessor. *)
Fixpoint pct_change_from (prev : cell) (s : Series) : outcome Series :=
  match s with
  | [] => Returned []
  | (l, v) :: s' =>
      ratio <- arith fdiv v prev ;;
      rest <- pct_change_from v s' ;;
      Returned ((l, fsub ratio (CNum 1)) :: rest)
  end.

Definition pct_change (s : Series) : outcome Series :=
  match s with
  | [] => Returned []
  | (l, v) :: s' =>
      _ <- as_float v ;;
      rest <- pct_change_from v s' ;;
      Returned ((l, CNaN) :: rest)
  end.

Fixpoint first_present (candidates : list string) (df : DataFrame)
  : option string :=
  match candidates with
  | [] => None
  | c :: cs => if has_column c df then Some c else first_present cs df
  end.

(** The candidate names tried, in order, for the return column and for
    the quota column. *)
Definition return_columns : list string :=
  ["DAILY_RETURN"; "RENTABILIDADE"; "RETURN"; "RET"]%string.

Definition quota_columns : list string :=
  ["VL_QUOTA"; "QUOTA"; "NAV"]%string.

Section Extraction.
(** Library functions outside the repository. *)
Variable py_str : cell -> string.            (* str() on a non-string value *)
Variable parse_datetime : string -> option Z. (* pd.to_datetime on text *)
Variable datetime_of_number : Q -> Z.         (* pd.to_datetime on a number *)
Variable minus_months : Z -> Z -> Z.          (* ts - pd.DateOffset(months=m) *)

Definition str_of_cell (c : cell) : string :=
  match c with
  | CStr s => s
  | other => py_str other
  end.

(** [standardize_cnpj] applied to one cell of the CNPJ column. *)
Definition standardize_cell (c : cell) : cell :=
  match c with
  | CNone => CNone
  | other =>
      match standardize_cnpj (Some (str_of_cell other)) with
      | Some s => CStr s
      | None => CNone
      end
  end.

Definition to_datetime (c : cell) : outcome cell :=
  match c with
  | CDate d => Returned (CDate d)
  | CNone | CNaN => Returned CNaN
  | CStr s =>
      match parse_datetime s with
      | Some d => Returned (CDate d)
      | None => Raised
      end
  | CNum q => Returned (CDate (datetime_of_number q))
  | CInf _ => Raised
  end.

(** The block repeated in both branches of [get_fund_returns]:
    make the index a date index, then sort by it. *)
Definition ensure_date_index (fund_data : DataFrame) : outcome DataFrame :=
  indexed <-
    (if datetime_index fund_data then Returned fund_data
     else
       let fund_data := set_index_first fund_data in
       labels <- mapM to_datetime (map label (rows fund_data)) ;;
       Returned
         {| datetime_index := true;
            columns := columns fund_data;
            rows := map (fun lr => {| label := fst lr; vals := vals (snd lr) |})
                        (combine labels (rows fund_data)) |}) ;;
  Returned (sort_index indexed).

Definition cnpj_matches (df : DataFrame) (cnpj_standard : string) (r : row)
  : bool :=
  match col_pos "CNPJ_STANDARD" (columns df) with
  | Some i =>
      match nth i (vals r) CNaN with
      | CStr s => String.eqb s cnpj_standard
      | _ => false
      end
  | None => false
  end.

Definition since (cutoff : cell) (s : Series) : Series :=
  filter (fun lv =>
            match date_key (fst lv), date_key cutoff with
            | Some d, Some c => (c <=? d)%Z
            | _, _ => false
            end) s.

(** Lines 220-275 of data_loader.py, on a table that has the
    CNPJ_STANDARD column. *)
Definition extract_returns (fund_details : DataFrame) (cnpj_standard : string)
           (period_months : option Z) : outcome (option (Series * Series)) :=
  let fund_data := filter_rows (cnpj_matches fund_details cnpj_standard)
                               fund_details in
  if length (rows fund_data) =? 0 then Returned None
  else
    let returns_col :=
      first_present return_columns fund_data in
    computed <-
      match returns_col with
      | None =>
          let quota_col :=
            first_present quota_columns fund_data in
          match quota_col with
          | None => Returned None
          | Some quota_col =>
              fund_data <- ensure_date_index fund_data ;;
              quota <- column fund_data quota_col ;;
              changes <- pct_change quota ;;
              Returned (Some (dropna changes))
          end
      | Some returns_col =>
          fund_data <- ensure_date_index fund_data ;;
          values <- column fund_data returns_col ;;
          Returned (Some (dropna values))
      end ;;
    match computed with
    | None => Returned None
    | Some returns =>
        let returns := drop_duplicated returns in
        if length returns =? 0 then Returned None
        else
          let filtered_returns :=
            match period_months with
            | Some m =>
                let cutoff_date :=
                  match last (map fst returns) CNaN with
                  | CDate d => CDate (minus_months d m)
                  | _ => CNaN
                  end in
                since cutoff_date returns
            | None => returns
            end in
          Returned (Some (filtered_returns, returns))
    end.

(** [get_fund_returns].  The second component is the caller's table
    object after the call: the assignment at line 216 writes into it. *)
Definition get_fund_returns (fund_details : option DataFrame)
           (cnpj_standard : option string) (period_months : option Z)
  : outcome (option (Series * Series)) * option DataFrame :=
  match fund_details, cnpj_standard with
  | Some df, Some cnpj =>
      if has_column "CNPJ_STANDARD" df
      then (extract_returns df cnpj period_months, Some df)
      else if has_column "CNPJ" df
      then
        match column df "CNPJ" with
        | Raised => (Raised, Some df)
        | Returned cnpjs =>
            let df' := assign_column df "CNPJ_STANDARD"
                         (map (fun lv => standardize_cell (snd lv)) cnpjs) in
            (extract_returns df' cnpj period_months, Some df')
        end
      else (Returned None, Some df)
  | _, _ => (Returned None, fund_details)
  end.

(** The caller's table with the derived CNPJ_STANDARD column appended:
    same index, same rows, every earlier cell in place. *)
Definition with_standard_column (df : DataFrame) : DataFrame :=
  {| datetime_index := datetime_index df;
     columns := columns df ++ ["CNPJ_STANDARD"%string];
     rows :=
       map (fun r =>
              {| label := label r;
                 vals := vals r ++
                   [standardize_cell
                      (match col_pos "CNPJ" (columns df) with
                       | Some i => nth i (vals r) CNaN
                       | None => CNaN
                       end)] |})
           (rows df) |}.
End Extraction.

(** ** Flow analysis ([calculate_fund_flow_metrics]) *)

(** The values of a column, in row order (empty when absent). *)
Definition values (df : DataFrame) (name : string) : list cell :=
  match col_pos name (columns df) with
  | Some i => map (fun r => nth i (vals r) CNaN) (rows df)
  | None => []
  end.

(** [s.iloc[-k]] and [s.iloc[-k:]] *)
Definition iloc_back (k : nat) (s : list cell) : cell :=
  nth (length s - k) s CNaN.

Definition tail_n (k : nat) (s : list cell) : list cell :=
  skipn (length s - k) s.

(** [s.sum()]: nulls are skipped, the rest is added up from 0. *)
Definition series_sum (s : list cell) : outcome cell :=
  xs <- mapM as_float (filter (fun c => negb (isna c)) s) ;;
  Returned (fold_left fadd xs (CNum 0)).

(** [int(x)] on a float: truncation toward zero; NaN, infinities and
    non-numbers raise. *)
Definition Qtrunc (q : Q) : Z := Z.quot (Qnum q) (Zpos (Qden q)).

Definition py_int (c : cell) : outcome Z :=
  match c with
  | CNum q => Returned (Qtrunc q)
  | _ => Raised
  end.

(** Truth value of a cell in an [if]. *)
Definition truthy (c : cell) : bool :=
  match c with
  | CNone => false
  | CNum q => negb (Qzero_b q)
  | CStr s => negb (String.eqb s "")
  | CNaN | CInf _ | CDate _ => true
  end.

(** [int(x) if x else 0] *)
Definition int_or_zero (c : cell) : outcome Z :=
  if truthy c then py_int c else Returned 0%Z.

(** The local function [safe_pct]. *)
Definition ne_zero (c : cell) : bool :=
  match c with
  | CNum q => negb (Qzero_b q)
  | _ => true
  end.

Definition safe_pct (value base : cell) : outcome cell :=
  if truthy base && ne_zero base
  then ratio <- arith fdiv value base ;; Returned (fmul ratio (CNum (100 # 1)))
  else Returned (CNum 0).

(** Descending order of [sort_values(..., ascending=False)], nulls last. *)
Definition float_ge (a b : cell) : bool :=
  match a, b with
  | CInf true, _ => true
  | _, CInf false => true
  | CInf false, _ => false
  | _, CInf true => false
  | CNum x, CNum y => Qle_bool y x
  | _, _ => true
  end.

Definition desc_le (a b : cell) : bool :=
  if isna b then true else if isna a then false else float_ge a b.

Definition sort_values_desc (name : string) (df : DataFrame) : DataFrame :=
  match col_pos name (columns df) with
  | Some i =>
      {| datetime_index := datetime_index df;
         columns := columns df;
         rows := stable_sort
                   (fun r1 r2 => desc_le (nth i (vals r1) CNaN)
                                         (nth i (vals r2) CNaN))
                   (rows df) |}
  | None => df
  end.

(** [df[~df.index.duplicated(keep='first')]] *)
Fixpoint drop_duplicated_rows_aux (seen : list (option Z)) (l : list row)
  : list row :=
  match l with
  | [] => []
  | r :: l' =>
      if existsb (key_eqb (date_key (label r))) seen
      then drop_duplicated_rows_aux seen l'
      else r :: drop_duplicated_rows_aux (date_key (label r) :: seen) l'
  end.

Definition drop_duplicated_rows (df : DataFrame) : DataFrame :=
  {| datetime_index := datetime_index df;
     columns := columns df;
     rows := drop_duplicated_rows_aux [] (rows df) |}.

Record FlowMetrics : Type := {
  aum : cell;
  shareholders : option Z;
  daily_transfers : cell;
  daily_transfers_pct : cell;
  daily_investors : Z;
  daily_investors_pct : cell;
  weekly_transfers : cell;
  weekly_transfers_pct : cell;
  weekly_investors : Z;
  weekly_investors_pct : cell;
  monthly_transfers : cell;
  monthly_transfers_pct : cell;
  monthly_investors : Z;
  monthly_investors_pct : cell
}.

Definition cell_of_count (z : option Z) : cell :=
  match z with
  | Some n => CNum (inject_Z n)
  | None => CNone
  end.

(** Lines 371-432: the figures, on the prepared table. *)
Definition flow_figures (fund_data : DataFrame) : outcome (option FlowMetrics) :=
  let n := length (rows fund_data) in
  let has_aum := has_column "VL_PATRIM_LIQ" fund_data in
  let has_shareholders := has_column "NR_COTST" fund_data in
  let has_transfers := has_column "MOVIMENTACAO" fund_data in
  let patrim := values fund_data "VL_PATRIM_LIQ" in
  let cotst := values fund_data "NR_COTST" in
  let movim := values fund_data "MOVIMENTACAO" in
  if negb has_aum && negb has_shareholders then Returned None
  else
    let current_aum := if has_aum then iloc_back 1 patrim else CNone in
    current_shareholders <-
      (if has_shareholders
       then z <- py_int (iloc_back 1 cotst) ;; Returned (Some z)
       else Returned None) ;;
    let daily_transfers :=
      if has_transfers then iloc_back 1 movim else CNum 0 in
    daily_investors_change <-
      (if has_shareholders && (2 <=? n)
       then arith fsub (iloc_back 1 cotst) (iloc_back 2 cotst)
       else Returned (CNum 0)) ;;
    weekly_transfers <-
      (if (5 <=? n) && has_transfers
       then series_sum (tail_n 5 movim)
       else Returned daily_transfers) ;;
    weekly_investors_change <-
      (if (6 <=? n) && has_shareholders
       then arith fsub (iloc_back 1 cotst) (iloc_back 6 cotst)
       else Returned daily_investors_change) ;;
    monthly_transfers <-
      (if (22 <=? n) && has_transfers
       then series_sum (tail_n 22 movim)
       else Returned weekly_transfers) ;;
    monthly_investors_change <-
      (if (23 <=? n) && has_shareholders
       then arith fsub (iloc_back 1 cotst) (iloc_back 23 cotst)
       else Returned weekly_investors_change) ;;
    let base_count := cell_of_count current_shareholders in
    dt_pct <- safe_pct daily_transfers current_aum ;;
    di <- int_or_zero daily_investors_change ;;
    di_pct <- safe_pct daily_investors_change base_count ;;
    wt_pct <- safe_pct weekly_transfers current_aum ;;
    wi <- int_or_zero weekly_investors_change ;;
    wi_pct <- safe_pct weekly_investors_change base_count ;;
    mt_pct <- safe_pct monthly_transfers current_aum ;;
    mi <- int_or_zero monthly_investors_change ;;
    mi_pct <- safe_pct monthly_investors_change base_count ;;
    Returned (Some
      {| aum := current_aum;
         shareholders := current_shareholders;
         daily_transfers := daily_transfers;
         daily_transfers_pct := dt_pct;
         daily_investors := di;
         daily_investors_pct := di_pct;
         weekly_transfers := weekly_transfers;
         weekly_transfers_pct := wt_pct;
         weekly_investors := wi;
         weekly_investors_pct := wi_pct;
         monthly_transfers := monthly_transfers;
         monthly_transfers_pct := mt_pct;
         monthly_investors := mi;
         monthly_investors_pct := mi_pct |}).

Section FlowAnalysis.
Variable parse_datetime : string -> option Z.
Variable datetime_of_number : Q -> Z.

(** Lines 355-359: [reset_index] puts the old index into a new first
    column ("index", or "level_0" when that name is taken; a
    [ValueError] when both are), the first data column is parsed as
    dates and becomes the index. *)
Definition index_by_first_column (fund_data : DataFrame) : outcome DataFrame :=
  index_name <-
    (if has_column "index" fund_data
     then (if has_column "level_0" fund_data then Raised
           else Returned "level_0"%string)
     else Returned "index"%string) ;;
  dates <- mapM (to_datetime parse_datetime datetime_of_number)
                (map (fun r => hd CNaN (vals r)) (rows fund_data)) ;;
  Returned
    {| datetime_index := true;
       columns := index_name :: tl (columns fund_data);
       rows := map (fun dr => {| label := fst dr;
                                 vals := label (snd dr) :: tl (vals (snd dr)) |})
                   (combine dates (rows fund_data)) |}.

(** Lines 342-369: the rows of the fund, one per date, in date order;
    [None] when there is nothing to analyse. *)
Definition prepare_flow_table (fund_details : option DataFrame)
           (cnpj_standard : option string) : outcome (option DataFrame) :=
  match fund_details, cnpj_standard with
  | Some df, Some cnpj =>
      if negb (has_column "CNPJ_STANDARD" df) then Returned None
      else
        let fund_data := filter_rows (cnpj_matches df cnpj) df in
        if length (rows fund_data) =? 0 then Returned None
        else
          fund_data <-
            (if datetime_index fund_data then Returned fund_data
             else index_by_first_column fund_data) ;;
          let fund_data :=
            if has_column "NR_COTST" fund_data
            then drop_duplicated_rows (sort_values_desc "NR_COTST" fund_data)
            else fund_data in
          let fund_data := sort_index fund_data in
          if length (rows fund_data) <? 2 then Returned None
          else Returned (Some fund_data)
  | _, _ => Returned None
  end.

Definition calculate_fund_flow_metrics (fund_details : option DataFrame)
           (cnpj_standard : option string) : outcome (option FlowMetrics) :=
  prepared <- prepare_flow_table fund_details cnpj_standard ;;
  match prepared with
  | None => Returned None
  | Some fund_data => flow_figures fund_data
  end.
End FlowAnalysis.

(** Finite numbers only, in the three columns the figures read. *)
Definition is_num (c : cell) : bool :=
  match c with
  | CNum _ => true
  | _ => false
  end.

Definition numeric_columns (df : DataFrame) : bool :=
  forallb is_num (values df "VL_PATRIM_LIQ") &&
  forallb is_num (values df "NR_COTST") &&
  forallb is_num (values df "MOVIMENTACAO").

(** The number a cell holds (0 for anything else). *)
Definition num_of (c : cell) : Q :=
  match c with
  | CNum q => q
  | _ => 0%Q
  end.

Definition Qsum (l : list Q) : Q := fold_left Qplus l 0%Q.

Definition sum_last (k : nat) (s : list cell) : cell :=
  CNum (Qsum (map num_of (tail_n k s))).

(** Stand-ins for the library functions, for evaluating the model on
    sample tables whose cells never reach them. *)
Definition sample_str (c : cell) : string := "nan"%string.
Definition sample_parse (s : string) : option Z := None.
Definition sample_number_date (q : Q) : Z := (Qnum q / Zpos (Qden q))%Z.
Definition sample_minus_months (d m : Z) : Z := (d - 30 * m)%Z.

(** A two-row table indexed by date that carries CNPJ but no
    CNPJ_STANDARD column. *)
Definition cnpj_only_table : DataFrame :=
  {| datetime_index := true;
     columns := ["CNPJ"; "VL_QUOTA"]%string;
     rows := [ {| label := CDate 1;
                  vals := [CStr "00.000.000/0001-91"; CNum (100 # 1)] |};
               {| label := CDate 2;
                  vals := [CStr "00.000.000/0001-91"; CNum (101 # 1)] |} ] |}.

(** A table with an identifier column but neither a return nor a quota
    column. *)
Definition no_source_table : DataFrame :=
  {| datetime_index := true;
     columns := ["CNPJ_STANDARD"; "VL_PATRIM_LIQ"]%string;
     rows := [ {| label := CDate 1;
                  vals := [CStr "00000000000191"; CNum (5 # 1)] |} ] |}.

(** Daily rows of one fund: net assets, shareholder count, net flow. *)
Definition flow_row (d : Z) (patrim cotst movim : Z) : row :=
  {| label := CDate d;
     vals := [CStr "00000000000191"; CNum (inject_Z patrim);
              CNum (inject_Z cotst); CNum (inject_Z movim)] |}.

Definition flow_columns : list string :=
  ["CNPJ_STANDARD"; "VL_PATRIM_LIQ"; "NR_COTST"; "MOVIMENTACAO"]%string.

(** Six days of history. *)
Definition six_day_table : DataFrame :=
  {| datetime_index := true;
     columns := flow_columns;
     rows := [flow_row 1 1000 10 1; flow_row 2 1000 11 2;
              flow_row 3 1000 13 3; flow_row 4 1000 13 4;
              flow_row 5 1000 12 5; flow_row 6 1000 16 6] |}.

(** "Lacks both a resolvable return column and a resolvable quota
    column". *)
Definition lacks_sources (df : DataFrame) : bool :=
  forallb (fun c => negb (has_column c df)) (return_columns ++ quota_columns).

(** ** Tail risk ([PortfolioMetrics.var], [PortfolioMetrics.cvar]) *)

(** The values of a return series, without nulls.  A Python float
    result is a [cell]: a finite number, NaN or an infinity. *)
Definition returns_values : Type := list Q.

Definition sorted_values (a : list Q) : list Q := stable_sort Qle_bool a.

(** [np.percentile(a, q)] with the default linear interpolation: the
    value at the virtual index (n-1)q/100 of the sorted data, between its
    two neighbours; [q] outside 0..100 is a [ValueError]. *)
Definition percentile (a : list Q) (q : Q) : outcome cell :=
  if Qle_bool 0 q && Qle_bool q 100
  then
    match a with
    | [] => Returned CNaN
    | _ :: _ =>
        let sorted := sorted_values a in
        let n := length a in
        let virtual_index := (inject_Z (Z.of_nat (n - 1)) * q / 100)%Q in
        let below := Z.to_nat (Qfloor virtual_index) in
        let above := Nat.min (below + 1) (n - 1) in
        let gamma := (virtual_index - inject_Z (Qfloor virtual_index))%Q in
        let lo := nth below sorted 0%Q in
        let hi := nth above sorted 0%Q in
        Returned (CNum (lo + (hi - lo) * gamma))
    end
  else Raised.

(** [s.mean()]: NaN on an empty series. *)
Definition mean (l : list Q) : cell :=
  match l with
  | [] => CNaN
  | _ :: _ => CNum (Qsum l / inject_Z (Z.of_nat (length l)))
  end.

(** [returns[returns <= x]]: nothing compares below NaN. *)
Definition at_most (x : cell) (l : list Q) : list Q :=
  match x with
  | CNum v => filter (fun r => Qle_bool r v) l
  | CInf true => l
  | _ => []
  end.

Definition var (returns : list Q) (confidence : Q) : outcome cell :=
  if length returns =? 0 then Returned (CNum 0)
  else percentile returns ((1 - confidence) * 100)%Q.

Definition cvar (returns : list Q) (confidence : Q) : outcome cell :=
  if length returns =? 0 then Returned (CNum 0)
  else
    var_value <- var returns confidence ;;
    Returned (mean (at_most var_value returns)).

(** The distinct values of a series. *)
Fixpoint distinct (l : list Q) : list Q :=
  match l with
  | [] => []
  | x :: l' =>
      if existsb (Qeq_bool x) l' then distinct l' else x :: distinct l'
  end.

(** Twenty distinct daily returns, -10% to +9%. *)
Definition twenty_returns : list Q :=
  map (fun k => Qmake (Z.of_nat k - 10) 100) (seq 0 20).

(** ** Frequency resampling ([get_returns_for_frequency]) *)

(** A return series: (date, simple return) pairs, nulls already
    dropped. *)
Definition ReturnSeries : Type := list (Z * Q).

Definition dates (s : ReturnSeries) : list Z := map fst s.
Definition returns_of (s : ReturnSeries) : list Q := map snd s.

(** [(1 + x).prod() - 1] *)
Definition compound (x : list Q) : Q :=
  (fold_left Qmult (map (Qplus 1) x) 1 - 1)%Q.

(** [s.rolling(window=w).apply(f)]: one output per input position, NaN
    until [w] observations have been seen, then [f] of the [w] most
    recent ones, oldest first.  [seen] holds the observations so far,
    newest first. *)
Fixpoint rolling_scan (w : nat) (f : list Q -> Q) (seen : list Q)
         (s : ReturnSeries) : list (Z * cell) :=
  match s with
  | [] => []
  | (d, r) :: s' =>
      let seen := r :: seen in
      (d, if length seen <? w then CNaN else CNum (f (rev (firstn w seen))))
        :: rolling_scan w f seen s'
  end.

Definition rolling_apply (w : nat) (f : list Q -> Q) (s : ReturnSeries)
  : list (Z * cell) :=
  rolling_scan w f [] s.

(** [.dropna()] on a float series. *)
Fixpoint dropna_floats (s : list (Z * cell)) : ReturnSeries :=
  match s with
  | [] => []
  | (d, CNum q) :: s' => (d, q) :: dropna_floats s'
  | _ :: s' => dropna_floats s'
  end.

Section Numeric.
(** [np.sqrt] on the rationals (library function). *)
Variable sqrtQ : Q -> Q.

(** [s.std()]: sample standard deviation, NaN below two observations. *)
Definition std (l : list Q) : cell :=
  match l with
  | [] | [_] => CNaN
  | _ =>
      let m := (Qsum l / inject_Z (Z.of_nat (length l)))%Q in
      let ss := Qsum (map (fun x => (x - m) * (x - m))%Q l) in
      CNum (sqrtQ (ss / inject_Z (Z.of_nat (length l - 1))))
  end.

Definition get_returns_for_frequency (daily_returns : ReturnSeries)
           (frequency : string) : ReturnSeries * cell * cell * cell :=
  let returns :=
    if String.eqb frequency "daily" then daily_returns
    else if String.eqb frequency "weekly"
    then dropna_floats (rolling_apply 5 compound daily_returns)
    else if String.eqb frequency "monthly"
    then dropna_floats (rolling_apply 22 compound daily_returns)
    else daily_returns in
  if length returns =? 0 then (returns, CNum 0, CNum 0, CNum 0)
  else
    let mean := mean (returns_of returns) in
    let std := std (returns_of returns) in
    let latest :=
      if 0 <? length returns
      then CNum (last (returns_of returns) 0%Q) else CNum 0 in
    (returns, mean, std, latest).
End Numeric.

(** The resampled series in the words of the specification: one point
    per input position from the [w]-th on, carrying the compounded
    return of the [w] consecutive daily returns that end there. *)
Definition compounded_windows (w : nat) (s : ReturnSeries) : ReturnSeries :=
  map (fun i => (nth i (dates s) 0%Z,
                 compound (firstn w (skipn (i + 1 - w) (returns_of s)))))
      (seq (w - 1) (length s - (w - 1))).

Definition resampled (sqrtQ : Q -> Q) (s : ReturnSeries) (frequency : string)
  : ReturnSeries :=
  fst (fst (fst (get_returns_for_frequency sqrtQ s frequency))).

(** ** Portfolio aggregation ([calculate_portfolio_returns]) *)

(** The invariant of a return series: dates strictly increasing. *)
Definition date_ordered (s : ReturnSeries) : Prop :=
  StronglySorted Z.lt (dates s).

Definition find_date (d : Z) (s : ReturnSeries) : option Q :=
  option_map snd (find (fun p => (fst p =? d)%Z) s).

Definition has_date (d : Z) (s : ReturnSeries) : bool :=
  existsb (Z.eqb d) (dates s).

Definition value_at (d : Z) (s : ReturnSeries) : Q :=
  match find_date d s with
  | Some q => q
  | None => 0%Q
  end.

(** A table of floats indexed by date. *)
Record ReturnsFrame : Type := {
  funds : list string;
  lines : list (Z * list cell)
}.

(** The index of [pd.DataFrame(dict_of_series)]: the common index when
    all series share it, else the sorted union of the indexes. *)
Definition dates_eqb (a b : list Z) : bool :=
  (length a =? length b) && forallb (fun xy => (fst xy =? snd xy)%Z) (combine a b).

Definition union_index (ss : list ReturnSeries) : list Z :=
  match ss with
  | [] => []
  | s :: rest =>
      if forallb (fun s' => dates_eqb (dates s') (dates s)) rest
      then dates s
      else stable_sort Z.leb (nodup Z.eq_dec (concat (map dates ss)))
  end.

(** [pd.DataFrame(fund_returns_dict)]: one column per fund, NaN where a
    fund has no return at a date. *)
Definition frame_of_dict (d : list (string * ReturnSeries)) : ReturnsFrame :=
  {| funds := map fst d;
     lines :=
       map (fun dt =>
              (dt, map (fun kv => match find_date dt (snd kv) with
                                  | Some q => CNum q
                                  | None => CNaN
                                  end) d))
           (union_index (map snd d)) |}.

(** [df.dropna()]: rows with a null in any column go. *)
Definition dropna_lines (f : ReturnsFrame) : ReturnsFrame :=
  {| funds := funds f;
     lines := filter (fun l => forallb (fun c => negb (isna c)) (snd l))
                     (lines f) |}.

(** [{k: v / total_weight for k, v in weights.items()}]; [None] stands
    for the early [return None] on a zero total. *)
Definition normalize_weights (weights : list (string * Q))
  : option (list (string * Q)) :=
  let total_weight := fold_left Qplus (map snd weights) 0%Q in
  if Qeq_bool total_weight 0 then None
  else Some (map (fun kv => (fst kv, (snd kv / total_weight)%Q)) weights).

(** [portfolio_returns += returns_df[fund_name] * weight] *)
Definition add_weighted (f : ReturnsFrame) (acc : ReturnSeries)
           (fund_name : string) (weight : Q) : ReturnSeries :=
  match col_pos fund_name (funds f) with
  | Some i =>
      map (fun al => (fst (fst al),
                      (snd (fst al) + num_of (nth i (snd (snd al)) CNaN) * weight)%Q))
          (combine acc (lines f))
  | None => acc
  end.

Definition calculate_portfolio_returns
           (fund_returns_dict : list (string * ReturnSeries))
           (weights : list (string * Q)) : option ReturnSeries :=
  match fund_returns_dict, weights with
  | [], _ | _, [] => None
  | _, _ =>
      match normalize_weights weights with
      | None => None
      | Some normalized_weights =>
          let returns_df := dropna_lines (frame_of_dict fund_returns_dict) in
          if length (lines returns_df) =? 0 then None
          else
            let portfolio_returns :=
              map (fun l => (fst l, 0%Q)) (lines returns_df) in
            Some (fold_left (fun acc kw =>
                               add_weighted returns_df acc (fst kw) (snd kw))
                            normalized_weights portfolio_returns)
      end
  end.

(** Equal dates and equal numbers, position by position. *)
Definition series_equiv (s t : ReturnSeries) : Prop :=
  Forall2 (fun a b => fst a = fst b /\ (snd a == snd b)%Q) s t.

Definition result_equiv (r : option ReturnSeries) (expected : ReturnSeries)
  : Prop :=
  match expected, r with
  | [], None => True
  | _ :: _, Some s => series_equiv s expected
  | _, _ => False
  end.

(** [0.5*seriesA + 0.5*seriesB] on the dates both series have. *)
Definition half_and_half (sA sB : ReturnSeries) : ReturnSeries :=
  map (fun d => (d, ((1 # 2) * value_at d sA + (1 # 2) * value_at d sB)%Q))
      (filter (fun d => has_date d sB) (dates sA)).

Definition weights_equiv (w v : list (string * Q)) : Prop :=
  Forall2 (fun a b => fst a = fst b /\ (snd a == snd b)%Q) w v.

(** Two short series that overlap on days 2 and 3. *)
Definition series_a : ReturnSeries :=
  [(1%Z, 1 # 100); (2%Z, 2 # 100); (3%Z, -1 # 100)]%Q.
Definition series_b : ReturnSeries :=
  [(2%Z, 4 # 100); (3%Z, 3 # 100); (4%Z, 5 # 100)]%Q.

(** ** Allocation ([optimize_portfolio]) *)

(** The request and response models of schemas.py (fields the endpoint
    reads or writes). *)
Record OptimizationConstraints : Type := {
  min_weight : Q;
  max_weight : Q
}.

Record OptimizationRequest : Type := {
  fund_names : list string;
  constraints : option OptimizationConstraints
}.

Record OptimizationResult : Type := {
  weights : list (string * Q);
  expected_return : cell;
  expected_risk : cell;
  sharpe_ratio : cell;
  status : string;
  iterations : option nat
}.

(** What the endpoint gives back: an [HTTPException] or a result. *)
Inductive response : Type :=
| HTTPException (status_code : nat) (detail : string)
| Response (r : OptimizationResult).

(** [scipy.optimize.OptimizeResult] (fields the endpoint reads). *)
Record OptimizeResult : Type := {
  res_success : bool;
  res_x : list Q;
  res_nit : nat
}.

(** [returns_dict[fund_name] = returns] *)
Fixpoint dict_set (k : string) (v : ReturnSeries)
         (d : list (string * ReturnSeries)) : list (string * ReturnSeries) :=
  match d with
  | [] => [(k, v)]
  | (k', v') :: d' =>
      if String.eqb k k' then (k, v) :: d' else (k', v') :: dict_set k v d'
  end.

Definition dot (a b : list cell) : cell :=
  fold_left fadd (map (fun ab => fmul (fst ab) (snd ab)) (combine a b)) (CNum 0).

Definition Qdot (a b : list Q) : Q :=
  Qsum (map (fun ab => (fst ab * snd ab)%Q) (combine a b)).

Definition column_values (f : ReturnsFrame) (i : nat) : list Q :=
  map (fun l => num_of (nth i (snd l) CNaN)) (lines f).

Definition Qmean (l : list Q) : Q :=
  (Qsum l / inject_Z (Z.of_nat (length l)))%Q.

(** Sample covariance of two columns. *)
Definition covariance (a b : list Q) : Q :=
  (Qsum (map (fun ab => ((fst ab - Qmean a) * (snd ab - Qmean b))%Q)
             (combine a b))
   / inject_Z (Z.of_nat (length a - 1)))%Q.

(** [optimal_weights[optimal_weights < threshold] = 0] *)
Definition zero_below (threshold : Q) (w : list Q) : list Q :=
  map (fun v => if Qle_bool threshold v then v else 0%Q) w.

Definition fsqrt (sqrtQ : Q -> Q) (c : cell) : cell :=
  match c with
  | CNum q => if Qle_bool 0 q then CNum (sqrtQ q) else CNaN
  | CInf true => CInf true
  | _ => CNaN
  end.

Definition is_positive (c : cell) : bool :=
  match c with
  | CNum q => negb (Qle_bool q 0)
  | CInf true => true
  | _ => false
  end.

Section Allocation.
Variable sqrtQ : Q -> Q.
(** [scipy.optimize.minimize(fun, x0, method='SLSQP', bounds=...,
    constraints=[{'type': 'eq', 'fun': ...}], options={'maxiter': ...})] *)
Variable minimize :
  (list Q -> Q) -> list Q -> list (Q * Q) -> (list Q -> Q) -> nat ->
  OptimizeResult.
(** [get_fund_returns_by_name(name, cache.fund_metrics,
    cache.fund_details, period_months=36)] on the loaded cache. *)
Variable get_fund_returns_by_name : string -> option ReturnSeries.
(** Both cache tables are present. *)
Variable cache_loaded : bool.

(** Lines 424-433. *)
Definition collect_returns (names : list string)
  : list (string * ReturnSeries) :=
  fold_left
    (fun returns_dict fund_name =>
       match get_fund_returns_by_name fund_name with
       | Some returns =>
           if 252 <=? length returns
           then dict_set fund_name returns returns_dict
           else returns_dict
       | None => returns_dict
       end)
    names [].

Definition mean_returns_of (returns_df : ReturnsFrame) : list Q :=
  map (fun i => (Qmean (column_values returns_df i) * 252)%Q)
      (seq 0 (length (funds returns_df))).

Definition cov_matrix_of (returns_df : ReturnsFrame) : list (list Q) :=
  map (fun i =>
         map (fun j => (covariance (column_values returns_df i)
                                   (column_values returns_df j) * 252)%Q)
             (seq 0 (length (funds returns_df))))
      (seq 0 (length (funds returns_df))).

Definition neg_sharpe (mean_returns : list Q) (cov_matrix : list (list Q))
           (w : list Q) : Q :=
  let port_return := Qdot w mean_returns in
  let port_vol := sqrtQ (Qdot w (map (fun row => Qdot row w) cov_matrix)) in
  if Qeq_bool port_vol 0 then 0%Q else (- port_return / port_vol)%Q.

(** The call at lines 478-485, on the joined returns. *)
Definition solve (request : OptimizationRequest) (returns_df : ReturnsFrame)
  : OptimizeResult :=
  let n_assets := length (funds returns_df) in
  let lo := match constraints request with
            | Some c => min_weight c
            | None => 0%Q
            end in
  let hi := match constraints request with
            | Some c => max_weight c
            | None => 1%Q
            end in
  let bounds := repeat (lo, hi) n_assets in
  let initial_weights :=
    repeat (1 / inject_Z (Z.of_nat n_assets))%Q n_assets in
  minimize (neg_sharpe (mean_returns_of returns_df) (cov_matrix_of returns_df))
           initial_weights bounds (fun w => (Qsum w - 1)%Q) 1000.

(** Lines 490-516: small weights zeroed, the rest renormalised, the
    figures of the resulting portfolio.  Dividing by a zero sum gives
    NaN weights, as numpy does. *)
Definition report_solution (names : list string) (mean_returns : list Q)
           (cov_matrix : list (list Q)) (result : OptimizeResult)
  : OptimizationResult :=
  let threshold := (1 # 100)%Q in
  let zeroed := zero_below threshold (res_x result) in
  let total := Qsum zeroed in
  let optimal_weights := map (fun v => fdiv (CNum v) (CNum total)) zeroed in
  let opt_return := dot optimal_weights (map CNum mean_returns) in
  let opt_vol :=
    fsqrt sqrtQ
      (dot optimal_weights
           (map (fun row => dot (map CNum row) optimal_weights) cov_matrix)) in
  let opt_sharpe :=
    if is_positive opt_vol then fdiv opt_return opt_vol else CNum 0 in
  let weights_dict :=
    flat_map (fun nw => if is_positive (snd nw)
                        then [(fst nw, num_of (snd nw))] else [])
             (combine names optimal_weights) in
  {| weights := weights_dict;
     expected_return := opt_return;
     expected_risk := opt_vol;
     sharpe_ratio := opt_sharpe;
     status := "success";
     iterations := Some (res_nit result) |}.

Definition optimize_portfolio (request : OptimizationRequest) : response :=
  if negb cache_loaded then HTTPException 503 "Fund data not loaded"
  else
    let returns_dict := collect_returns (fund_names request) in
    if length returns_dict <? 2
    then HTTPException 400
           "Need at least 2 funds with sufficient data for optimization"
    else
      let returns_df := dropna_lines (frame_of_dict returns_dict) in
      if length (lines returns_df) <? 252
      then HTTPException 400 "Insufficient overlapping data"
      else
        let result := solve request returns_df in
        if negb (res_success result)
        then HTTPException 500 "Optimization failed to converge"
        else Response (report_solution (funds returns_df)
                                       (mean_returns_of returns_df)
                                       (cov_matrix_of returns_df) result).
End Allocation.

(** The sum of the weights an allocation reports. *)
Definition reported_total (r : OptimizationResult) : Q :=
  Qsum (map snd (weights r)).

(** A request over 101 share classes of one fund: the same year of
    daily returns under 101 names, default bounds. *)
Definition flat_year : ReturnSeries :=
  map (fun d => (Z.of_nat d, 0%Q)) (seq 0 252).

Definition share_classes : list string :=
  map (fun k => String (ascii_of_nat (32 + k)) EmptyString) (seq 0 101).

Definition share_class_request : OptimizationRequest :=
  {| fund_names := share_classes; constraints := None |}.

Definition share_class_returns (name : string) : option ReturnSeries :=
  Some flat_year.

(** On identical funds every allocation has the same Sharpe ratio; the
    solver stops where it starts, at the equal weights. *)
Definition stops_at_start (objective : list Q -> Q) (x0 : list Q)
           (bounds : list (Q * Q)) (constraint : list Q -> Q) (maxiter : nat)
  : OptimizeResult :=
  {| res_success := true; res_x := x0; res_nit := 1 |}.

Definition sample_sqrt (q : Q) : Q := q.

(** ** Sortino ratio ([PortfolioMetrics.annualized_return],
       [PortfolioMetrics.sortino_ratio]) *)

(** A float as a real number, +infinity or NaN. *)
Inductive xreal : Type :=
| XNum (r : R)
| XInf
| XNaN.

Definition Rsum (l : list R) : R := fold_left Rplus l 0%R.

(** [np.mean] of a non-empty array. *)
Definition Rmean (l : list R) : R :=
  (Rsum l / IZR (Z.of_nat (length l)))%R.

(** [(1 + returns).prod()] *)
Definition growth (returns : list R) : R :=
  fold_left Rmult (map (Rplus 1) returns) 1%R.

(** [base ** exponent] on floats, for a positive exponent: the real
    power of a positive base, 0 for base 0, and for a negative base the
    integer power when the exponent is a whole number, NaN otherwise. *)
Definition float_pow (base exponent : R) : xreal :=
  if Rlt_dec 0 base then XNum (Rpower base exponent)
  else if Req_dec_T base 0 then XNum 0
  else if Req_dec_T exponent (IZR (Int_part exponent))
       then XNum (powerRZ base (Int_part exponent))
       else XNaN.

Definition xminus (a : xreal) (b : R) : xreal :=
  match a with
  | XNum r => XNum (r - b)
  | other => other
  end.

Definition xdiv (a : xreal) (b : R) : xreal :=
  match a with
  | XNum r => XNum (r / b)
  | other => other
  end.

(** [a > b]; false on NaN. *)
Definition exceeds (a : xreal) (b : R) : bool :=
  match a with
  | XNum r => if Rlt_dec b r then true else false
  | XInf => true
  | XNaN => false
  end.

(** [periods_per_year] is a positive count (252 by default). *)
Definition annualized_return (returns : list R) (periods_per_year : positive)
  : xreal :=
  if length returns =? 0 then XNum 0
  else
    let total_return := (growth returns - 1)%R in
    let n_periods := length returns in
    let years := (IZR (Z.of_nat n_periods) / IZR (Zpos periods_per_year))%R in
    if Rle_dec years 0 then XNum 0
    else xminus (float_pow (1 + total_return) (1 / years)) 1.

(** [returns[returns < target_return]] *)
Definition below (target_return : R) (returns : list R) : list R :=
  filter (fun r => if Rlt_dec r target_return then true else false) returns.

(** [np.sqrt(np.mean(downside_returns ** 2)) * np.sqrt(periods_per_year)] *)
Definition downside_deviation (downside_returns : list R)
           (periods_per_year : positive) : R :=
  (sqrt (Rmean (map (fun r => r * r) downside_returns))
   * sqrt (IZR (Zpos periods_per_year)))%R.

Definition sortino_ratio (returns : list R) (target_return : R)
           (periods_per_year : positive) : xreal :=
  if length returns <? 2 then XNum 0
  else
    let ann_ret := annualized_return returns periods_per_year in
    let downside_returns := below target_return returns in
    if length downside_returns =? 0
    then (if exceeds ann_ret target_return then XInf else XNum 0)
    else
      let downside_std :=
        downside_deviation downside_returns periods_per_year in
      if Req_dec_T downside_std 0
      then (if exceeds ann_ret target_return then XInf else XNum 0)
      else xdiv (xminus ann_ret target_return) downside_std.

(** The ratio in the words of the specification: the downside deviation
    is the root of the mean, over all observations, of
    min(r - target, 0) squared, times the root of the periods per
    year. *)
Definition shortfall_deviation (returns : list R) (target_return : R)
           (periods_per_year : positive) : R :=
  (sqrt (Rmean (map (fun r => Rmin (r - target_return) 0
                              * Rmin (r - target_return) 0) returns))
   * sqrt (IZR (Zpos periods_per_year)))%R.

Definition sortino_spec (returns : list R) (target_return : R)
           (periods_per_year : positive) : xreal :=
  let ann_ret := annualized_return returns periods_per_year in
  if length (below target_return returns) =? 0
  then (if exceeds ann_ret target_return then XInf else XNum 0)
  else xdiv (xminus ann_ret target_return)
            (shortfall_deviation returns target_return periods_per_year).

(** Four quarters: three flat, one at -50%. *)
Definition one_bad_quarter : list R := [0; 0; 0; -1 / 2]%R.

(** Four quarters at -50%, against a target of +50%. *)
Definition four_bad_quarters : list R := [-1 / 2; -1 / 2; -1 / 2; -1 / 2]%R.

(** ** Shape of an extracted series *)

(** The dates of a series as sort keys, in order. *)
Definition series_keys (s : Series) : list (option Z) :=
  map (fun lv => date_key (fst lv)) s.

(** Ascending in the index order (NaT last). *)
Definition keys_ascending (s : Series) : Prop :=
  StronglySorted (fun a b => key_le a b = true) (series_keys s).

(** ** Flow percentages *)

(** The percentage [safe_pct] gives for a number over a base. *)
Definition pct_of (value : Q) (base : cell) : Q :=
  match base with
  | CNum b => if Qzero_b b then 0%Q else (value / b * (100 # 1))%Q
  | _ => 0%Q
  end.

(** A base that is absent or zero. *)
Definition no_base (base : cell) : Prop :=
  base = CNone \/ exists b, base = CNum b /\ (b == 0)%Q.

(** The three transfer percentages and the three shareholder
    percentages of a result. *)
Definition transfer_percentages (m : FlowMetrics) : list cell :=
  [daily_transfers_pct m; weekly_transfers_pct m; monthly_transfers_pct m].

Definition investor_percentages (m : FlowMetrics) : list cell :=
  [daily_investors_pct m; weekly_investors_pct m; monthly_investors_pct m].

(** ** Cumulative returns and drawdown ([PortfolioMetrics.cumulative_returns],
       [max_drawdown], [underwater_series]) *)

(** [s.cumprod()] *)
Fixpoint cumprod_from (acc : Q) (l : list Q) : list Q :=
  match l with
  | [] => []
  | x :: l' => (acc * x)%Q :: cumprod_from (acc * x)%Q l'
  end.

Definition cumprod (l : list Q) : list Q :=
  match l with
  | [] => []
  | x :: l' => x :: cumprod_from x l'
  end.

(** [s.cummax()] *)
Definition Qmax_b (a b : Q) : Q := if Qle_bool a b then b else a.

Fixpoint cummax_from (m : Q) (l : list Q) : list Q :=
  match l with
  | [] => []
  | x :: l' => Qmax_b m x :: cummax_from (Qmax_b m x) l'
  end.

Definition cummax (l : list Q) : list Q :=
  match l with
  | [] => []
  | x :: l' => x :: cummax_from x l'
  end.

Definition cumulative_returns (returns : list Q) : list Q :=
  map (fun g => (g - 1)%Q) (cumprod (map (Qplus 1) returns)).

(** [(cumulative - running_max) / running_max], element by element. *)
Definition underwater_series (returns : list Q) : list cell :=
  let cumulative := cumprod (map (Qplus 1) returns) in
  let running_max := cummax cumulative in
  map (fun cm => fdiv (CNum (fst cm - snd cm)) (CNum (snd cm)))
      (combine cumulative running_max).

(** [s.min()] on floats: nulls are skipped, NaN when nothing is left. *)
Definition series_min (l : list cell) : cell :=
  match filter (fun c => negb (isna c)) l with
  | [] => CNaN
  | x :: xs => fold_left (fun m c => if float_ge m c then c else m) xs x
  end.

Definition max_drawdown (returns : list Q) : cell :=
  if length returns =? 0 then CNum 0
  else series_min (underwater_series returns).

(** ** Upper tail, Omega and Rachev ratios *)

(** [returns[returns >= x]] *)
Definition at_least (x : cell) (l : list Q) : list Q :=
  match x with
  | CNum v => filter (fun r => Qle_bool v r) l
  | CInf false => l
  | _ => []
  end.

Definition var_upper (returns : list Q) (confidence : Q) : outcome cell :=
  if length returns =? 0 then Returned (CNum 0)
  else percentile returns (confidence * 100)%Q.

Definition cvar_upper (returns : list Q) (confidence : Q) : outcome cell :=
  if length returns =? 0 then Returned (CNum 0)
  else
    var_upper <- var_upper returns confidence ;;
    Returned (mean (at_least var_upper returns)).

Definition Qabs_q (q : Q) : Q := if Qle_bool 0 q then q else (- q)%Q.

Definition omega_ratio (returns : list Q) (threshold : Q) : cell :=
  if length returns =? 0 then CNum 1
  else
    let excess := map (fun r => (r - threshold)%Q) returns in
    let gains := Qsum (filter (fun e => negb (Qle_bool e 0)) excess) in
    let losses :=
      Qabs_q (Qsum (filter (fun e => negb (Qle_bool 0 e)) excess)) in
    if Qeq_bool losses 0
    then (if negb (Qle_bool gains 0) then CInf true else CNum 1)
    else CNum (gains / losses).

(** [abs] of a float. *)
Definition fabs (c : cell) : cell :=
  match c with
  | CNum q => CNum (Qabs_q q)
  | CInf _ => CInf true
  | other => other
  end.

(** [x == 0] and [x > 0] on a float. *)
Definition is_zero (c : cell) : bool :=
  match c with
  | CNum q => Qeq_bool q 0
  | _ => false
  end.

Definition rachev_ratio (returns : list Q) (alpha : Q) : outcome cell :=
  if length returns =? 0 then Returned (CNum 1)
  else
    upper_threshold <- percentile returns ((1 - alpha) * 100)%Q ;;
    lower_threshold <- percentile returns (alpha * 100)%Q ;;
    let expected_gain := mean (at_least upper_threshold returns) in
    let expected_loss := fabs (mean (at_most lower_threshold returns)) in
    if is_zero expected_loss
    then Returned (if is_positive expected_gain then CInf true else CNum 1)
    else Returned (fdiv expected_gain expected_loss).

(** A float that is a number at least 0, or +infinity. *)
Definition nonneg_or_inf (c : cell) : Prop :=
  c = CInf true \/ exists q, c = CNum q /\ (0 <= q)%Q.

(** A float that is a finite number or +infinity. *)
Definition number_or_inf (c : cell) : Prop :=
  c = CInf true \/ exists q, c = CNum q.

(** Returns of five days: up, down, up, flat, up. *)
Definition five_days : list Q :=
  [1 # 100; -2 # 100; 3 # 100; 0; 2 # 100]%Q.

(** A drawdown: a number above -1 and at most 0. *)
Definition drawdown_value (c : cell) : Prop :=
  exists d, c = CNum d /\ (-1 < d)%Q /\ (d <= 0)%Q.

(** ** Benchmark-relative figures ([PortfolioMetrics.beta],
       [PortfolioMetrics.information_ratio]) *)

(** [pd.concat([returns, benchmark_returns], axis=1).dropna()]: the two
    series side by side on the dates both have. *)
Definition aligned (returns benchmark_returns : ReturnSeries) : ReturnsFrame :=
  dropna_lines (frame_of_dict [("0"%string, returns);
                               ("1"%string, benchmark_returns)]).

Definition beta (returns benchmark_returns : ReturnSeries) : cell :=
  if (length returns =? 0) || (length benchmark_returns =? 0) then CNum 1%Q
  else
    let aligned := aligned returns benchmark_returns in
    if length (lines aligned) <? 2 then CNum 1%Q
    else
      let cov := covariance (column_values aligned 0)
                            (column_values aligned 1) in
      let benchmark_variance := covariance (column_values aligned 1)
                                           (column_values aligned 1) in
      if Qeq_bool benchmark_variance 0%Q then CNum 1%Q%Q
      else CNum (cov / benchmark_variance).

Definition information_ratio (sqrtQ : Q -> Q)
           (returns benchmark_returns : ReturnSeries) : cell :=
  if (length returns =? 0) || (length benchmark_returns =? 0) then CNum 0%Q
  else
    let aligned := aligned returns benchmark_returns in
    if length (lines aligned) <? 2 then CNum 0%Q
    else
      let excess_returns :=
        map (fun ab => (fst ab - snd ab)%Q)
            (combine (column_values aligned 0) (column_values aligned 1)) in
      let tracking_error :=
        fmul (std sqrtQ excess_returns) (CNum (sqrtQ 252%Q)) in
      if is_zero tracking_error then CNum 0%Q%Q
      else fdiv (fmul (mean excess_returns) (CNum 252%Q)) tracking_error.

(** ** Rescaled weights *)

(** Every weight of an allocation multiplied by the same factor. *)
Definition scaled (k : Q) (weights : list (string * Q))
  : list (string * Q) :=
  map (fun kv => (fst kv, (snd kv * k)%Q)) weights.

(** Two results of the aggregator that agree: both absent, or the same
    dates with equal numbers. *)
Definition same_result (r r' : option ReturnSeries) : Prop :=
  match r, r' with
  | None, None => True
  | Some s, Some s' => series_equiv s s'
  | _, _ => False
  end.

(** ** Requests over two share classes *)

Definition repeated_request : OptimizationRequest :=
  {| fund_names := ["A"; "A"]%string; constraints := None |}.

Definition two_class_request : OptimizationRequest :=
  {| fund_names := ["A"; "B"]%string; constraints := None |}.

(** ** Risk snapshot ([calculate_risk_metrics]) *)

(** [s.max()]: NaN on an empty series. *)
Definition series_max (l : list cell) : cell :=
  match filter (fun c => negb (isna c)) l with
  | [] => CNaN
  | x :: xs => fold_left (fun m c => if float_ge c m then c else m) xs x
  end.

(** A series of finite returns and nulls ([None] for NaN), and its
    [.dropna()]. *)
Definition dropna_returns (s : list (Z * option Q)) : ReturnSeries :=
  flat_map (fun p => match snd p with
                     | Some q => [(fst p, q)]
                     | None => []
                     end) s.

(** The dictionary [calculate_risk_metrics] returns, one field per key
    ('return', 'mean', 'std', 'z_score', 'var_95', ...). *)
Record RiskMetrics : Type := {
  m_return : cell;
  m_mean : cell;
  m_std : cell;
  m_z_score : cell;
  m_var_95 : cell;
  m_var_5 : cell;
  m_cvar_95 : cell;
  m_cvar_5 : cell;
  m_min : cell;
  m_max : cell;
  m_skewness : cell;
  m_kurtosis : cell
}.

Section RiskSnapshot.
Variable sqrtQ : Q -> Q.
(** [s.skew()] and [s.kurtosis()] (library functions). *)
Variable skew : list Q -> cell.
Variable kurtosis : list Q -> cell.

Definition calculate_risk_metrics (returns : option (list (Z * option Q)))
  : outcome (option RiskMetrics) :=
  match returns with
  | None => Returned None
  | Some returns =>
      if length returns =? 0 then Returned None
      else
        let returns_clean := returns_of (dropna_returns returns) in
        if length returns_clean <? 10 then Returned None
        else
          let latest_return := CNum (last returns_clean 0%Q) in
          let mean := mean returns_clean in
          let std := std sqrtQ returns_clean in
          var_95 <- var returns_clean (95 # 100)%Q ;;
          var_5 <- var_upper returns_clean (95 # 100)%Q ;;
          cvar_95 <- cvar returns_clean (95 # 100)%Q ;;
          cvar_5 <- cvar_upper returns_clean (95 # 100)%Q ;;
          Returned (Some
            {| m_return := latest_return;
               m_mean := mean;
               m_std := std;
               m_z_score := if is_positive std
                            then fdiv (fsub latest_return mean) std
                            else CNum 0%Q;
               m_var_95 := var_95;
               m_var_5 := var_5;
               m_cvar_95 := cvar_95;
               m_cvar_5 := cvar_5;
               m_min := series_min (map CNum returns_clean);
               m_max := series_max (map CNum returns_clean);
               m_skewness := skew returns_clean;
               m_kurtosis := kurtosis returns_clean |})
  end.
End RiskSnapshot.

(** ** Sample years *)

(** A year of quarterly returns, and one with a total loss. *)
Definition four_quarters : list R := [0.1; -0.05; 0.02; 0.03]%R.
Definition wiped_out : list R := [0.1; -1; 0.5]%R.
Definition four_gains : list R := [0.1; 0; 0.02; 0.03]%R.

(** ** The resampled series in the words of the specification *)

(** The product of (1 + r) over a window, factor by factor. *)
Fixpoint growth_factor (window : list Q) : Q :=
  match window with
  | [] => 1%Q
  | r :: rest => ((1 + r) * growth_factor rest)%Q
  end.

(** The compounded return of a window: the product of (1 + r), minus 1. *)
Definition compounded_return (window : list Q) : Q :=
  (growth_factor window - 1)%Q.

(** One point per input position from the [w]-th on (the leading
    [w - 1] positions give none): the date of that position with the
    compounded return of the [w] daily returns that end there. *)
Definition specified_windows (w : nat) (s : ReturnSeries) : ReturnSeries :=
  map (fun i =>
         (nth i (dates s) 0%Z,
          compounded_return (firstn w (skipn (i + 1 - w) (returns_of s)))))
      (seq (w - 1) (length s - (w - 1))).

(** Six trading days: two gains of 10%, three flat days, a gain of 50%. *)
Definition six_returns : ReturnSeries :=
  [(1%Z, 1 # 10); (2%Z, 1 # 10); (3%Z, 0); (4%Z, 0); (5%Z, 0);
   (6%Z, 1 # 2)]%Q.

(** ** The flow figures in the words of the specification *)





(** Net assets and shareholder counts are finite numbers; a transfer is
    a finite number or missing (NaN). *)
Definition number_or_missing (c : cell) : bool :=
  match c with
  | CNum _ | CNaN => true
  | _ => false
  end.







(** ** The tail figures in binary64 *)

(** [np.percentile] and [Series.mean] as the program runs them, on IEEE
    754 binary64 numbers, for a series without NaN.  The percentile is
    numpy's (version 1.22 or later) for the default linear method: the
    virtual index [(n - 1) * (q / 100)], its two neighbours in the sorted
    data, and the interpolation of [_lerp].  The mean is the sum, added
    up from left to right, over the count; numpy's own summation adds
    the same numbers in another order only where the values differ or
    exceed eight. *)
#[local] Set Warnings "-inexact-float".

Definition float_of_nat (n : nat) : float :=
  PrimFloat.of_uint63 (Uint63.of_Z (Z.of_nat n)).

(** [np.floor] of a virtual index between 0 and [n - 1], as a position:
    the number of positions 1 .. n - 1 at or below it. *)
Definition floor_index (virtual_index : float) (n : nat) : nat :=
  length (filter (fun i => PrimFloat.leb (float_of_nat i) virtual_index)
                 (seq 1 (n - 1))).

(** [_lerp(a, b, t)]: [a + (b - a) * t], and [b - (b - a) * (1 - t)]
    where [t >= 0.5]. *)
Definition lerp (a b t : float) : float :=
  let diff_b_a := PrimFloat.sub b a in
  if PrimFloat.leb 0.5%float t
  then PrimFloat.sub b (PrimFloat.mul diff_b_a (PrimFloat.sub 1%float t))
  else PrimFloat.add a (PrimFloat.mul diff_b_a t).

Definition percentile64 (a : list float) (q : float) : outcome float :=
  let quantile := PrimFloat.div q 100%float in
  if PrimFloat.leb 0%float quantile && PrimFloat.leb quantile 1%float
  then
    match a with
    | [] => Returned PrimFloat.nan
    | _ :: _ =>
        let sorted := stable_sort PrimFloat.leb a in
        let n := length a in
        let virtual_index := PrimFloat.mul (float_of_nat (n - 1)) quantile in
        let previous_index := floor_index virtual_index n in
        let next_index := Nat.min (previous_index + 1) (n - 1) in
        let gamma :=
          PrimFloat.sub virtual_index (float_of_nat previous_index) in
        Returned (lerp (nth previous_index sorted PrimFloat.nan)
                       (nth next_index sorted PrimFloat.nan) gamma)
    end
  else Raised.

(** [s.mean()]: NaN on an empty series. *)
Definition mean64 (l : list float) : float :=
  match l with
  | [] => PrimFloat.nan
  | _ :: _ =>
      PrimFloat.div (fold_left PrimFloat.add l 0%float)
                    (float_of_nat (length l))
  end.

Definition var64 (returns : list float) (confidence : float)
  : outcome float :=
  if length returns =? 0 then Returned 0%float
  else percentile64 returns
         (PrimFloat.mul (PrimFloat.sub 1%float confidence) 100%float).

Definition cvar64 (returns : list float) (confidence : float)
  : outcome float :=
  if length returns =? 0 then Returned 0%float
  else
    var_value <- var64 returns confidence ;;
    Returned (mean64 (filter (fun r => PrimFloat.leb r var_value) returns)).

(** The distinct values of a binary64 series. *)
Fixpoint distinct64 (l : list float) : list float :=
  match l with
  | [] => []
  | x :: l' =>
      if existsb (PrimFloat.eqb x) l' then distinct64 l' else x :: distinct64 l'
  end.

(** Twenty-five daily returns with twenty distinct values: six days at
    -2.5%, then nineteen days from -2% to +16%. *)
Definition slump : list float :=
  [-0.025; 0.01; -0.025; 0.03; -0.02; -0.025; 0.05; 0.02; -0.01; -0.025;
   0.04; 0; 0.06; -0.025; 0.07; 0.08; 0.09; -0.025; 0.1; 0.11; 0.12; 0.13;
   0.14; 0.15; 0.16]%float.

(** ** The requested returns ([optimize_portfolio], lines 420-438) *)

Section RequestedReturns.
(** [get_fund_returns_by_name(name, cache.fund_metrics,
    cache.fund_details, period_months=36)] with its exceptions: the call
    raises, or returns a series or [None]. *)
Variable get_fund_returns_by_name : string -> outcome (option ReturnSeries).
(** Both cache tables are present. *)
Variable cache_loaded : bool.

(** Lines 424-433: the loop over the requested names; an exception of
    the loader leaves it. *)
Fixpoint collect_requested (names : list string)
         (returns_dict : list (string * ReturnSeries))
  : outcome (list (string * ReturnSeries)) :=
  match names with
  | [] => Returned returns_dict
  | fund_name :: rest =>
      returns <- get_fund_returns_by_name fund_name ;;
      collect_requested rest
        (match returns with
         | Some returns =>
             if 252 <=? length returns
             then dict_set fund_name returns returns_dict
             else returns_dict
         | None => returns_dict
         end)
  end.

(** Lines 420-438: what the endpoint does before it builds the returns
    matrix.  [inl] is the HTTP error it answers with, [inr] the
    dictionary it goes on with; [Raised] is an exception of the loader
    that leaves the endpoint. *)
Definition requested_returns (request : OptimizationRequest)
  : outcome (response + list (string * ReturnSeries)) :=
  if negb cache_loaded
  then Returned (inl (HTTPException 503 "Fund data not loaded"))
  else
    returns_dict <- collect_requested (fund_names request) [] ;;
    if length returns_dict <? 2
    then Returned
           (inl (HTTPException 400
                   "Need at least 2 funds with sufficient data for optimization"))
    else Returned (inr returns_dict).
End RequestedReturns.

(** What a loader call gives when it returns. *)
Definition returned_series (o : outcome (option ReturnSeries))
  : option ReturnSeries :=
  match o with
  | Returned v => v
  | Raised => None
  end.

Definition raises (A : Type) (o : outcome A) : bool :=
  match o with
  | Raised => true
  | Returned _ => false
  end.

(** A loader that raises for the fund "B". *)
Definition failing_loader (name : string) : outcome (option ReturnSeries) :=
  if String.eqb name "B" then Raised else Returned (Some flat_year).

(* ================================================================== *)
(** * Part II.  Theorems                                                *)
(* ================================================================== *)

(** ** Identifier normalisation *)

Lemma isdigit_zero : isdigit "0" = true.
Proof. reflexivity. Qed.

Lemma isdigit_not_sign (c : ascii) : isdigit c = true -> is_sign c = false.
Proof.
  unfold is_sign. intro Hd.
  destruct (Ascii.eqb_spec c "+") as [->|_]; [discriminate Hd|].
  destruct (Ascii.eqb_spec c "-") as [->|_]; [discriminate Hd|].
  reflexivity.
Qed.

Lemma filter_isdigit_all (l : list ascii) :
  Forall (fun c => isdigit c = true) l -> filter isdigit l = l.
Proof.
  induction 1 as [|c l Hc _ IH]; simpl; [reflexivity|].
  now rewrite Hc, IH.
Qed.

Lemma Forall_digits_filter (l : list ascii) :
  Forall (fun c => isdigit c = true) (filter isdigit l).
Proof.
  apply Forall_forall. intros c Hin. now apply filter_In in Hin.
Qed.

Lemma zfill_digits (d : list ascii) :
  Forall (fun c => isdigit c = true) d ->
  length d < 14 ->
  zfill 14 d = repeat "0"%char (14 - length d) ++ d.
Proof.
  intros Hd Hlen. unfold zfill.
  destruct (Nat.leb_spec 14 (length d)) as [Hge|_]; [lia|].
  destruct d as [|c rest]; simpl.
  - reflexivity.
  - inversion Hd as [|? ? Hc _]; subst.
    now rewrite (isdigit_not_sign _ Hc).
Qed.

(** The three branches of the source collapse to the two of the
    specification. *)
Lemma standardize_chars_spec (s : list ascii) :
  standardize_chars s =
  let d := filter isdigit s in
  if length d <? 14 then repeat "0"%char (14 - length d) ++ d
  else firstn 14 d.
Proof.
  unfold standardize_chars. cbv zeta.
  set (d := filter isdigit s).
  destruct (Nat.eqb_spec (length d) 14) as [E|NE].
  - destruct (Nat.ltb_spec (length d) 14) as [Hlt|_]; [lia|].
    symmetry. apply firstn_all2. lia.
  - destruct (Nat.ltb_spec (length d) 14) as [Hlt|Hge]; [|reflexivity].
    apply zfill_digits; [apply Forall_digits_filter|exact Hlt].
Qed.

Lemma standardize_chars_length (s : list ascii) :
  length (standardize_chars s) = 14.
Proof.
  rewrite standardize_chars_spec. cbv zeta.
  set (d := filter isdigit s).
  destruct (Nat.ltb_spec (length d) 14) as [Hlt|Hge].
  - rewrite length_app, repeat_length. lia.
  - rewrite length_firstn. lia.
Qed.

Lemma standardize_chars_digits (s : list ascii) :
  Forall (fun c => isdigit c = true) (standardize_chars s).
Proof.
  rewrite standardize_chars_spec. cbv zeta.
  set (d := filter isdigit s).
  assert (Hd : Forall (fun c => isdigit c = true) d)
    by apply Forall_digits_filter.
  destruct (Nat.ltb_spec (length d) 14) as [Hlt|Hge].
  - apply Forall_app. split; [|exact Hd].
    apply Forall_forall. intros c Hin.
    apply repeat_spec in Hin. subst c. apply isdigit_zero.
  - apply Forall_forall. intros c Hin.
    rewrite Forall_forall in Hd. apply Hd.
    rewrite <- (firstn_skipn 14 d). apply in_or_app. now left.
Qed.

Lemma standardize_chars_fixed (d : list ascii) :
  Forall (fun c => isdigit c = true) d -> length d = 14 ->
  standardize_chars d = d.
Proof.
  intros Hd Hlen. unfold standardize_chars.
  rewrite (filter_isdigit_all Hd), Hlen. reflexivity.
Qed.

Lemma string_length_of_list (l : list ascii) :
  String.length (string_of_list_ascii l) = length l.
Proof. induction l as [|c l IH]; simpl; congruence. Qed.

Lemma standardize_cnpj_some (s : string) :
  standardize_cnpj (Some s) = Some (normalize_spec s).
Proof.
  unfold standardize_cnpj, normalize_spec, digits_of.
  now rewrite standardize_chars_spec.
Qed.

Lemma standardize_cnpj_idempotent (x : option string) :
  standardize_cnpj (standardize_cnpj x) = standardize_cnpj x.
Proof.
  destruct x as [s|]; [|reflexivity].
  unfold standardize_cnpj at 2.
  unfold standardize_cnpj.
  rewrite list_ascii_of_string_of_list_ascii.
  rewrite standardize_chars_fixed;
    [reflexivity|apply standardize_chars_digits|apply standardize_chars_length].
Qed.

(** C5.  [standardize_cnpj] keeps exactly the digit characters of its
    input, left-pads them with zeros to 14 when there are fewer and keeps
    the first 14 when there are more; its result holds digits only; it is
    idempotent (on every input, digit-bearing or not); "123" becomes
    "00000000000123"; twenty '1' characters become the first 14 of them. *)
Theorem standardize_cnpj_normal_form :
  (forall s, standardize_cnpj (Some s) = Some (normalize_spec s)) /\
  (forall s r, standardize_cnpj (Some s) = Some r ->
     Forall (fun c => isdigit c = true) (list_ascii_of_string r)) /\
  (forall x, standardize_cnpj (standardize_cnpj x) = standardize_cnpj x) /\
  standardize_cnpj (Some "123"%string) = Some "00000000000123"%string /\
  standardize_cnpj (Some "11111111111111111111"%string) =
    Some (substring 0 14 "11111111111111111111"%string).
Proof.
  split; [exact standardize_cnpj_some|].
  split.
  { intros s r H. injection H as <-.
    rewrite list_ascii_of_string_of_list_ascii.
    apply standardize_chars_digits. }
  split; [exact standardize_cnpj_idempotent|].
  split; reflexivity.
Qed.

(** C10.  On every non-null input [standardize_cnpj] returns a string of
    exactly 14 characters; an input without any digit gives fourteen
    zeros, not null. *)
Theorem standardize_cnpj_fourteen :
  (forall s, exists r,
     standardize_cnpj (Some s) = Some r /\ String.length r = 14) /\
  (forall s, digits_of s = [] ->
     standardize_cnpj (Some s) = Some "00000000000000"%string).
Proof.
  split.
  - intro s. eexists. split; [reflexivity|].
    rewrite string_length_of_list. apply standardize_chars_length.
  - intros s Hs. rewrite standardize_cnpj_some.
    unfold normalize_spec. rewrite Hs. reflexivity.
Qed.

Lemma standardize_cnpj_fourteen_witness :
  digits_of "n/a"%string = [] /\
  standardize_cnpj (Some "n/a"%string) = Some "00000000000000"%string.
Proof.
  split; [reflexivity|].
  apply (proj2 standardize_cnpj_fourteen "n/a"%string). reflexivity.
Defined.

(** ** Returns extraction: effect on the caller's table, missing columns *)

Lemma col_pos_has_column (name : string) (df : DataFrame) :
  has_column name df = true -> exists i, col_pos name (columns df) = Some i.
Proof.
  unfold has_column. induction (columns df) as [|c cs IH]; simpl.
  - discriminate.
  - destruct (String.eqb name c); [eexists; reflexivity|].
    simpl. intro H. destruct (IH H) as [i ->]. eexists; reflexivity.
Qed.

Lemma col_pos_no_column (name : string) (df : DataFrame) :
  has_column name df = false -> col_pos name (columns df) = None.
Proof.
  unfold has_column. induction (columns df) as [|c cs IH]; simpl.
  - reflexivity.
  - destruct (String.eqb name c); [discriminate|].
    simpl. intro H. now rewrite (IH H).
Qed.

Lemma combine_map_self (A B : Type) (f : A -> B) (l : list A) :
  combine l (map f l) = map (fun a => (a, f a)) l.
Proof. induction l as [|a l IH]; simpl; congruence. Qed.

Section ExtractionFacts.
Variable py_str : cell -> string.
Variable parse_datetime : string -> option Z.
Variable datetime_of_number : Q -> Z.
Variable minus_months : Z -> Z -> Z.

Let get := get_fund_returns py_str parse_datetime datetime_of_number
                            minus_months.
Let extract := extract_returns parse_datetime datetime_of_number
                               minus_months.

(** Appending CNPJ_STANDARD is what the assignment at line 216 does to
    a table without that column. *)
Lemma assign_standard_column (df : DataFrame) (i : nat) :
  has_column "CNPJ_STANDARD" df = false ->
  col_pos "CNPJ" (columns df) = Some i ->
  assign_column df "CNPJ_STANDARD"
    (map (fun lv => standardize_cell py_str (snd lv))
         (map (fun r => (label r, nth i (vals r) CNaN)) (rows df)))
  = with_standard_column py_str df.
Proof.
  intros Hno Hi. unfold assign_column, with_standard_column.
  rewrite (col_pos_no_column _ _ Hno), Hi. f_equal.
  rewrite map_map. cbn [snd].
  rewrite combine_map_self, map_map. reflexivity.
Qed.

Lemma get_fund_returns_table (df : DataFrame) (cnpj : string)
      (period_months : option Z) :
  snd (get (Some df) (Some cnpj) period_months) =
  if has_column "CNPJ_STANDARD" df then Some df
  else if has_column "CNPJ" df then Some (with_standard_column py_str df)
  else Some df.
Proof.
  unfold get, get_fund_returns.
  destruct (has_column "CNPJ_STANDARD" df) eqn:Hstd; [reflexivity|].
  destruct (has_column "CNPJ" df) eqn:Hcnpj; [|reflexivity].
  destruct (col_pos_has_column _ _ Hcnpj) as [i Hi].
  unfold column. rewrite Hi. cbn [snd].
  now rewrite (assign_standard_column _ Hstd Hi).
Qed.

Lemma has_column_with_standard (c : string) (df : DataFrame) :
  has_column c (with_standard_column py_str df) =
  has_column c df || String.eqb c "CNPJ_STANDARD".
Proof.
  unfold has_column, with_standard_column. cbn [columns].
  rewrite existsb_app. simpl. now rewrite orb_false_r.
Qed.

Lemma first_present_columns (cands : list string) (df df' : DataFrame) :
  (forall c, In c cands -> has_column c df' = has_column c df) ->
  first_present cands df' = first_present cands df.
Proof.
  induction cands as [|c cs IH]; simpl; intro H; [reflexivity|].
  rewrite (H c (or_introl eq_refl)).
  destruct (has_column c df); [reflexivity|].
  apply IH. intros c' Hc'. apply H. now right.
Qed.

Lemma first_present_none (cands : list string) (df : DataFrame) :
  forallb (fun c => negb (has_column c df)) cands = true ->
  first_present cands df = None.
Proof.
  induction cands as [|c cs IH]; simpl; [reflexivity|].
  intro H. apply andb_true_iff in H as [Hc Hcs].
  apply negb_true_iff in Hc. rewrite Hc. now apply IH.
Qed.

(** Without a return column and without a quota column the extraction
    stops at line 242, before any date is parsed. *)
Lemma extract_returns_no_source (df : DataFrame) (cnpj : string)
      (period_months : option Z) :
  first_present return_columns df = None ->
  first_present quota_columns df = None ->
  extract df cnpj period_months = Returned None.
Proof.
  intros Hr Hq. unfold extract, extract_returns.
  set (fund_data := filter_rows _ df).
  destruct (length (rows fund_data) =? 0); [reflexivity|].
  assert (Hcols : forall c, has_column c fund_data = has_column c df)
    by reflexivity.
  rewrite (first_present_columns return_columns df fund_data), Hr
    by (intros; apply Hcols).
  rewrite (first_present_columns quota_columns df fund_data), Hq
    by (intros; apply Hcols).
  reflexivity.
Qed.

Lemma lacks_sources_split (df : DataFrame) :
  lacks_sources df = true ->
  first_present return_columns df = None /\
  first_present quota_columns df = None.
Proof.
  unfold lacks_sources. rewrite forallb_app.
  intro H. apply andb_true_iff in H as [Hr Hq].
  split; now apply first_present_none.
Qed.

Lemma lacks_sources_with_standard (df : DataFrame) :
  lacks_sources df = true ->
  lacks_sources (with_standard_column py_str df) = true.
Proof.
  unfold lacks_sources. rewrite !forallb_forall.
  intros H c Hc. rewrite has_column_with_standard.
  rewrite (proj1 (negb_true_iff _) (H c Hc)). simpl.
  simpl in Hc.
  repeat (destruct Hc as [<-|Hc]; [reflexivity|]). destruct Hc.
Qed.

Lemma get_fund_returns_no_source (fund_details : option DataFrame)
      (cnpj_standard : option string) (period_months : option Z) :
  (forall df, fund_details = Some df -> lacks_sources df = true) ->
  fst (get fund_details cnpj_standard period_months) = Returned None.
Proof.
  intro Hlack. unfold get, get_fund_returns.
  destruct fund_details as [df|]; [|reflexivity].
  destruct cnpj_standard as [cnpj|]; [|reflexivity].
  specialize (Hlack df eq_refl).
  destruct (has_column "CNPJ_STANDARD" df) eqn:Hstd; cbn [fst].
  - destruct (lacks_sources_split _ Hlack) as [Hr Hq].
    now apply extract_returns_no_source.
  - destruct (has_column "CNPJ" df) eqn:Hcnpj; [|reflexivity].
    destruct (col_pos_has_column _ _ Hcnpj) as [i Hi].
    unfold column. rewrite Hi. cbn [fst].
    rewrite (assign_standard_column _ Hstd Hi).
    destruct (lacks_sources_split _ (lacks_sources_with_standard _ Hlack))
      as [Hr Hq].
    now apply extract_returns_no_source.
Qed.
End ExtractionFacts.

(** C1, as stated, fails: on a table that has a CNPJ column and no
    CNPJ_STANDARD column, the table the caller passed is not the same
    after the call (it has gained a column). *)
Lemma get_fund_returns_mutates_table :
  snd (get_fund_returns sample_str sample_parse sample_number_date
         sample_minus_months (Some cnpj_only_table)
         (Some "00000000000191"%string) None)
  <> Some cnpj_only_table.
Proof. vm_compute. intro H. inversion H. Qed.

(** C1, amended.  After a call to [get_fund_returns] the caller's table
    is unchanged when the table or the identifier is null, when the table
    already has a CNPJ_STANDARD column, and when it has no CNPJ column;
    when it has a CNPJ column and no CNPJ_STANDARD column, the call has
    appended a CNPJ_STANDARD column holding [standardize_cnpj] of every
    CNPJ cell, and the index, the rows and all earlier columns are as
    they were. *)
Theorem get_fund_returns_caller_table :
  forall (py_str : cell -> string) (parse_datetime : string -> option Z)
         (datetime_of_number : Q -> Z) (minus_months : Z -> Z -> Z)
         (fund_details : option DataFrame) (cnpj_standard : option string)
         (period_months : option Z),
  snd (get_fund_returns py_str parse_datetime datetime_of_number
         minus_months fund_details cnpj_standard period_months) =
  match fund_details, cnpj_standard with
  | Some df, Some _ =>
      if has_column "CNPJ_STANDARD" df then Some df
      else if has_column "CNPJ" df
           then Some (with_standard_column py_str df)
           else Some df
  | _, _ => fund_details
  end.
Proof.
  intros. destruct fund_details as [df|]; [|reflexivity].
  destruct cnpj_standard as [cnpj|]; [|reflexivity].
  apply get_fund_returns_table.
Qed.

(** C8.  On a table that has neither a return column (DAILY_RETURN,
    RENTABILIDADE, RETURN, RET) nor a quota column (VL_QUOTA, QUOTA, NAV),
    [get_fund_returns] returns [None]; it does not raise. *)
Theorem get_fund_returns_missing_columns :
  forall (py_str : cell -> string) (parse_datetime : string -> option Z)
         (datetime_of_number : Q -> Z) (minus_months : Z -> Z -> Z)
         (df : DataFrame) (cnpj_standard : option string)
         (period_months : option Z),
  lacks_sources df = true ->
  fst (get_fund_returns py_str parse_datetime datetime_of_number
         minus_months (Some df) cnpj_standard period_months)
  = Returned None.
Proof.
  intros until period_months. intro Hlack.
  apply get_fund_returns_no_source.
  intros df' E. now injection E as <-.
Qed.

Lemma get_fund_returns_missing_columns_witness :
  lacks_sources no_source_table = true /\
  fst (get_fund_returns sample_str sample_parse sample_number_date
         sample_minus_months (Some no_source_table)
         (Some "00000000000191"%string) (Some 12%Z))
  = Returned None.
Proof.
  split; [reflexivity|].
  apply (get_fund_returns_missing_columns sample_str sample_parse
           sample_number_date sample_minus_months no_source_table
           (Some "00000000000191"%string) (Some 12%Z)).
  reflexivity.
Defined.

(** ** Flow analysis: weekly and monthly windows *)

Lemma values_length (df : DataFrame) (name : string) :
  has_column name df = true ->
  length (values df name) = length (rows df).
Proof.
  intro H. destruct (col_pos_has_column _ _ H) as [i Hi].
  unfold values. rewrite Hi. apply length_map.
Qed.

Lemma is_num_spec (c : cell) : is_num c = true -> c = CNum (num_of c).
Proof. destruct c; simpl; congruence. Qed.

Lemma iloc_back_num (k : nat) (s : list cell) :
  forallb is_num s = true -> 1 <= k <= length s ->
  iloc_back k s = CNum (num_of (iloc_back k s)).
Proof.
  intros Hs Hk. apply is_num_spec.
  rewrite forallb_forall in Hs. apply Hs.
  unfold iloc_back. apply nth_In. lia.
Qed.

Lemma forallb_skipn (A : Type) (p : A -> bool) (n : nat) (l : list A) :
  forallb p l = true -> forallb p (skipn n l) = true.
Proof.
  rewrite !forallb_forall. intros H x Hx. apply H.
  rewrite <- (firstn_skipn n l). apply in_or_app. now right.
Qed.

Lemma mapM_as_float_num (l : list cell) :
  forallb is_num l = true ->
  mapM as_float (filter (fun c => negb (isna c)) l) = Returned l.
Proof.
  induction l as [|c l IH]; simpl; [reflexivity|].
  intro H. apply andb_true_iff in H as [Hc Hl].
  destruct c; try discriminate Hc. simpl. now rewrite (IH Hl).
Qed.

Lemma fold_fadd_num (l : list cell) (a : Q) :
  forallb is_num l = true ->
  fold_left fadd l (CNum a) = CNum (fold_left Qplus (map num_of l) a).
Proof.
  revert a. induction l as [|c l IH]; simpl; intros a H; [reflexivity|].
  apply andb_true_iff in H as [Hc Hl].
  destruct c; try discriminate Hc. simpl. now apply IH.
Qed.

Lemma series_sum_num (k : nat) (s : list cell) :
  forallb is_num s = true ->
  series_sum (tail_n k s) = Returned (sum_last k s).
Proof.
  intro Hs. unfold series_sum, sum_last, Qsum, tail_n.
  assert (Ht : forallb is_num (skipn (length s - k) s) = true)
    by now apply forallb_skipn.
  rewrite (mapM_as_float_num _ Ht). simpl.
  now rewrite (fold_fadd_num _ _ Ht).
Qed.

Lemma Qtrunc_zero (q : Q) : Qzero_b q = true -> Qtrunc q = 0%Z.
Proof.
  unfold Qzero_b, Qtrunc. intro H. apply Qeq_bool_eq in H.
  unfold Qeq in H. simpl in H. rewrite Z.mul_1_r in H. rewrite H.
  reflexivity.
Qed.

Lemma int_or_zero_num (q : Q) : int_or_zero (CNum q) = Returned (Qtrunc q).
Proof.
  unfold int_or_zero. simpl. destruct (Qzero_b q) eqn:E; simpl.
  - now rewrite (Qtrunc_zero _ E).
  - reflexivity.
Qed.

(** [safe_pct] does not raise on a number over a number or over [None]. *)
Lemma safe_pct_num (v : Q) (base : cell) :
  is_num base = true \/ base = CNone ->
  exists c, safe_pct (CNum v) base = Returned c.
Proof.
  intros [H| ->].
  - destruct base; try discriminate H. unfold safe_pct. simpl.
    destruct (negb (Qzero_b q)); simpl; eexists; reflexivity.
  - eexists. reflexivity.
Qed.

Ltac flow_pct :=
  repeat match goal with
  | |- context [safe_pct (CNum ?v) ?b] =>
      let c := fresh "c" in
      let Hc := fresh "Hc" in
      destruct (@safe_pct_num v b) as [c Hc];
      [ first [ left; reflexivity | right; reflexivity ]
      | rewrite Hc; cbn [bind]; clear Hc ]
  end.

Lemma prepare_flow_table_rows (parse_datetime : string -> option Z)
      (datetime_of_number : Q -> Z) (fund_details : option DataFrame)
      (cnpj_standard : option string) (fd : DataFrame) :
  prepare_flow_table parse_datetime datetime_of_number fund_details
                     cnpj_standard = Returned (Some fd) ->
  2 <= length (rows fd).
Proof.
  unfold prepare_flow_table.
  destruct fund_details as [df|]; [|discriminate].
  destruct cnpj_standard as [cnpj|]; [|discriminate].
  destruct (negb (has_column "CNPJ_STANDARD" df)); [discriminate|].
  destruct (length (rows (filter_rows _ df)) =? 0); [discriminate|].
  match goal with
  | |- bind ?c _ = _ -> _ => destruct c as [|fd0]; [discriminate|]
  end.
  cbn [bind].
  match goal with
  | |- (if ?b then _ else _) = _ -> _ =>
      destruct b eqn:E; [discriminate|]
  end.
  intro H. injection H as <-.
  apply Nat.ltb_ge in E. exact E.
Qed.






Lemma number_or_missing_cases (c : cell) :
  number_or_missing c = true -> (exists q, c = CNum q) \/ c = CNaN.
Proof. destruct c; try discriminate; intros _; [now right|left; eauto]. Qed.







(** ** Tail risk: CVaR against VaR *)

Section SortFacts.
Variable A : Type.
Variable le : A -> A -> bool.
Hypothesis le_total : forall x y, le x y = true \/ le y x = true.
Hypothesis le_trans : forall x y z, le x y = true -> le y z = true -> le x z = true.

Let R (x y : A) : Prop := le x y = true.

Lemma insert_sorted_perm (x : A) (l : list A) :
  Permutation (x :: l) (insert_sorted le x l).
Proof.
  induction l as [|y l IH]; simpl; [reflexivity|].
  destruct (le x y); [reflexivity|].
  rewrite perm_swap. now apply perm_skip.
Qed.

Lemma stable_sort_perm (l : list A) : Permutation l (stable_sort le l).
Proof.
  induction l as [|x l IH]; simpl; [reflexivity|].
  etransitivity; [apply perm_skip, IH|apply insert_sorted_perm].
Qed.

Lemma insert_sorted_sorted (x : A) (l : list A) :
  StronglySorted R l -> StronglySorted R (insert_sorted le x l).
Proof.
  induction 1 as [|y l Hs IH Hy]; simpl.
  - constructor; constructor.
  - destruct (le x y) eqn:E.
    + constructor; [now constructor|].
      constructor; [exact E|].
      eapply Forall_impl; [|exact Hy]. intros z Hz. now apply le_trans with y.
    + constructor; [exact IH|].
      assert (Hyx : R y x) by (destruct (le_total x y); congruence).
      eapply Permutation_Forall; [apply insert_sorted_perm|].
      now constructor.
Qed.

Lemma stable_sort_sorted (l : list A) : StronglySorted R (stable_sort le l).
Proof.
  induction l as [|x l IH]; simpl; [constructor|].
  now apply insert_sorted_sorted.
Qed.

Lemma sorted_nth (l : list A) (d : A) (i j : nat) :
  StronglySorted R l -> i < j < length l -> R (nth i l d) (nth j l d).
Proof.
  intro Hs. revert i j. induction Hs as [|x l Hs IH Hx]; simpl; intros i j Hij.
  - lia.
  - destruct j as [|j]; [lia|]. destruct i as [|i].
    + rewrite Forall_forall in Hx. apply Hx. apply nth_In. lia.
    + apply IH. lia.
Qed.
End SortFacts.

Lemma Qle_bool_total (x y : Q) : Qle_bool x y = true \/ Qle_bool y x = true.
Proof.
  rewrite !Qle_bool_iff. destruct (Qlt_le_dec x y) as [H|H]; [left|right].
  - now apply Qlt_le_weak.
  - exact H.
Qed.

Lemma Qle_bool_trans (x y z : Q) :
  Qle_bool x y = true -> Qle_bool y z = true -> Qle_bool x z = true.
Proof. rewrite !Qle_bool_iff. apply Qle_trans. Qed.

Lemma sorted_values_nth_le (a : list Q) (i j : nat) :
  i <= j < length a ->
  (nth i (sorted_values a) 0 <= nth j (sorted_values a) 0)%Q.
Proof.
  intros [Hij Hj]. destruct (Nat.eq_dec i j) as [->|Hne]; [apply Qle_refl|].
  apply Qle_bool_iff.
  apply (@sorted_nth Q Qle_bool).
  - apply stable_sort_sorted; [apply Qle_bool_total|apply Qle_bool_trans].
  - unfold sorted_values.
    rewrite <- (Permutation_length (stable_sort_perm Qle_bool a)). lia.
Qed.

Lemma sorted_values_nth_in (a : list Q) (i : nat) :
  i < length a -> In (nth i (sorted_values a) 0%Q) a.
Proof.
  intro Hi.
  apply (Permutation_in _ (Permutation_sym (stable_sort_perm Qle_bool a))).
  apply nth_In. fold (sorted_values a).
  unfold sorted_values.
  now rewrite <- (Permutation_length (stable_sort_perm Qle_bool a)).
Qed.

(** A sum of numbers that are all at most [v] is at most as many times
    [v]. *)
Lemma fold_Qplus_le (l : list Q) (v acc : Q) :
  Forall (fun r => (r <= v)%Q) l ->
  (fold_left Qplus l acc <= acc + inject_Z (Z.of_nat (length l)) * v)%Q.
Proof.
  intro H. revert acc. induction H as [|r l Hr _ IH]; intro acc.
  - cbn [fold_left length Z.of_nat]. change (inject_Z 0) with 0%Q. Lqa.lra.
  - cbn [fold_left length]. eapply Qle_trans; [apply IH|].
    rewrite Nat2Z.inj_succ, <- Z.add_1_r, inject_Z_plus.
    change (inject_Z 1) with 1%Q. Lqa.lra.
Qed.

Lemma mean_at_most (l : list Q) (v : Q) :
  l <> [] -> Forall (fun r => (r <= v)%Q) l ->
  exists c, mean l = CNum c /\ (c <= v)%Q.
Proof.
  intros Hne Hall. destruct l as [|r l]; [congruence|].
  eexists. split; [reflexivity|].
  set (k := inject_Z (Z.of_nat (length (r :: l)))).
  assert (Hk : (0 < k)%Q).
  { unfold k. change 0%Q with (inject_Z 0). rewrite <- Zlt_Qlt.
    cbn [length]. lia. }
  apply Qle_shift_div_r; [exact Hk|].
  pose proof (fold_Qplus_le 0 Hall) as Hs. fold k in Hs.
  unfold Qsum. Lqa.lra.
Qed.

Lemma distinct_nonempty (l : list Q) : 1 <= length (distinct l) -> l <> [].
Proof. destruct l; simpl; [lia|discriminate]. Qed.

(** The percentile lies at or above an element of the data. *)
Lemma percentile_above_element (a : list Q) (q : Q) :
  a <> [] -> (0 <= q)%Q -> (q <= 100)%Q ->
  exists v x, percentile a q = Returned (CNum v) /\ In x a /\ (x <= v)%Q.
Proof.
  intros Hne H0 H100. unfold percentile.
  rewrite (proj2 (Qle_bool_iff 0 q) H0), (proj2 (Qle_bool_iff q 100) H100).
  cbn [andb]. destruct a as [|r a']; [congruence|].
  set (a := r :: a') in *. cbv zeta.
  set (n := length a).
  assert (Hn : 1 <= n) by (unfold n, a; simpl; lia).
  set (vi := (inject_Z (Z.of_nat (n - 1)) * q / 100)%Q).
  assert (Hvi0 : (0 <= vi)%Q).
  { unfold vi. apply Qle_shift_div_l; [reflexivity|].
    assert (0 <= inject_Z (Z.of_nat (n - 1)))%Q
      by (change 0%Q with (inject_Z 0); rewrite <- Zle_Qle; lia).
    Lqa.nra. }
  assert (Hvi1 : (vi <= inject_Z (Z.of_nat (n - 1)))%Q).
  { unfold vi. apply Qle_shift_div_r; [reflexivity|].
    assert (0 <= inject_Z (Z.of_nat (n - 1)))%Q
      by (change 0%Q with (inject_Z 0); rewrite <- Zle_Qle; lia).
    Lqa.nra. }
  assert (Hf0 : (0 <= Qfloor vi)%Z).
  { change 0%Z with (Qfloor 0). now apply Qfloor_resp_le. }
  assert (Hf1 : (Qfloor vi <= Z.of_nat (n - 1))%Z).
  { rewrite <- (Qfloor_Z (Z.of_nat (n - 1))). now apply Qfloor_resp_le. }
  set (below := Z.to_nat (Qfloor vi)).
  assert (Hb : below <= n - 1) by (unfold below; lia).
  set (above := Nat.min (below + 1) (n - 1)).
  assert (Ha : below <= above < n) by (unfold above; lia).
  set (gamma := (vi - inject_Z (Qfloor vi))%Q).
  assert (Hg : (0 <= gamma)%Q).
  { unfold gamma. pose proof (Qfloor_le vi). Lqa.lra. }
  set (lo := nth below (sorted_values a) 0%Q).
  set (hi := nth above (sorted_values a) 0%Q).
  assert (Hlohi : (lo <= hi)%Q)
    by (apply sorted_values_nth_le; fold n; lia).
  exists (lo + (hi - lo) * gamma)%Q, lo.
  split; [reflexivity|]. split.
  - apply sorted_values_nth_in. fold n. lia.
  - Lqa.nra.
Qed.

Lemma cvar_le_var_nonempty (returns : list Q) (confidence : Q) :
  returns <> [] -> (0 <= confidence)%Q -> (confidence <= 1)%Q ->
  exists v c,
    var returns confidence = Returned (CNum v) /\
    cvar returns confidence = Returned (CNum c) /\
    (c <= v)%Q.
Proof.
  intros Hne H0 H1.
  destruct (@percentile_above_element returns ((1 - confidence) * 100)%Q)
    as (v & x & Hv & Hx & Hxv); [exact Hne|Lqa.lra|Lqa.lra|].
  assert (Hvar : var returns confidence = Returned (CNum v)).
  { unfold var. destruct returns; [congruence|]. exact Hv. }
  destruct (@mean_at_most (at_most (CNum v) returns) v) as (c & Hc & Hcv).
  - intro E. assert (Hin : In x (at_most (CNum v) returns)).
    { apply filter_In. split; [exact Hx|]. now apply Qle_bool_iff. }
    rewrite E in Hin. destruct Hin.
  - apply Forall_forall. intros r Hr. apply filter_In in Hr as [_ Hr].
    now apply Qle_bool_iff.
  - exists v, c. split; [exact Hvar|]. split; [|exact Hcv].
    unfold cvar. destruct returns; [congruence|].
    cbn [length Nat.eqb]. rewrite Hvar. cbn [bind]. now rewrite Hc.
Qed.

(** C4, amended.  In exact arithmetic, for a return series with at least
    20 distinct values (indeed for every non-empty one),
    [cvar(r, 0.95) <= var(r, 0.95)]: both are finite numbers, the VaR
    interpolates at or above a data point, and the CVaR is the mean of
    the returns at or below the VaR.  (Percentile by linear
    interpolation.) *)
Theorem cvar_le_var :
  forall returns : list Q,
  20 <= length (distinct returns) ->
  exists v c,
    var returns (95 # 100) = Returned (CNum v) /\
    cvar returns (95 # 100) = Returned (CNum c) /\
    (c <= v)%Q.
Proof.
  intros returns Hd.
  apply cvar_le_var_nonempty.
  - apply distinct_nonempty. lia.
  - discriminate.
  - discriminate.
Qed.

Lemma cvar_le_var_witness :
  exists v c,
    var twenty_returns (95 # 100) = Returned (CNum v) /\
    cvar twenty_returns (95 # 100) = Returned (CNum c) /\
    (c <= v)%Q.
Proof.
  apply (cvar_le_var twenty_returns). vm_compute. lia.
Defined.

(** C4, as stated, fails on the program.  On twenty-five returns with
    twenty distinct values, six of them at -2.5%, the VaR at 95% is
    -0.025 (both neighbours of the virtual index are -0.025), the tail at
    or below it is those six returns, and their binary64 mean is
    -0.024999999999999998: the CVaR exceeds the VaR in the last digit. *)
Lemma cvar_exceeds_var_binary64 :
  20 <= length (distinct64 slump) /\
  var64 slump 0.95%float = Returned (-0.025)%float /\
  cvar64 slump 0.95%float = Returned (-0.024999999999999998)%float /\
  PrimFloat.ltb (-0.025)%float (-0.024999999999999998)%float = true.
Proof. repeat split; vm_compute; try reflexivity; lia. Qed.

(** ** Frequency resampling: rolling compounded windows *)

Lemma rev_firstn_rev (A : Type) (w : nat) (l : list A) :
  rev (firstn w (rev l)) = skipn (length l - w) l.
Proof. now rewrite firstn_rev, rev_involutive. Qed.

Lemma firstn_skipn_app (A : Type) (w k : nat) (p q : list A) :
  k + w = length p -> firstn w (skipn k (p ++ q)) = skipn k p.
Proof.
  intro H. rewrite skipn_app.
  replace (k - length p) with 0 by lia. cbn [skipn].
  rewrite firstn_app, length_skipn.
  replace (w - (length p - k)) with 0 by lia.
  cbn [firstn]. rewrite app_nil_r.
  apply firstn_all2. rewrite length_skipn. lia.
Qed.

Lemma filter_seq_ge (w len start : nat) :
  w <= start -> filter (fun i => w <=? i) (seq start len) = seq start len.
Proof.
  revert start. induction len as [|len IH]; intros start Hs; [reflexivity|].
  cbn [seq filter]. destruct (Nat.leb_spec w start); [|lia].
  f_equal. apply IH. lia.
Qed.

Lemma filter_seq_from (w len start : nat) :
  start <= w ->
  filter (fun i => w <=? i) (seq start len) = seq w (start + len - w).
Proof.
  revert start. induction len as [|len IH]; intros start Hs.
  - replace (start + 0 - w) with 0 by lia. reflexivity.
  - cbn [seq filter]. destruct (Nat.leb_spec w start) as [Hle|Hlt].
    + assert (start = w) by lia. subst start.
      replace (w + S len - w) with (S len) by lia. cbn [seq]. f_equal.
      apply filter_seq_ge. lia.
    + rewrite IH by lia. f_equal. lia.
Qed.

(** The scan, with [p] the returns already seen: the outputs that
    survive [dropna] are the windows ending at the positions from the
    [w]-th on. *)
Lemma rolling_scan_windows (w : nat) (f : list Q -> Q) (s : ReturnSeries) :
  forall p : list Q,
  dropna_floats (rolling_scan w f (rev p) s) =
  map (fun i => (nth (i - length p) (dates s) 0%Z,
                 f (firstn w (skipn (i + 1 - w) (p ++ returns_of s)))))
      (filter (fun i => w - 1 <=? i) (seq (length p) (length s))).
Proof.
  induction s as [|[d r] s IH]; intro p; [reflexivity|].
  cbn [rolling_scan length seq filter dates returns_of map fst snd].
  assert (Hseen : r :: rev p = rev (p ++ [r])) by now rewrite rev_unit.
  assert (Htail :
    dropna_floats (rolling_scan w f (r :: rev p) s) =
    map (fun i => (nth (i - length p) (d :: map fst s) 0%Z,
                   f (firstn w (skipn (i + 1 - w) (p ++ r :: map snd s)))))
        (filter (fun i => w - 1 <=? i) (seq (S (length p)) (length s)))).
  { rewrite Hseen, IH. rewrite length_app. cbn [length].
    replace (length p + 1) with (S (length p)) by lia.
    apply map_ext_in. intros i Hi. apply filter_In in Hi as [Hi _].
    apply in_seq in Hi.
    replace (i - length p) with (S (i - S (length p))) by lia.
    cbn [nth]. unfold dates, returns_of.
    now rewrite <- app_assoc. }
  destruct (Nat.ltb_spec (S (length (rev p))) w) as [Hlt|Hge];
    rewrite length_rev in *.
  - destruct (Nat.leb_spec (w - 1) (length p)); [lia|].
    cbn [dropna_floats]. exact Htail.
  - destruct (Nat.leb_spec (w - 1) (length p)); [|lia].
    cbn [dropna_floats map]. rewrite Htail. f_equal.
    rewrite Nat.sub_diag. cbn [nth]. f_equal. f_equal.
    rewrite Hseen, rev_firstn_rev, length_app. cbn [length].
    change (p ++ r :: map snd s) with (p ++ [r] ++ map snd s).
    rewrite app_assoc. symmetry.
    apply firstn_skipn_app. rewrite length_app. cbn [length]. lia.
Qed.

Lemma rolling_apply_windows (w : nat) (s : ReturnSeries) :
  dropna_floats (rolling_apply w compound s) = compounded_windows w s.
Proof.
  unfold rolling_apply, compounded_windows.
  change (@nil Q) with (rev (@nil Q)).
  rewrite rolling_scan_windows. cbn [length app].
  rewrite filter_seq_from by lia. cbn [Nat.add].
  apply map_ext. intro i. now rewrite Nat.sub_0_r.
Qed.

Lemma compounded_windows_length (w : nat) (s : ReturnSeries) :
  length (compounded_windows w s) = length s - (w - 1).
Proof. unfold compounded_windows. now rewrite length_map, length_seq. Qed.

Lemma fold_Qmult_growth (l : list Q) (a : Q) :
  (fold_left Qmult (map (Qplus 1) l) a == a * growth_factor l)%Q.
Proof.
  revert a. induction l as [|r l IH]; intro a; cbn [map fold_left growth_factor].
  - ring.
  - rewrite IH. ring.
Qed.

Lemma compound_is_product (window : list Q) :
  (compound window == compounded_return window)%Q.
Proof.
  unfold compound, compounded_return. rewrite fold_Qmult_growth. ring.
Qed.

Lemma compounded_windows_specified (w : nat) (s : ReturnSeries) :
  series_equiv (compounded_windows w s) (specified_windows w s).
Proof.
  unfold compounded_windows, specified_windows.
  generalize (seq (w - 1) (length s - (w - 1))) as positions.
  induction positions as [|i positions IH]; cbn [map]; constructor.
  - cbn [fst snd]. split; [reflexivity|apply compound_is_product].
  - exact IH.
Qed.

Lemma resampled_weekly (sqrtQ : Q -> Q) (s : ReturnSeries) :
  resampled sqrtQ s "weekly" = compounded_windows 5 s.
Proof.
  unfold resampled, get_returns_for_frequency.
  change (String.eqb "weekly" "daily") with false.
  change (String.eqb "weekly" "weekly") with true.
  cbv zeta. cbv iota. rewrite rolling_apply_windows.
  destruct (length (compounded_windows 5 s) =? 0); reflexivity.
Qed.

Lemma resampled_monthly (sqrtQ : Q -> Q) (s : ReturnSeries) :
  resampled sqrtQ s "monthly" = compounded_windows 22 s.
Proof.
  unfold resampled, get_returns_for_frequency.
  change (String.eqb "monthly" "daily") with false.
  change (String.eqb "monthly" "weekly") with false.
  change (String.eqb "monthly" "monthly") with true.
  cbv zeta. cbv iota. rewrite rolling_apply_windows.
  destruct (length (compounded_windows 22 s) =? 0); reflexivity.
Qed.

(** C6.  At weekly frequency the resampler returns one point for every
    input position from the fifth on (the 4 leading points are
    dropped), dated as that position and carrying the compounded return
    prod(1+r)-1 of the 5 daily returns that end there, the product
    written out factor by factor; at monthly frequency the same over 22
    returns; at daily frequency the input itself. *)
Theorem get_returns_for_frequency_windows :
  forall (sqrtQ : Q -> Q) (daily_returns : ReturnSeries),
  series_equiv (resampled sqrtQ daily_returns "weekly")
               (specified_windows 5 daily_returns) /\
  length (resampled sqrtQ daily_returns "weekly") = length daily_returns - 4 /\
  series_equiv (resampled sqrtQ daily_returns "monthly")
               (specified_windows 22 daily_returns) /\
  length (resampled sqrtQ daily_returns "monthly")
    = length daily_returns - 21 /\
  resampled sqrtQ daily_returns "daily" = daily_returns.
Proof.
  intros sqrtQ s.
  rewrite resampled_weekly, resampled_monthly.
  split; [apply compounded_windows_specified|].
  split; [apply compounded_windows_length|].
  split; [apply compounded_windows_specified|].
  split; [apply compounded_windows_length|].
  unfold resampled, get_returns_for_frequency.
  change (String.eqb "daily" "daily") with true. cbv zeta. cbv iota.
  destruct (length s =? 0); reflexivity.
Qed.

(** On six days with returns 10%, 10%, 0, 0, 0 and 50% the weekly series
    has two points: 1.1 * 1.1 - 1 = 21% on day 5 and 1.1 * 1.5 - 1 = 65%
    on day 6. *)
Lemma get_returns_for_frequency_windows_witness :
  series_equiv (resampled sample_sqrt six_returns "weekly")
               [(5%Z, (21 # 100)%Q); (6%Z, (65 # 100)%Q)] /\
  length (resampled sample_sqrt six_returns "weekly") = 2.
Proof.
  destruct (get_returns_for_frequency_windows sample_sqrt six_returns)
    as (Hweekly & Hlength & _).
  split; [|exact Hlength].
  inversion Hweekly as [|a b l l' [Hd Hv] Hrest]; subst.
  inversion Hrest as [|a' b' l2 l2' [Hd' Hv'] Hnil]; subst.
  inversion Hnil; subst.
  constructor; [|constructor; [|constructor]].
  - split; [exact Hd|]. rewrite Hv. reflexivity.
  - split; [exact Hd'|]. rewrite Hv'. reflexivity.
Defined.

(** ** Portfolio aggregation *)

Lemma sorted_lt_same_elements (l1 l2 : list Z) :
  StronglySorted Z.lt l1 -> StronglySorted Z.lt l2 ->
  (forall x, In x l1 <-> In x l2) -> l1 = l2.
Proof.
  intro H1. revert l2.
  induction H1 as [|x l1 Hs1 IH Hx]; intros l2 H2 Hel.
  - destruct l2 as [|y l2]; [reflexivity|].
    destruct (proj2 (Hel y) (or_introl eq_refl)).
  - destruct H2 as [|y l2 Hs2 Hy].
    + destruct (proj1 (Hel x) (or_introl eq_refl)).
    + rewrite Forall_forall in Hx, Hy.
      assert (x = y).
      { destruct (proj1 (Hel x) (or_introl eq_refl)) as [E|Hin];
          [now symmetry|].
        destruct (proj2 (Hel y) (or_introl eq_refl)) as [E|Hin'];
          [exact E|].
        specialize (Hx _ Hin'). specialize (Hy _ Hin). lia. }
      subst y. f_equal. apply IH; [exact Hs2|].
      intro z. split; intro Hz.
      * destruct (proj1 (Hel z) (or_intror Hz)) as [E|Hin]; [|exact Hin].
        specialize (Hx _ Hz). lia.
      * destruct (proj2 (Hel z) (or_intror Hz)) as [E|Hin]; [|exact Hin].
        specialize (Hy _ Hz). lia.
Qed.

Lemma sorted_lt_filter (p : Z -> bool) (l : list Z) :
  StronglySorted Z.lt l -> StronglySorted Z.lt (filter p l).
Proof.
  induction 1 as [|x l Hs IH Hx]; simpl; [constructor|].
  destruct (p x); [|exact IH].
  constructor; [exact IH|].
  rewrite Forall_forall in *. intros y Hy.
  apply filter_In in Hy as [Hy _]. now apply Hx.
Qed.

Lemma sorted_lt_nodup (l : list Z) : StronglySorted Z.lt l -> NoDup l.
Proof.
  induction 1 as [|x l Hs IH Hx]; constructor; [|exact IH].
  intro Hin. rewrite Forall_forall in Hx. specialize (Hx _ Hin). lia.
Qed.

Lemma sorted_le_nodup_lt (l : list Z) :
  StronglySorted (fun x y => (x <=? y)%Z = true) l -> NoDup l ->
  StronglySorted Z.lt l.
Proof.
  induction 1 as [|x l Hs IH Hx]; intro Hnd; [constructor|].
  inversion Hnd as [|? ? Hnin Hnd']; subst.
  constructor; [now apply IH|].
  rewrite Forall_forall in *. intros y Hy.
  specialize (Hx _ Hy). apply Z.leb_le in Hx.
  assert (x <> y) by (intro; subst; contradiction). lia.
Qed.

Lemma sorted_union_spec (l : list Z) :
  let u := stable_sort Z.leb (nodup Z.eq_dec l) in
  StronglySorted Z.lt u /\ (forall x, In x u <-> In x l).
Proof.
  cbv zeta.
  pose proof (stable_sort_perm Z.leb (nodup Z.eq_dec l)) as Hp.
  split.
  - apply sorted_le_nodup_lt.
    + apply stable_sort_sorted.
      * intros x y. rewrite !Z.leb_le. lia.
      * intros x y z. rewrite !Z.leb_le. lia.
    + eapply Permutation_NoDup; [exact Hp|apply NoDup_nodup].
  - intro x. rewrite <- (nodup_In Z.eq_dec l x). split; intro H.
    + eapply Permutation_in; [apply Permutation_sym; exact Hp|exact H].
    + eapply Permutation_in; [exact Hp|exact H].
Qed.

Lemma has_date_spec (d : Z) (s : ReturnSeries) :
  has_date d s = true <-> In d (dates s).
Proof.
  unfold has_date. rewrite existsb_exists. split.
  - intros (x & Hx & E). apply Z.eqb_eq in E. now subst.
  - intro H. exists d. split; [exact H|apply Z.eqb_refl].
Qed.

Lemma find_date_has_date (d : Z) (s : ReturnSeries) :
  match find_date d s with Some _ => true | None => false end = has_date d s.
Proof.
  unfold find_date, has_date, dates.
  induction s as [|[d' q] s IH]; simpl; [reflexivity|].
  rewrite (Z.eqb_sym d d'). destruct (d' =? d)%Z; simpl; [reflexivity|].
  exact IH.
Qed.

Lemma find_date_in (d : Z) (q : Q) (s : ReturnSeries) :
  NoDup (dates s) -> In (d, q) s -> find_date d s = Some q.
Proof.
  unfold find_date, dates.
  induction s as [|[d' q'] s IH]; simpl; intros Hnd Hin; [destruct Hin|].
  inversion Hnd as [|? ? Hnin Hnd']; subst.
  destruct Hin as [E|Hin].
  - injection E as -> ->. now rewrite Z.eqb_refl.
  - destruct (Z.eqb_spec d' d) as [->|_].
    + exfalso. apply Hnin. apply in_map_iff. now exists (d, q).
    + now apply IH.
Qed.

Lemma dates_eqb_eq (a b : list Z) : dates_eqb a b = true -> a = b.
Proof.
  unfold dates_eqb. revert b.
  induction a as [|x a IH]; intros [|y b]; simpl; try discriminate;
    [reflexivity|].
  intro H. apply andb_true_iff in H as [Hl H].
  apply andb_true_iff in H as [Hxy H]. apply Z.eqb_eq in Hxy. subst y.
  f_equal. apply IH. now rewrite Hl, H.
Qed.

(** The cell of a fund at a date, as a number. *)
Lemma num_of_found (d : Z) (s : ReturnSeries) :
  num_of (match find_date d s with Some q => CNum q | None => CNaN end)
  = value_at d s.
Proof. unfold value_at. now destruct (find_date d s). Qed.

Lemma isna_found (d : Z) (s : ReturnSeries) :
  negb (isna (match find_date d s with Some q => CNum q | None => CNaN end))
  = has_date d s.
Proof. rewrite <- find_date_has_date. now destruct (find_date d s). Qed.

Lemma filter_map_comm (A B : Type) (f : A -> B) (p : B -> bool) (l : list A) :
  filter p (map f l) = map f (filter (fun a => p (f a)) l).
Proof.
  induction l as [|a l IH]; simpl; [reflexivity|].
  destruct (p (f a)); simpl; now rewrite IH.
Qed.

Lemma filter_all (A : Type) (p : A -> bool) (l : list A) :
  (forall a, In a l -> p a = true) -> filter p l = l.
Proof.
  induction l as [|a l IH]; simpl; intro H; [reflexivity|].
  rewrite (H a (or_introl eq_refl)). f_equal. apply IH.
  intros b Hb. apply H. now right.
Qed.

Lemma combine_map_self' (A B : Type) (f : A -> B) (l : list A) :
  combine (map f l) l = map (fun a => (f a, a)) l.
Proof. induction l as [|a l IH]; simpl; congruence. Qed.

(** One pass of the accumulation loop over the joined rows. *)
Lemma add_weighted_step (f : ReturnsFrame) (h : Z * list cell -> Q)
      (fund_name : string) (weight : Q) (i : nat) :
  col_pos fund_name (funds f) = Some i ->
  add_weighted f (map (fun l => (fst l, h l)) (lines f)) fund_name weight =
  map (fun l => (fst l, (h l + num_of (nth i (snd l) CNaN) * weight)%Q))
      (lines f).
Proof.
  intro Hi. unfold add_weighted. rewrite Hi.
  rewrite combine_map_self', map_map. reflexivity.
Qed.

Lemma String_eqb_neq (a b : string) : a <> b -> String.eqb b a = false.
Proof. intro H. apply String.eqb_neq. congruence. Qed.

(** The joined rows of one fund are its own dates. *)
Lemma single_fund_lines (A : string) (sA : ReturnSeries) :
  lines (dropna_lines (frame_of_dict [(A, sA)])) =
  map (fun dt => (dt, [match find_date dt sA with
                       | Some q => CNum q
                       | None => CNaN
                       end]))
      (dates sA).
Proof.
  unfold dropna_lines, frame_of_dict. cbn [lines map snd union_index forallb].
  rewrite filter_map_comm. f_equal. apply filter_all.
  intros dt Hdt. cbn [snd forallb]. rewrite isna_found.
  rewrite (proj2 (has_date_spec dt sA) Hdt). reflexivity.
Qed.

(** The joined rows of two funds are the dates of the first that the
    second has too. *)
Lemma pair_lines (A B : string) (sA sB : ReturnSeries) :
  date_ordered sA -> date_ordered sB ->
  lines (dropna_lines (frame_of_dict [(A, sA); (B, sB)])) =
  map (fun dt => (dt, [match find_date dt sA with
                       | Some q => CNum q
                       | None => CNaN
                       end;
                       match find_date dt sB with
                       | Some q => CNum q
                       | None => CNaN
                       end]))
      (filter (fun d => has_date d sB) (dates sA)).
Proof.
  intros HA HB.
  unfold dropna_lines, frame_of_dict. cbn [lines map snd].
  rewrite filter_map_comm. f_equal. cbn [snd forallb].
  set (keep := fun dt : Z => _).
  assert (Hkeep : forall dt, keep dt = has_date dt sA && has_date dt sB).
  { intro dt. unfold keep. rewrite !isna_found. now rewrite andb_true_r. }
  apply sorted_lt_same_elements.
  - apply sorted_lt_filter. unfold union_index. cbn [forallb].
    destruct (dates_eqb (dates sB) (dates sA)); cbn [andb].
    + exact HA.
    + apply sorted_union_spec.
  - now apply sorted_lt_filter.
  - intro x. rewrite !filter_In, Hkeep, andb_true_iff, !has_date_spec.
    unfold union_index. cbn [forallb].
    destruct (dates_eqb (dates sB) (dates sA)) eqn:E; cbn [andb].
    + tauto.
    + rewrite (proj2 (sorted_union_spec _)). cbn [map concat].
      rewrite app_nil_r, in_app_iff. tauto.
Qed.

Lemma own_values_equiv (s l : ReturnSeries) :
  NoDup (dates s) -> incl l s ->
  series_equiv
    (map (fun x => (fst x,
                    (0 + num_of match find_date (fst x) s with
                                | Some q => CNum q
                                | None => CNaN
                                end * 1)%Q)) l)
    l.
Proof.
  intros Hnd. induction l as [|x l IH]; intro Hin; [constructor|].
  cbn [map]. constructor.
  - cbn [fst snd]. split; [reflexivity|].
    rewrite num_of_found. unfold value_at.
    rewrite (@find_date_in (fst x) (snd x) s Hnd)
      by (destruct x; apply Hin; now left).
    Lqa.lra.
  - apply IH. intros y Hy. apply Hin. now right.
Qed.

Lemma single_fund_result (A : string) (sA : ReturnSeries) :
  date_ordered sA ->
  result_equiv (calculate_portfolio_returns [(A, sA)] [(A, 1%Q)]) sA.
Proof.
  intro HA. unfold calculate_portfolio_returns.
  change (normalize_weights [(A, 1%Q)]) with (Some [(A, 1%Q)]).
  cbv zeta. set (f := dropna_lines (frame_of_dict [(A, sA)])).
  assert (HL : lines f = _) by apply single_fund_lines.
  cbn [fold_left fst snd].
  rewrite (@add_weighted_step f (fun _ => 0%Q) A 1%Q 0)
    by (unfold f; cbn [funds dropna_lines frame_of_dict map fst col_pos];
        now rewrite String.eqb_refl).
  rewrite HL, length_map, map_map. cbn [fst snd nth].
  unfold dates at 1. rewrite length_map.
  destruct sA as [|p sA]; [exact I|].
  cbn [length Nat.eqb result_equiv].
  unfold dates. rewrite map_map.
  apply own_values_equiv; [|apply incl_refl].
  apply sorted_lt_nodup. exact HA.
Qed.

Lemma blend_equiv (sA sB : ReturnSeries) (l : list Z) :
  series_equiv
    (map (fun x =>
            (x, (0 + num_of match find_date x sA with
                            | Some q => CNum q
                            | None => CNaN
                            end * (1 # 2)
                   + num_of match find_date x sB with
                            | Some q => CNum q
                            | None => CNaN
                            end * (1 # 2))%Q)) l)
    (map (fun d => (d, ((1 # 2) * value_at d sA
                        + (1 # 2) * value_at d sB)%Q)) l).
Proof.
  induction l as [|x l IH]; [constructor|].
  cbn [map]. constructor; [|exact IH].
  cbn [fst snd]. split; [reflexivity|].
  rewrite !num_of_found. Lqa.lra.
Qed.

Lemma pair_result (A B : string) (sA sB : ReturnSeries) :
  A <> B -> date_ordered sA -> date_ordered sB ->
  result_equiv
    (calculate_portfolio_returns [(A, sA); (B, sB)] [(A, 1%Q); (B, 1%Q)])
    (half_and_half sA sB).
Proof.
  intros HAB HA HB. unfold calculate_portfolio_returns.
  change (normalize_weights [(A, 1%Q); (B, 1%Q)])
    with (Some [(A, (1 # 2)%Q); (B, (1 # 2)%Q)]).
  cbv zeta. set (f := dropna_lines (frame_of_dict [(A, sA); (B, sB)])).
  assert (HL : lines f = _) by (apply (pair_lines A B); assumption).
  cbn [fold_left fst snd].
  rewrite (@add_weighted_step f (fun _ => 0%Q) A (1 # 2)%Q 0)
    by (unfold f; cbn [funds dropna_lines frame_of_dict map fst col_pos];
        now rewrite String.eqb_refl).
  rewrite (@add_weighted_step f _ B (1 # 2)%Q 1)
    by (unfold f; cbn [funds dropna_lines frame_of_dict map fst col_pos];
        now rewrite (String_eqb_neq HAB), String.eqb_refl).
  rewrite HL, length_map, map_map. cbn [fst snd nth].
  unfold half_and_half.
  destruct (filter (fun d => has_date d sB) (dates sA)) as [|d common];
    [exact I|].
  apply (blend_equiv sA sB (d :: common)).
Qed.

(** C7.  With a single fund at weight 1.0 the aggregate is that fund's
    own series; with two funds at weights 1 and 1 the weights are
    normalised to 0.5 and 0.5 and the aggregate is
    0.5*seriesA + 0.5*seriesB on the dates both funds have (no result
    when there is no such date).  Series are date-ordered without
    duplicate dates; numbers are compared as rationals. *)
Theorem aggregate_single_and_pair :
  forall (A B : string) (sA sB : ReturnSeries),
  A <> B -> date_ordered sA -> date_ordered sB ->
  result_equiv (calculate_portfolio_returns [(A, sA)] [(A, 1%Q)]) sA /\
  (exists w, normalize_weights [(A, 1%Q); (B, 1%Q)] = Some w /\
             weights_equiv w [(A, (1 # 2)%Q); (B, (1 # 2)%Q)]) /\
  result_equiv
    (calculate_portfolio_returns [(A, sA); (B, sB)] [(A, 1%Q); (B, 1%Q)])
    (half_and_half sA sB).
Proof.
  intros A B sA sB HAB HA HB.
  split; [now apply single_fund_result|].
  split; [|now apply pair_result].
  eexists. split; [reflexivity|].
  repeat constructor; reflexivity.
Qed.

Lemma aggregate_single_and_pair_witness :
  result_equiv
    (calculate_portfolio_returns [("A"%string, series_a)] [("A"%string, 1%Q)])
    series_a /\
  (exists w,
     normalize_weights [("A"%string, 1%Q); ("B"%string, 1%Q)] = Some w /\
     weights_equiv w [("A"%string, (1 # 2)%Q); ("B"%string, (1 # 2)%Q)]) /\
  result_equiv
    (calculate_portfolio_returns
       [("A"%string, series_a); ("B"%string, series_b)]
       [("A"%string, 1%Q); ("B"%string, 1%Q)])
    (half_and_half series_a series_b).
Proof.
  apply (@aggregate_single_and_pair "A"%string "B"%string series_a series_b).
  - discriminate.
  - unfold date_ordered. cbn. repeat constructor; lia.
  - unfold date_ordered. cbn. repeat constructor; lia.
Defined.

(** ** Allocation: thresholding, renormalisation and failures *)

Lemma fold_Qplus_acc (l : list Q) (a : Q) :
  (fold_left Qplus l a == a + Qsum l)%Q.
Proof.
  unfold Qsum. revert a. induction l as [|x l IH]; intro a; cbn [fold_left].
  - Lqa.lra.
  - rewrite (IH (a + x)%Q), (IH (0 + x)%Q). Lqa.lra.
Qed.

Lemma Qsum_cons (x : Q) (l : list Q) : (Qsum (x :: l) == x + Qsum l)%Q.
Proof.
  unfold Qsum at 1. cbn [fold_left]. rewrite fold_Qplus_acc. Lqa.lra.
Qed.

Lemma zero_below_small (x : list Q) :
  forallb (fun w => negb (Qle_bool (1 # 100) w)) x = true ->
  zero_below (1 # 100) x = map (fun _ => 0%Q) x.
Proof.
  intro H. unfold zero_below. apply map_ext_in. intros w Hw.
  rewrite forallb_forall in H. specialize (H w Hw).
  apply negb_true_iff in H. now rewrite H.
Qed.

Lemma Qsum_zeros (A : Type) (x : list A) :
  (Qsum (map (fun _ => 0%Q) x) == 0)%Q.
Proof.
  induction x as [|a x IH]; [reflexivity|].
  cbn [map]. rewrite Qsum_cons, IH. Lqa.lra.
Qed.

(** When the solver's weights are all below 1%, every weight is zeroed,
    the renormalisation divides zero by zero, and no weight is
    reported. *)
Lemma report_solution_all_small (sqrtQ : Q -> Q) (names : list string)
      (mean_returns : list Q) (cov_matrix : list (list Q))
      (result : OptimizeResult) :
  forallb (fun w => negb (Qle_bool (1 # 100) w)) (res_x result) = true ->
  weights (report_solution sqrtQ names mean_returns cov_matrix result) = [].
Proof.
  intro Hsmall. unfold report_solution. cbv zeta. cbn [weights].
  rewrite (zero_below_small _ Hsmall).
  set (total := Qsum _).
  assert (Ht : Qzero_b total = true).
  { unfold Qzero_b. apply Qeq_bool_iff. apply Qsum_zeros. }
  rewrite map_map. cbn [fdiv]. rewrite Ht.
  change (Qzero_b 0) with true. cbv iota.
  generalize (res_x result) as x. clear. revert names.
  induction names as [|n names IH]; intros [|w x]; try reflexivity.
  cbn [map combine flat_map snd is_positive app]. apply IH.
Qed.

Lemma zero_below_nonneg (x : list Q) :
  Forall (fun z => (0 <= z)%Q) (zero_below (1 # 100) x).
Proof.
  apply Forall_forall. intros z Hz. unfold zero_below in Hz.
  apply in_map_iff in Hz as (v & <- & _).
  destruct (Qle_bool (1 # 100) v) eqn:E; [|Lqa.lra].
  apply Qle_bool_iff in E. Lqa.lra.
Qed.

Lemma Qsum_nonneg (l : list Q) :
  Forall (fun z => (0 <= z)%Q) l -> (0 <= Qsum l)%Q.
Proof.
  induction 1 as [|z l Hz _ IH]; [apply Qle_refl|].
  rewrite Qsum_cons. Lqa.lra.
Qed.

Lemma zero_below_total (x : list Q) :
  existsb (Qle_bool (1 # 100)) x = true ->
  (1 # 100 <= Qsum (zero_below (1 # 100) x))%Q.
Proof.
  induction x as [|v x IH]; [discriminate|].
  cbn [existsb zero_below map]. fold (zero_below (1 # 100) x).
  rewrite Qsum_cons.
  pose proof (Qsum_nonneg (zero_below_nonneg x)) as Hrest.
  destruct (Qle_bool (1 # 100) v) eqn:E; cbn [orb].
  - intros _. apply Qle_bool_iff in E. Lqa.lra.
  - intro H. specialize (IH H). Lqa.lra.
Qed.

(** The reported weights add up to the kept weights over their total. *)
Lemma reported_weights_sum (inv : Q) (names : list string) (zs : list Q) :
  (0 < inv)%Q -> length names = length zs ->
  Forall (fun z => (0 <= z)%Q) zs ->
  (Qsum (map snd
           (flat_map (fun nw => if is_positive (snd nw)
                                then [(fst nw, num_of (snd nw))] else [])
                     (combine names (map (fun v => CNum (v * inv)) zs))))
   == Qsum zs * inv)%Q.
Proof.
  intros Hinv. revert zs.
  induction names as [|n names IH]; intros [|z zs] Hlen Hpos;
    try discriminate Hlen.
  - cbn. Lqa.lra.
  - inversion Hpos as [|? ? Hz Hzs]; subst.
    cbn [map combine flat_map fst snd is_positive num_of].
    specialize (IH zs (f_equal pred Hlen) Hzs).
    rewrite (Qsum_cons z zs).
    destruct (Qle_bool (z * inv) 0) eqn:E; cbn [negb app map snd].
    + apply Qle_bool_iff in E. rewrite IH.
      assert (0 <= z * inv)%Q by (apply Qmult_le_0_compat; Lqa.lra).
      Lqa.lra.
    + rewrite Qsum_cons, IH. Lqa.lra.
Qed.

(** When some solver weight is at least 1%, the weights below 1% are
    dropped and the reported ones add up to 1. *)
Lemma report_solution_renormalized (sqrtQ : Q -> Q) (names : list string)
      (mean_returns : list Q) (cov_matrix : list (list Q))
      (result : OptimizeResult) :
  length names = length (res_x result) ->
  existsb (Qle_bool (1 # 100)) (res_x result) = true ->
  (reported_total
     (report_solution sqrtQ names mean_returns cov_matrix result) == 1)%Q.
Proof.
  intros Hlen Hsome. unfold reported_total, report_solution. cbv zeta.
  cbn [weights].
  pose proof (zero_below_total _ Hsome) as Htot.
  set (zeroed := zero_below (1 # 100) (res_x result)) in *.
  set (total := Qsum zeroed) in *.
  assert (Hz : Qzero_b total = false).
  { unfold Qzero_b. destruct (Qeq_bool total 0) eqn:E; [|reflexivity].
    apply Qeq_bool_iff in E. Lqa.lra. }
  assert (Hmap : map (fun v => fdiv (CNum v) (CNum total)) zeroed
                 = map (fun v => CNum (v * / total)) zeroed).
  { apply map_ext. intro v. cbn [fdiv]. now rewrite Hz. }
  rewrite Hmap, reported_weights_sum.
  - fold total. field. Lqa.lra.
  - apply Qinv_lt_0_compat. Lqa.lra.
  - unfold zeroed, zero_below. now rewrite length_map.
  - apply zero_below_nonneg.
Qed.

Section AllocationFacts.
Variable sqrtQ : Q -> Q.
Variable minimize :
  (list Q -> Q) -> list Q -> list (Q * Q) -> (list Q -> Q) -> nat ->
  OptimizeResult.
Variable get_fund_returns_by_name : string -> option ReturnSeries.

Let endpoint := optimize_portfolio sqrtQ minimize get_fund_returns_by_name true.
Let joined (request : OptimizationRequest) : ReturnsFrame :=
  dropna_lines
    (frame_of_dict (collect_returns get_fund_returns_by_name
                                    (fund_names request))).

(** The two precondition failures are HTTP 400. *)
Lemma optimize_portfolio_insufficient (request : OptimizationRequest) :
  length (collect_returns get_fund_returns_by_name (fund_names request)) < 2
  \/ length (lines (joined request)) < 252 ->
  exists detail, endpoint request = HTTPException 400 detail.
Proof.
  unfold endpoint, optimize_portfolio, joined in *. cbn [negb]. cbv zeta.
  intros [H|H].
  - rewrite (proj2 (Nat.ltb_lt _ _) H). eexists; reflexivity.
  - destruct (_ <? 2); [eexists; reflexivity|].
    rewrite (proj2 (Nat.ltb_lt _ _) H). eexists; reflexivity.
Qed.

(** Past the preconditions, the endpoint is decided by the solver. *)
Lemma optimize_portfolio_solved (request : OptimizationRequest) :
  2 <= length (collect_returns get_fund_returns_by_name (fund_names request)) ->
  252 <= length (lines (joined request)) ->
  endpoint request =
  let result := solve sqrtQ minimize request (joined request) in
  if res_success result
  then Response (report_solution sqrtQ (funds (joined request))
                   (mean_returns_of (joined request))
                   (cov_matrix_of (joined request)) result)
  else HTTPException 500 "Optimization failed to converge".
Proof.
  intros H2 H252.
  unfold endpoint, optimize_portfolio, joined in *. cbn [negb]. cbv zeta.
  rewrite (proj2 (Nat.ltb_ge _ _) H2), (proj2 (Nat.ltb_ge _ _) H252).
  now destruct (res_success _).
Qed.
End AllocationFacts.

(** The rest of what the optimizer promises holds on the code: when the
    solver succeeds with at least one weight of 1% or more, the
    reported weights sum to 1 and the status and iteration count are
    reported; when it does not converge the answer is an HTTP 500
    without any weight, unlike the HTTP 400 of the preconditions. *)
Lemma optimize_portfolio_outcomes
      (sqrtQ : Q -> Q)
      (minimize : (list Q -> Q) -> list Q -> list (Q * Q) ->
                  (list Q -> Q) -> nat -> OptimizeResult)
      (get_fund_returns_by_name : string -> option ReturnSeries)
      (request : OptimizationRequest) :
  let returns_df :=
    dropna_lines
      (frame_of_dict (collect_returns get_fund_returns_by_name
                                      (fund_names request))) in
  let result := solve sqrtQ minimize request returns_df in
  2 <= length (collect_returns get_fund_returns_by_name (fund_names request)) ->
  252 <= length (lines returns_df) ->
  (res_success result = false ->
   optimize_portfolio sqrtQ minimize get_fund_returns_by_name true request
   = HTTPException 500 "Optimization failed to converge") /\
  (res_success result = true ->
   length (res_x result) = length (funds returns_df) ->
   existsb (Qle_bool (1 # 100)) (res_x result) = true ->
   exists r,
     optimize_portfolio sqrtQ minimize get_fund_returns_by_name true request
       = Response r /\
     (reported_total r == 1)%Q /\
     status r = "success"%string /\
     iterations r = Some (res_nit result)).
Proof.
  intros returns_df result H2 H252.
  rewrite optimize_portfolio_solved by assumption.
  cbv zeta. fold returns_df. fold result. split.
  - intros ->. reflexivity.
  - intros -> Hlen Hsome. eexists. split; [reflexivity|].
    split; [|split; reflexivity].
    apply report_solution_renormalized; [now symmetry|exact Hsome].
Qed.

(** C2 fails on the code when the solver succeeds with every weight
    below 1% (possible from 101 funds on, or under a [max_weight] below
    1%): all weights are zeroed, the renormalisation divides by a zero
    sum, and the endpoint answers "success" with no weight at all, so
    the reported weights do not sum to 1. *)
Theorem optimize_portfolio_small_weights :
  forall (sqrtQ : Q -> Q)
         (minimize : (list Q -> Q) -> list Q -> list (Q * Q) ->
                     (list Q -> Q) -> nat -> OptimizeResult)
         (get_fund_returns_by_name : string -> option ReturnSeries)
         (request : OptimizationRequest),
  let returns_df :=
    dropna_lines
      (frame_of_dict (collect_returns get_fund_returns_by_name
                                      (fund_names request))) in
  let result := solve sqrtQ minimize request returns_df in
  2 <= length (collect_returns get_fund_returns_by_name (fund_names request)) ->
  252 <= length (lines returns_df) ->
  res_success result = true ->
  forallb (fun w => negb (Qle_bool (1 # 100) w)) (res_x result) = true ->
  exists r,
    optimize_portfolio sqrtQ minimize get_fund_returns_by_name true request
      = Response r /\
    status r = "success"%string /\
    weights r = [] /\
    ~ (reported_total r == 1)%Q.
Proof.
  intros sqrtQ minimize by_name request returns_df result H2 H252 Hok Hsmall.
  rewrite optimize_portfolio_solved by assumption.
  cbv zeta. fold returns_df. fold result. rewrite Hok.
  eexists. split; [reflexivity|]. split; [reflexivity|].
  assert (Hw : weights (report_solution sqrtQ (funds returns_df)
                          (mean_returns_of returns_df)
                          (cov_matrix_of returns_df) result) = [])
    by now apply report_solution_all_small.
  split; [exact Hw|].
  unfold reported_total. rewrite Hw. cbn. discriminate.
Qed.

Lemma optimize_portfolio_small_weights_witness :
  exists r,
    optimize_portfolio sample_sqrt stops_at_start share_class_returns true
                       share_class_request = Response r /\
    status r = "success"%string /\
    weights r = [] /\
    ~ (reported_total r == 1)%Q.
Proof.
  apply (optimize_portfolio_small_weights sample_sqrt stops_at_start
           share_class_returns share_class_request).
  - vm_compute. lia.
  - vm_compute. lia.
  - reflexivity.
  - lazy. reflexivity.
Defined.

(** ** Sortino ratio *)

Lemma sqrt_of_square (x y : R) : (0 <= y)%R -> (x = y * y)%R -> sqrt x = y.
Proof. intros Hy ->. now apply sqrt_square. Qed.

Ltac decide_reals :=
  repeat match goal with
  | |- context [Rlt_dec ?a ?b] =>
      destruct (Rlt_dec a b); [try (exfalso; lra)|try (exfalso; lra)]
  | |- context [Rle_dec ?a ?b] =>
      destruct (Rle_dec a b); [try (exfalso; lra)|try (exfalso; lra)]
  end.

Lemma annualized_one_bad_quarter :
  annualized_return one_bad_quarter 4 = XNum (-1 / 2)%R.
Proof.
  unfold annualized_return, one_bad_quarter, growth.
  cbn [length Nat.eqb map fold_left Z.of_nat Pos.of_succ_nat Pos.succ].
  destruct (Rle_dec (4 / 4) 0) as [H|_]; [exfalso; lra|].
  unfold float_pow.
  destruct (Rlt_dec 0 _) as [Hpos|Hn]; [|exfalso; apply Hn; lra].
  cbn [xminus]. f_equal.
  replace (1 / (4 / 4))%R with 1%R by lra.
  rewrite Rpower_1 by exact Hpos. lra.
Qed.

Lemma annualized_four_bad_quarters :
  annualized_return four_bad_quarters 4 = XNum (-15 / 16)%R.
Proof.
  unfold annualized_return, four_bad_quarters, growth.
  cbn [length Nat.eqb map fold_left Z.of_nat Pos.of_succ_nat Pos.succ].
  destruct (Rle_dec (4 / 4) 0) as [H|_]; [exfalso; lra|].
  unfold float_pow.
  destruct (Rlt_dec 0 _) as [Hpos|Hn]; [|exfalso; apply Hn; lra].
  cbn [xminus]. f_equal.
  replace (1 / (4 / 4))%R with 1%R by lra.
  rewrite Rpower_1 by exact Hpos. lra.
Qed.

Lemma below_one_bad_quarter : below 0 one_bad_quarter = [(-1 / 2)%R].
Proof.
  unfold below, one_bad_quarter. cbn [filter]. decide_reals. reflexivity.
Qed.

Lemma below_four_bad_quarters :
  below (1 / 2) four_bad_quarters = four_bad_quarters.
Proof.
  unfold below, four_bad_quarters. cbn [filter]. decide_reals. reflexivity.
Qed.

Lemma sqrt_4 : sqrt 4 = 2%R.
Proof. apply sqrt_of_square; lra. Qed.

Lemma sortino_one_bad_quarter :
  sortino_ratio one_bad_quarter 0 4 = XNum (-1 / 2)%R.
Proof.
  unfold sortino_ratio. cbv zeta.
  rewrite below_one_bad_quarter, annualized_one_bad_quarter.
  cbn [length Nat.ltb Nat.leb Nat.eqb one_bad_quarter].
  assert (Hd : downside_deviation [(-1 / 2)%R] 4 = 1%R).
  { unfold downside_deviation, Rmean, Rsum.
    cbn [map fold_left length Z.of_nat Pos.of_succ_nat].
    rewrite sqrt_4, (@sqrt_of_square _ (1 / 2)%R); lra. }
  rewrite Hd. destruct (Req_dec_T 1 0) as [H|_]; [exfalso; lra|].
  cbn [xminus xdiv]. f_equal. lra.
Qed.

Lemma sortino_spec_one_bad_quarter :
  sortino_spec one_bad_quarter 0 4 = XNum (-1)%R.
Proof.
  unfold sortino_spec. cbv zeta.
  rewrite below_one_bad_quarter, annualized_one_bad_quarter.
  cbn [length Nat.eqb].
  assert (Hd : shortfall_deviation one_bad_quarter 0 4 = (1 / 2)%R).
  { unfold shortfall_deviation, Rmean, Rsum, one_bad_quarter, Rmin.
    cbn [map fold_left length Z.of_nat Pos.of_succ_nat Pos.succ].
    decide_reals.
    rewrite sqrt_4, (@sqrt_of_square _ (1 / 4)%R); lra. }
  rewrite Hd. cbn [xminus xdiv]. f_equal. lra.
Qed.

Lemma sortino_four_bad_quarters :
  sortino_ratio four_bad_quarters (1 / 2) 4 = XNum (-23 / 16)%R.
Proof.
  unfold sortino_ratio. cbv zeta.
  rewrite below_four_bad_quarters, annualized_four_bad_quarters.
  cbn [length Nat.ltb Nat.leb Nat.eqb four_bad_quarters].
  assert (Hd : downside_deviation four_bad_quarters 4 = 1%R).
  { unfold downside_deviation, Rmean, Rsum, four_bad_quarters.
    cbn [map fold_left length Z.of_nat Pos.of_succ_nat Pos.succ].
    rewrite sqrt_4, (@sqrt_of_square _ (1 / 2)%R); lra. }
  fold four_bad_quarters. rewrite Hd.
  destruct (Req_dec_T 1 0) as [H|_]; [exfalso; lra|].
  cbn [xminus xdiv]. f_equal. lra.
Qed.

Lemma sortino_spec_four_bad_quarters :
  sortino_spec four_bad_quarters (1 / 2) 4 = XNum (-23 / 32)%R.
Proof.
  unfold sortino_spec. cbv zeta.
  rewrite below_four_bad_quarters, annualized_four_bad_quarters.
  cbn [length Nat.eqb four_bad_quarters].
  assert (Hd : shortfall_deviation four_bad_quarters (1 / 2) 4 = 2%R).
  { unfold shortfall_deviation, Rmean, Rsum, four_bad_quarters, Rmin.
    cbn [map fold_left length Z.of_nat Pos.of_succ_nat Pos.succ].
    decide_reals.
    rewrite sqrt_4, (@sqrt_of_square _ 1%R); lra. }
  fold four_bad_quarters. rewrite Hd. cbn [xminus xdiv]. f_equal. lra.
Qed.

(** C3 fails on the code, twice over.  With three flat quarters and one
    at -50% (target 0, four periods a year) the code gives -1/2 where
    the stated formula gives -1: the code averages over the returns
    below the target only, not over all observations.  With four
    quarters at -50% against a target of +50% the code gives -23/16
    where the stated formula gives -23/32: the code squares the returns
    themselves, not their shortfall to the target. *)
Lemma sortino_not_shortfall_deviation :
  sortino_ratio one_bad_quarter 0 4 <> sortino_spec one_bad_quarter 0 4 /\
  sortino_ratio four_bad_quarters (1 / 2) 4
    <> sortino_spec four_bad_quarters (1 / 2) 4.
Proof.
  rewrite sortino_one_bad_quarter, sortino_spec_one_bad_quarter,
          sortino_four_bad_quarters, sortino_spec_four_bad_quarters.
  split; intro H; injection H as H; lra.
Qed.

Lemma fold_Rplus_acc (l : list R) (a : R) :
  fold_left Rplus l a = (a + Rsum l)%R.
Proof.
  unfold Rsum. revert a. induction l as [|x l IH]; intro a; cbn [fold_left].
  - lra.
  - rewrite (IH (a + x)%R), (IH (0 + x)%R). lra.
Qed.

Lemma Rsum_cons (x : R) (l : list R) : Rsum (x :: l) = (x + Rsum l)%R.
Proof. unfold Rsum at 1. cbn [fold_left]. rewrite fold_Rplus_acc. lra. Qed.

Lemma Rsum_nonneg (l : list R) :
  Forall (fun x => (0 <= x)%R) l -> (0 <= Rsum l)%R.
Proof.
  induction 1 as [|x l Hx _ IH]; [unfold Rsum; cbn; lra|].
  rewrite Rsum_cons. lra.
Qed.

(** The sum of the squares of the returns below the target, and their
    number, as sums over all the observations. *)
Lemma below_squares (target : R) (returns : list R) :
  Rsum (map (fun r => r * r)%R (below target returns))
  = Rsum (map (fun r => if Rlt_dec r target then r * r else 0)%R returns).
Proof.
  induction returns as [|x l IH]; [reflexivity|].
  unfold below in *. cbn [filter map].
  destruct (Rlt_dec x target); cbn [map]; rewrite !Rsum_cons, IH; lra.
Qed.

Lemma below_count (target : R) (returns : list R) :
  IZR (Z.of_nat (length (below target returns)))
  = Rsum (map (fun r => if Rlt_dec r target then 1 else 0)%R returns).
Proof.
  induction returns as [|x l IH]; [unfold Rsum; reflexivity|].
  unfold below in *. cbn [filter map].
  destruct (Rlt_dec x target); cbn [map length]; rewrite Rsum_cons, <- IH.
  - rewrite Nat2Z.inj_succ, succ_IZR. lra.
  - lra.
Qed.

Lemma below_nonempty (target : R) (returns : list R) :
  Exists (fun r => (r < target)%R) returns -> below target returns <> [].
Proof.
  intros H E. apply Exists_exists in H as (r & Hin & Hr).
  assert (Hb : In r (below target returns)).
  { unfold below. apply filter_In. split; [exact Hin|].
    destruct (Rlt_dec r target); [reflexivity|contradiction]. }
  rewrite E in Hb. destruct Hb.
Qed.

Lemma shortfall_squares_pos (target : R) (returns : list R) :
  Exists (fun r => (r < target)%R) returns ->
  (0 < Rsum (map (fun r => Rmin (r - target) 0 * Rmin (r - target) 0)
                 returns))%R.
Proof.
  induction 1 as [x l Hx|x l _ IH]; cbn [map]; rewrite Rsum_cons.
  - assert (0 <= Rsum (map (fun r => Rmin (r - target) 0
                                     * Rmin (r - target) 0) l))%R.
    { apply Rsum_nonneg. apply Forall_forall. intros y Hy.
      apply in_map_iff in Hy as (r & <- & _). nra. }
    unfold Rmin at 1 2. destruct (Rle_dec (x - target) 0); nra.
  - assert (0 <= Rmin (x - target) 0 * Rmin (x - target) 0)%R by nra. lra.
Qed.

Lemma raw_squares_nonneg (target : R) (returns : list R) :
  (0 <= Rsum (map (fun r => if Rlt_dec r target then r * r else 0) returns))%R.
Proof.
  apply Rsum_nonneg. apply Forall_forall. intros y Hy.
  apply in_map_iff in Hy as (r & <- & _).
  destruct (Rlt_dec r target); nra.
Qed.

(** C3 fails on the code.  For a series of at least 2 observations with
    a return below the target, the code divides the excess return by
    sqrt(S / k) * sqrt(periodsPerYear), where S is the sum of the squares
    of the k returns below the target (the returns themselves, not
    their shortfall to the target), while the specified ratio divides
    by sqrt(T / n) * sqrt(periodsPerYear), where T is the sum over all n
    observations of min(r - target, 0) squared.  The two ratios differ
    whenever S * n differs from T * k and the annualized return is not
    the target: at the default target 0 as soon as one return is not
    negative, and at any other target even when every return is below
    it.  (Real arithmetic.) *)
Theorem sortino_ratio_departs_from_specification :
  forall (returns : list R) (target_return : R) (periods_per_year : positive)
         (ann_ret : R),
  2 <= length returns ->
  Exists (fun r => (r < target_return)%R) returns ->
  annualized_return returns periods_per_year = XNum ann_ret ->
  let n := IZR (Z.of_nat (length returns)) in
  let k := Rsum (map (fun r => if Rlt_dec r target_return then 1 else 0)%R
                     returns) in
  let S := Rsum (map (fun r => if Rlt_dec r target_return then r * r else 0)%R
                     returns) in
  let T := Rsum (map (fun r => Rmin (r - target_return) 0
                               * Rmin (r - target_return) 0)%R returns) in
  S <> 0%R ->
  sortino_ratio returns target_return periods_per_year
  = XNum ((ann_ret - target_return)
          / (sqrt (S / k) * sqrt (IZR (Zpos periods_per_year)))) /\
  sortino_spec returns target_return periods_per_year
  = XNum ((ann_ret - target_return)
          / (sqrt (T / n) * sqrt (IZR (Zpos periods_per_year)))) /\
  (ann_ret <> target_return -> (S * n)%R <> (T * k)%R ->
   sortino_ratio returns target_return periods_per_year
   <> sortino_spec returns target_return periods_per_year).
Proof.
  intros returns t p a Hlen Hex Hann n k S T HS.
  pose proof (below_nonempty Hex) as Hne.
  pose proof (raw_squares_nonneg t returns) as HS0. fold S in HS0.
  pose proof (shortfall_squares_pos Hex) as HT. fold T in HT.
  assert (Hk : (0 < k)%R).
  { unfold k. rewrite <- below_count. apply IZR_lt.
    destruct (below t returns); [congruence|]. cbn [length]. lia. }
  assert (Hn : (0 < n)%R) by (unfold n; apply IZR_lt; lia).
  assert (Hp : (0 < sqrt (IZR (Zpos p)))%R)
    by (apply sqrt_lt_R0, IZR_lt; lia).
  assert (HA : (0 < sqrt (S / k))%R)
    by (apply sqrt_lt_R0, Rdiv_lt_0_compat; lra).
  assert (HB : (0 < sqrt (T / n))%R)
    by (apply sqrt_lt_R0, Rdiv_lt_0_compat; lra).
  assert (Hcode : sortino_ratio returns t p
                  = XNum ((a - t) / (sqrt (S / k) * sqrt (IZR (Zpos p))))).
  { unfold sortino_ratio. cbv zeta.
    destruct (Nat.ltb_spec (length returns) 2) as [|_]; [lia|].
    destruct (Nat.eqb_spec (length (below t returns)) 0) as [E|_];
      [apply length_zero_iff_nil in E; contradiction|].
    assert (Hdev : downside_deviation (below t returns) p
                   = (sqrt (S / k) * sqrt (IZR (Zpos p)))%R).
    { unfold downside_deviation, Rmean.
      rewrite length_map, below_squares, below_count. reflexivity. }
    rewrite Hdev, Hann.
    destruct (Req_dec_T _ 0) as [Hz|_]; [nra|]. reflexivity. }
  assert (Hspec : sortino_spec returns t p
                  = XNum ((a - t) / (sqrt (T / n) * sqrt (IZR (Zpos p))))).
  { unfold sortino_spec. cbv zeta.
    destruct (Nat.eqb_spec (length (below t returns)) 0) as [E|_];
      [apply length_zero_iff_nil in E; contradiction|].
    rewrite Hann. unfold shortfall_deviation, Rmean.
    rewrite length_map. reflexivity. }
  split; [exact Hcode|]. split; [exact Hspec|].
  intros Hat Hdiff Heq. rewrite Hcode, Hspec in Heq. injection Heq as Heq.
  apply Hdiff.
  assert (Hsq : sqrt (S / k) = sqrt (T / n)).
  { assert (Hden : (sqrt (S / k) * sqrt (IZR (Zpos p))
                    = sqrt (T / n) * sqrt (IZR (Zpos p)))%R).
    { apply (Rmult_eq_reg_l ((a - t)
                / ((sqrt (S / k) * sqrt (IZR (Zpos p)))
                   * (sqrt (T / n) * sqrt (IZR (Zpos p))))))%R.
      - transitivity ((a - t) / (sqrt (T / n) * sqrt (IZR (Zpos p))))%R;
          [field; lra|].
        rewrite <- Heq. field. lra.
      - intro Hz. apply Rmult_integral in Hz as [Hz|Hz]; [lra|].
        assert (Hprod : (0 < (sqrt (S / k) * sqrt (IZR (Zpos p)))
                             * (sqrt (T / n) * sqrt (IZR (Zpos p))))%R)
          by (repeat apply Rmult_lt_0_compat; assumption).
        apply Rinv_0_lt_compat in Hprod. lra. }
    apply (Rmult_eq_reg_r (sqrt (IZR (Zpos p)))); [exact Hden|lra]. }
  apply sqrt_inj in Hsq;
    [|apply Rlt_le, Rdiv_lt_0_compat; lra
     |apply Rlt_le, Rdiv_lt_0_compat; lra].
  apply (Rmult_eq_reg_r (/ (k * n))%R).
  - transitivity (S / k)%R; [field; lra|].
    rewrite Hsq. field. lra.
  - apply Rinv_neq_0_compat. nra.
Qed.

Lemma sortino_ratio_departs_from_specification_witness :
  sortino_ratio one_bad_quarter 0 4 <> sortino_spec one_bad_quarter 0 4.
Proof.
  assert (Hlen : 2 <= length one_bad_quarter) by (cbn; lia).
  assert (Hex : Exists (fun r => (r < 0)%R) one_bad_quarter).
  { unfold one_bad_quarter. do 3 apply Exists_cons_tl.
    apply Exists_cons_hd. lra. }
  assert (HS : Rsum (map (fun r => if Rlt_dec r 0 then r * r else 0)%R
                         one_bad_quarter) = (1 / 4)%R).
  { unfold one_bad_quarter, Rsum. cbn [map fold_left]. decide_reals. lra. }
  assert (Hk : Rsum (map (fun r => if Rlt_dec r 0 then 1 else 0)%R
                         one_bad_quarter) = 1%R).
  { unfold one_bad_quarter, Rsum. cbn [map fold_left]. decide_reals. lra. }
  assert (HT : Rsum (map (fun r => Rmin (r - 0) 0 * Rmin (r - 0) 0)%R
                         one_bad_quarter) = (1 / 4)%R).
  { unfold one_bad_quarter, Rsum, Rmin. cbn [map fold_left].
    decide_reals. lra. }
  destruct (@sortino_ratio_departs_from_specification
              one_bad_quarter 0%R 4%positive (-1 / 2)%R Hlen Hex
              annualized_one_bad_quarter)
    as (_ & _ & Hdiffer).
  - rewrite HS. lra.
  - apply Hdiffer; [lra|]. rewrite HS, HT, Hk.
    cbn [one_bad_quarter length Z.of_nat Pos.of_succ_nat Pos.succ]. lra.
Defined.

(** ** Identifier normalisation: formatting, canonical inputs, lost zeros *)

Lemma list_ascii_of_string_app (s t : string) :
  list_ascii_of_string (s ++ t)%string
  = list_ascii_of_string s ++ list_ascii_of_string t.
Proof. induction s as [|c s IH]; simpl; congruence. Qed.

(** Punctuation and any other non-digit character, anywhere in the
    input, has no effect on the normalised identifier. *)
Theorem standardize_cnpj_ignores_non_digits :
  forall (s1 s2 : string) (c : ascii),
  isdigit c = false ->
  standardize_cnpj (Some (s1 ++ String c s2)%string)
  = standardize_cnpj (Some (s1 ++ s2)%string).
Proof.
  intros s1 s2 c Hc. rewrite !standardize_cnpj_some.
  unfold normalize_spec, digits_of.
  rewrite !list_ascii_of_string_app, !filter_app.
  cbn [list_ascii_of_string filter]. now rewrite Hc.
Qed.

Lemma standardize_cnpj_ignores_non_digits_witness :
  isdigit "/" = false /\
  standardize_cnpj (Some ("00.000.000" ++ String "/" "0001-91")%string)
  = standardize_cnpj (Some ("00.000.000" ++ "0001-91")%string).
Proof.
  split; [reflexivity|].
  apply (standardize_cnpj_ignores_non_digits
           "00.000.000"%string "0001-91"%string "/"%char).
  reflexivity.
Defined.

(** An identifier that already is 14 digits comes back unchanged. *)
Theorem standardize_cnpj_canonical_unchanged :
  forall s : string,
  String.length s = 14 ->
  forallb isdigit (list_ascii_of_string s) = true ->
  standardize_cnpj (Some s) = Some s.
Proof.
  intros s Hlen Hd. unfold standardize_cnpj. f_equal.
  rewrite standardize_chars_fixed.
  - apply string_of_list_ascii_of_string.
  - apply Forall_forall. rewrite forallb_forall in Hd. exact Hd.
  - rewrite <- Hlen, <- string_length_of_list.
    now rewrite string_of_list_ascii_of_string.
Qed.

Lemma standardize_cnpj_canonical_unchanged_witness :
  standardize_cnpj (Some "12345678000199"%string)
  = Some "12345678000199"%string.
Proof.
  apply (standardize_cnpj_canonical_unchanged "12345678000199"%string);
    reflexivity.
Defined.

Lemma repeat_snoc (A : Type) (x : A) (n : nat) :
  repeat x n ++ [x] = x :: repeat x n.
Proof. induction n as [|n IH]; simpl; congruence. Qed.

(** An identifier that lost leading zeros (fewer than 14 digits) and the
    same identifier with a zero put back in front normalise alike. *)
Theorem standardize_cnpj_leading_zero :
  forall s : string,
  length (digits_of s) < 14 ->
  standardize_cnpj (Some (String "0" s)) = standardize_cnpj (Some s).
Proof.
  intros s Hlen. rewrite !standardize_cnpj_some.
  unfold normalize_spec. f_equal.
  unfold digits_of. cbn [list_ascii_of_string filter].
  change (isdigit "0") with true. cbv iota.
  fold (digits_of s). set (d := digits_of s) in *.
  destruct (Nat.ltb_spec (length d) 14) as [_|?]; [|lia].
  cbn [length]. destruct (Nat.ltb_spec (S (length d)) 14) as [Hlt|Hge].
  - replace (14 - length d) with (S (14 - S (length d))) by lia.
    cbn [repeat]. rewrite <- repeat_snoc, <- app_assoc. reflexivity.
  - assert (E : length d = 13) by lia.
    rewrite E. cbn [Nat.sub repeat app].
    f_equal. apply firstn_all2. cbn [length]. lia.
Qed.

Lemma standardize_cnpj_leading_zero_witness :
  standardize_cnpj (Some (String "0" "191")) = standardize_cnpj (Some "191"%string).
Proof.
  apply (standardize_cnpj_leading_zero "191"%string). vm_compute. lia.
Defined.

(** ** Returns extraction: shape of the result, repeated calls *)

Lemma key_le_total (a b : option Z) : key_le a b = true \/ key_le b a = true.
Proof.
  destruct a as [x|], b as [y|]; simpl; auto.
  rewrite !Z.leb_le. lia.
Qed.

Lemma key_le_trans (a b c : option Z) :
  key_le a b = true -> key_le b c = true -> key_le a c = true.
Proof.
  destruct a as [x|], b as [y|], c as [z|]; simpl; try congruence.
  rewrite !Z.leb_le. lia.
Qed.

Lemma key_eqb_eq (a b : option Z) : key_eqb a b = true <-> a = b.
Proof.
  destruct a as [x|], b as [y|]; simpl; try (split; congruence).
  rewrite Z.eqb_eq. split; congruence.
Qed.

Lemma sorted_map_filter (A B : Type) (R : B -> B -> Prop) (f : A -> B)
      (p : A -> bool) (l : list A) :
  StronglySorted R (map f l) -> StronglySorted R (map f (filter p l)).
Proof.
  induction l as [|a l IH]; simpl; intro H; [constructor|].
  inversion H as [|? ? Hs Ha]; subst.
  destruct (p a); [|now apply IH].
  simpl. constructor; [now apply IH|].
  rewrite Forall_forall in *. intros b Hb. apply Ha.
  apply in_map_iff in Hb as (x & <- & Hx).
  apply filter_In in Hx as [Hx _]. now apply in_map.
Qed.

Lemma drop_duplicated_aux_incl (seen : list (option Z)) (s : Series) :
  incl (drop_duplicated_aux seen s) s.
Proof.
  revert seen. induction s as [|[l v] s IH]; intros seen x Hx; simpl in *.
  - exact Hx.
  - destruct (existsb _ seen).
    + right. eapply IH. exact Hx.
    + destruct Hx as [<-|Hx]; [now left|right; eapply IH; exact Hx].
Qed.

Lemma drop_duplicated_aux_sorted (seen : list (option Z)) (s : Series) :
  keys_ascending s -> keys_ascending (drop_duplicated_aux seen s).
Proof.
  unfold keys_ascending, series_keys. revert seen.
  induction s as [|[l v] s IH]; intros seen H; simpl; [constructor|].
  inversion H as [|? ? Hs Ha]; subst.
  destruct (existsb _ seen); [now apply IH|].
  simpl. constructor; [now apply IH|].
  rewrite Forall_forall in *. intros b Hb. apply Ha.
  apply in_map_iff in Hb as (x & <- & Hx).
  apply drop_duplicated_aux_incl in Hx.
  apply in_map_iff. now exists x.
Qed.

Lemma drop_duplicated_aux_nodup (seen : list (option Z)) (s : Series) :
  NoDup (series_keys (drop_duplicated_aux seen s)) /\
  (forall k, In k (series_keys (drop_duplicated_aux seen s)) -> ~ In k seen).
Proof.
  unfold series_keys. revert seen.
  induction s as [|[l v] s IH]; intro seen; simpl.
  - split; [constructor|intros k []].
  - destruct (existsb (key_eqb (date_key l)) seen) eqn:E; [apply IH|].
    destruct (IH (date_key l :: seen)) as [Hnd Hfresh].
    simpl. split.
    + constructor; [|exact Hnd].
      intro Hin. apply (Hfresh _ Hin). now left.
    + intros k [<-|Hin].
      * intro Hseen.
        assert (existsb (key_eqb (date_key l)) seen = true).
        { apply existsb_exists. exists (date_key l).
          split; [exact Hseen|now apply key_eqb_eq]. }
        congruence.
      * intro Hseen. apply (Hfresh _ Hin). now right.
Qed.

Lemma column_keys (df : DataFrame) (name : string) (s : Series) :
  column df name = Returned s ->
  series_keys s = map (fun r => date_key (label r)) (rows df).
Proof.
  unfold column. destruct (col_pos name (columns df)); [|discriminate].
  intro H. injection H as <-. unfold series_keys. now rewrite map_map.
Qed.

Lemma pct_change_from_keys (prev : cell) (s s' : Series) :
  pct_change_from prev s = Returned s' -> series_keys s' = series_keys s.
Proof.
  revert prev s'. induction s as [|[l v] s IH]; intros prev s' H; simpl in H.
  - now injection H as <-.
  - destruct (arith fdiv v prev); [discriminate|]. cbn [bind] in H.
    destruct (pct_change_from v s) as [|rest] eqn:E; [discriminate|].
    cbn [bind] in H. injection H as <-.
    unfold series_keys in *. simpl. f_equal. now apply (IH v).
Qed.

Lemma pct_change_keys (s s' : Series) :
  pct_change s = Returned s' -> series_keys s' = series_keys s.
Proof.
  destruct s as [|[l v] s]; simpl; intro H.
  - now injection H as <-.
  - destruct (as_float v); [discriminate|]. cbn [bind] in H.
    destruct (pct_change_from v s) as [|rest] eqn:E; [discriminate|].
    cbn [bind] in H. injection H as <-.
    unfold series_keys in *. simpl. f_equal.
    now apply (pct_change_from_keys v).
Qed.

Section ExtractionShape.
Variable py_str : cell -> string.
Variable parse_datetime : string -> option Z.
Variable datetime_of_number : Q -> Z.
Variable minus_months : Z -> Z -> Z.

Lemma ensure_date_index_sorted (fd fd' : DataFrame) :
  ensure_date_index parse_datetime datetime_of_number fd = Returned fd' ->
  StronglySorted (fun a b => key_le a b = true)
                 (map (fun r => date_key (label r)) (rows fd')).
Proof.
  unfold ensure_date_index.
  match goal with
  | |- bind ?c _ = _ -> _ => destruct c as [|indexed]; [discriminate|]
  end.
  cbn [bind]. intro H. injection H as <-.
  unfold sort_index. cbn [rows].
  set (le := fun r1 r2 : row => _).
  pose proof (@stable_sort_sorted row le) as Hs.
  assert (Ht : forall x y, le x y = true \/ le y x = true)
    by (intros; apply key_le_total).
  assert (Hr : forall x y z, le x y = true -> le y z = true -> le x z = true)
    by (intros x y z; apply key_le_trans).
  specialize (Hs Ht Hr (rows indexed)).
  induction Hs as [|r l _ IH Hr']; simpl; constructor; [exact IH|].
  rewrite Forall_forall in *. intros k Hk.
  apply in_map_iff in Hk as (r' & <- & Hr''). now apply Hr'.
Qed.

(** What lines 226-275 return: a non-empty full series without nulls,
    with dates in ascending order and no date twice, and a windowed
    series cut out of it. *)
Lemma extract_returns_shape (df : DataFrame) (cnpj : string)
      (period_months : option Z) (filtered full : Series) :
  extract_returns parse_datetime datetime_of_number minus_months df cnpj
                  period_months = Returned (Some (filtered, full)) ->
  full <> [] /\
  Forall (fun lv => isna (snd lv) = false) full /\
  NoDup (series_keys full) /\
  keys_ascending full /\
  (exists keep, filtered = filter keep full) /\
  (period_months = None -> filtered = full).
Proof.
  unfold extract_returns.
  destruct (length (rows (filter_rows _ df)) =? 0); [discriminate|].
  set (fund_data := filter_rows _ df).
  match goal with
  | |- bind ?c _ = _ -> _ => destruct c as [|[returns|]] eqn:Hc;
                              cbn [bind]; try discriminate
  end.
  assert (Hraw : keys_ascending returns /\
                 Forall (fun lv => isna (snd lv) = false) returns).
  { assert (Hdrop : forall s, Forall (fun lv => isna (snd lv) = false)
                                     (dropna s)).
    { intro s. apply Forall_forall. intros lv Hlv.
      apply filter_In in Hlv as [_ Hlv]. now apply negb_true_iff in Hlv. }
    assert (Hsort : forall fd' s,
              ensure_date_index parse_datetime datetime_of_number fund_data
                = Returned fd' ->
              series_keys s = map (fun r => date_key (label r)) (rows fd') ->
              keys_ascending (dropna s)).
    { intros fd' s Hfd Hs. unfold keys_ascending, series_keys, dropna.
      apply sorted_map_filter. fold (series_keys s). rewrite Hs.
      now apply ensure_date_index_sorted with fund_data. }
    destruct (first_present return_columns fund_data) as [rc|].
    - destruct (ensure_date_index _ _ fund_data) as [|fd'] eqn:Hfd;
        [discriminate|]. cbn [bind] in Hc.
      destruct (column fd' rc) as [|values] eqn:Hcol; [discriminate|].
      cbn [bind] in Hc. injection Hc as <-.
      split; [|apply Hdrop].
      apply (Hsort fd'); [reflexivity|]. now apply column_keys with rc.
    - destruct (first_present quota_columns fund_data) as [qc|];
        [|discriminate].
      destruct (ensure_date_index _ _ fund_data) as [|fd'] eqn:Hfd;
        [discriminate|]. cbn [bind] in Hc.
      destruct (column fd' qc) as [|quota] eqn:Hcol; [discriminate|].
      cbn [bind] in Hc.
      destruct (pct_change quota) as [|changes] eqn:Hpc; [discriminate|].
      cbn [bind] in Hc. injection Hc as <-.
      split; [|apply Hdrop].
      apply (Hsort fd'); [reflexivity|].
      rewrite (pct_change_keys _ Hpc). now apply column_keys with qc. }
  destruct Hraw as [Hasc Hnn]. cbv zeta.
  destruct (length (drop_duplicated returns) =? 0) eqn:Hlen; [discriminate|].
  intro H. injection H as Hf Hfull. subst full.
  split.
  { intro E. rewrite E in Hlen. discriminate. }
  split.
  { rewrite Forall_forall in *. intros lv Hlv. apply Hnn.
    now apply drop_duplicated_aux_incl in Hlv. }
  split; [apply drop_duplicated_aux_nodup|].
  split; [now apply drop_duplicated_aux_sorted|].
  split.
  - destruct period_months as [m|].
    + eexists. symmetry. exact Hf.
    + exists (fun _ => true). subst filtered.
      symmetry. apply filter_all. reflexivity.
  - intros ->. now symmetry.
Qed.
End ExtractionShape.

(** Whenever [get_fund_returns] returns a pair of series, the full
    series is non-empty, has no null value, has its dates in ascending
    order with no date twice, and the windowed series is a selection of
    its points (all of them when no period is asked for). *)
Theorem get_fund_returns_series_shape :
  forall (py_str : cell -> string) (parse_datetime : string -> option Z)
         (datetime_of_number : Q -> Z) (minus_months : Z -> Z -> Z)
         (fund_details : option DataFrame) (cnpj_standard : option string)
         (period_months : option Z) (filtered full : Series),
  fst (get_fund_returns py_str parse_datetime datetime_of_number
         minus_months fund_details cnpj_standard period_months)
  = Returned (Some (filtered, full)) ->
  full <> [] /\
  Forall (fun lv => isna (snd lv) = false) full /\
  NoDup (series_keys full) /\
  keys_ascending full /\
  (exists keep, filtered = filter keep full) /\
  (period_months = None -> filtered = full).
Proof.
  intros py_str parse dnum mm fd cnpj pm filtered full.
  unfold get_fund_returns.
  destruct fd as [df|]; [|discriminate].
  destruct cnpj as [c|]; [|discriminate].
  destruct (has_column "CNPJ_STANDARD" df).
  - cbn [fst]. apply extract_returns_shape.
  - destruct (has_column "CNPJ" df); [|discriminate].
    destruct (column df "CNPJ") as [|cnpjs]; [discriminate|].
    cbn [fst]. apply extract_returns_shape.
Qed.

Lemma get_fund_returns_series_shape_witness :
  exists filtered full,
    fst (get_fund_returns sample_str sample_parse sample_number_date
           sample_minus_months (Some cnpj_only_table)
           (Some "00000000000191"%string) None)
    = Returned (Some (filtered, full)) /\
    full <> [] /\ NoDup (series_keys full) /\ filtered = full.
Proof.
  assert (H : exists filtered full,
             fst (get_fund_returns sample_str sample_parse sample_number_date
                    sample_minus_months (Some cnpj_only_table)
                    (Some "00000000000191"%string) None)
             = Returned (Some (filtered, full)))
    by (vm_compute; eauto).
  destruct H as (filtered & full & H). exists filtered, full.
  destruct (get_fund_returns_series_shape _ _ _ _ _ _ _ H)
    as (Hne & _ & Hnd & _ & _ & Hall).
  repeat split; auto.
Defined.

(** A second call with the same arguments, on the table as the first
    call left it, returns what the first returned and changes nothing
    more: the identifier column is derived at most once. *)
Theorem get_fund_returns_repeatable :
  forall (py_str : cell -> string) (parse_datetime : string -> option Z)
         (datetime_of_number : Q -> Z) (minus_months : Z -> Z -> Z)
         (fund_details : option DataFrame) (cnpj_standard : option string)
         (period_months : option Z),
  let first := get_fund_returns py_str parse_datetime datetime_of_number
                 minus_months fund_details cnpj_standard period_months in
  get_fund_returns py_str parse_datetime datetime_of_number minus_months
                   (snd first) cnpj_standard period_months
  = first.
Proof.
  intros py_str parse dnum mm fd cnpj pm. cbv zeta.
  destruct fd as [df|]; [|reflexivity].
  destruct cnpj as [c|]; [|reflexivity].
  set (get := get_fund_returns py_str parse dnum mm).
  destruct (has_column "CNPJ_STANDARD" df) eqn:Hstd.
  - assert (Hfirst : get (Some df) (Some c) pm
                     = (extract_returns parse dnum mm df c pm, Some df))
      by (unfold get, get_fund_returns; now rewrite Hstd).
    rewrite Hfirst. cbn [snd]. exact Hfirst.
  - destruct (has_column "CNPJ" df) eqn:Hcnpj.
    + set (df' := with_standard_column py_str df).
      assert (Hfirst : get (Some df) (Some c) pm
                       = (extract_returns parse dnum mm df' c pm, Some df')).
      { unfold get, get_fund_returns. rewrite Hstd, Hcnpj.
        destruct (col_pos_has_column _ _ Hcnpj) as [i Hi].
        unfold column. rewrite Hi.
        now rewrite (assign_standard_column py_str _ Hstd Hi). }
      rewrite Hfirst. cbn [snd].
      unfold get, get_fund_returns. unfold df' at 1.
      rewrite has_column_with_standard, Hstd. reflexivity.
    + assert (Hfirst : get (Some df) (Some c) pm = (Returned None, Some df))
        by (unfold get, get_fund_returns; now rewrite Hstd, Hcnpj).
      rewrite Hfirst. cbn [snd]. exact Hfirst.
Qed.

(** ** Flow analysis: short histories and percentages *)

Lemma stable_sort_length (A : Type) (le : A -> A -> bool) (l : list A) :
  length (stable_sort le l) = length l.
Proof. symmetry. apply Permutation_length, stable_sort_perm. Qed.

Lemma drop_duplicated_rows_aux_length (seen : list (option Z)) (l : list row) :
  length (drop_duplicated_rows_aux seen l) <= length l.
Proof.
  revert seen. induction l as [|r l IH]; intro seen; simpl; [lia|].
  destruct (existsb _ seen); simpl.
  - specialize (IH seen). lia.
  - specialize (IH (date_key (label r) :: seen)). lia.
Qed.

Lemma sort_values_desc_length (name : string) (df : DataFrame) :
  length (rows (sort_values_desc name df)) = length (rows df).
Proof.
  unfold sort_values_desc. destruct (col_pos name (columns df)); [|reflexivity].
  cbn [rows]. apply stable_sort_length.
Qed.

Lemma index_by_first_column_length (parse_datetime : string -> option Z)
      (datetime_of_number : Q -> Z) (fd fd' : DataFrame) :
  index_by_first_column parse_datetime datetime_of_number fd = Returned fd' ->
  length (rows fd') <= length (rows fd).
Proof.
  unfold index_by_first_column.
  match goal with
  | |- bind ?c _ = _ -> _ => destruct c as [|name]; [discriminate|]
  end.
  cbn [bind]. destruct (mapM _ _) as [|ds]; [discriminate|]. cbn [bind].
  intro H. injection H as <-. cbn [rows].
  rewrite length_map, length_combine. lia.
Qed.

(** With fewer than two rows for the fund, flow analysis never produces
    figures; on a date-indexed table it returns [None]. *)
Theorem flow_needs_two_rows :
  forall (parse_datetime : string -> option Z) (datetime_of_number : Q -> Z)
         (df : DataFrame) (cnpj_standard : string),
  length (filter (cnpj_matches df cnpj_standard) (rows df)) < 2 ->
  (forall m,
     calculate_fund_flow_metrics parse_datetime datetime_of_number
       (Some df) (Some cnpj_standard) <> Returned (Some m)) /\
  (datetime_index df = true ->
   calculate_fund_flow_metrics parse_datetime datetime_of_number
     (Some df) (Some cnpj_standard) = Returned None).
Proof.
  intros parse dnum df cnpj Hfew.
  assert (Hprep : forall fd,
            prepare_flow_table parse dnum (Some df) (Some cnpj)
            <> Returned (Some fd)).
  { intros fd H. pose proof (prepare_flow_table_rows _ _ _ _ H) as H2.
    revert H. unfold prepare_flow_table.
    destruct (negb (has_column "CNPJ_STANDARD" df)); [discriminate|].
    set (fund_data := filter_rows (cnpj_matches df cnpj) df).
    destruct (length (rows fund_data) =? 0); [discriminate|].
    assert (Hlen : forall fd0,
              length (rows fd0) < 2 ->
              length (rows (sort_index
                 (if has_column "NR_COTST" fd0
                  then drop_duplicated_rows (sort_values_desc "NR_COTST" fd0)
                  else fd0))) < 2).
    { intros fd0 H0. unfold sort_index. cbn [rows].
      rewrite stable_sort_length.
      destruct (has_column "NR_COTST" fd0); [|exact H0].
      unfold drop_duplicated_rows. cbn [rows].
      pose proof (drop_duplicated_rows_aux_length []
                    (rows (sort_values_desc "NR_COTST" fd0))) as Hd.
      rewrite sort_values_desc_length in Hd. lia. }
    destruct (datetime_index fund_data).
    - cbn [bind]. specialize (Hlen fund_data Hfew).
      destruct (Nat.ltb_spec
                  (length (rows (sort_index
                     (if has_column "NR_COTST" fund_data
                      then drop_duplicated_rows
                             (sort_values_desc "NR_COTST" fund_data)
                      else fund_data)))) 2); [discriminate|lia].
    - destruct (index_by_first_column parse dnum fund_data) as [|fd0] eqn:Hix;
        [discriminate|].
      cbn [bind].
      assert (H0 : length (rows fd0) < 2).
      { pose proof (index_by_first_column_length _ _ _ Hix) as Hl.
        unfold fund_data, filter_rows in Hl. cbn [rows] in Hl. lia. }
      specialize (Hlen _ H0).
      match goal with
      | |- (if ?b then _ else _) = _ -> _ =>
          destruct b eqn:E; [discriminate|]
      end.
      apply Nat.ltb_ge in E. lia. }
  split.
  - intros m. unfold calculate_fund_flow_metrics.
    destruct (prepare_flow_table parse dnum (Some df) (Some cnpj))
      as [|[fd|]] eqn:E; cbn [bind]; try discriminate.
    exfalso. now apply (Hprep fd).
  - intro Hidx. unfold calculate_fund_flow_metrics.
    destruct (prepare_flow_table parse dnum (Some df) (Some cnpj))
      as [|[fd|]] eqn:E; cbn [bind].
    + exfalso. revert E. unfold prepare_flow_table.
      destruct (negb (has_column "CNPJ_STANDARD" df)); [discriminate|].
      destruct (length (rows (filter_rows (cnpj_matches df cnpj) df)) =? 0);
        [discriminate|].
      cbn [datetime_index filter_rows]. rewrite Hidx. cbn [bind].
      match goal with
      | |- (if ?b then _ else _) = _ -> _ => destruct b; discriminate
      end.
    + exfalso. now apply (Hprep fd).
    + reflexivity.
Qed.

Lemma flow_needs_two_rows_witness :
  calculate_fund_flow_metrics sample_parse sample_number_date
    (Some no_source_table) (Some "00000000000191"%string) = Returned None.
Proof.
  apply (flow_needs_two_rows sample_parse sample_number_date
           no_source_table "00000000000191"%string).
  - vm_compute. lia.
  - reflexivity.
Defined.

Lemma safe_pct_value (v : Q) (base : cell) :
  is_num base = true \/ base = CNone ->
  safe_pct (CNum v) base = Returned (CNum (pct_of v base)).
Proof.
  intros [H| ->]; [|reflexivity].
  destruct base; try discriminate H. unfold safe_pct, pct_of.
  cbn [truthy ne_zero]. destruct (Qzero_b q) eqn:E; cbn [negb andb].
  - reflexivity.
  - cbn [bind arith as_float fdiv fmul]. now rewrite E.
Qed.

Lemma pct_of_no_base (v : Q) (base : cell) :
  no_base base -> pct_of v base = 0%Q.
Proof.
  intros [->|(b & -> & Hb)]; [reflexivity|].
  unfold pct_of, Qzero_b. now rewrite (proj2 (Qeq_bool_iff b 0) Hb).
Qed.

Ltac flow_pct_value :=
  repeat match goal with
  | |- context [safe_pct (CNum ?v) ?b] =>
      rewrite (@safe_pct_value v b)
        by first [ left; reflexivity | right; reflexivity ];
      cbn [bind]
  end.

(** On a prepared table with finite numbers, the percentages are finite
    numbers: figure / base * 100, and 0 over a base that is zero or
    absent. *)
Lemma flow_figures_percentages (fd : DataFrame) :
  2 <= length (rows fd) ->
  numeric_columns fd = true ->
  has_column "VL_PATRIM_LIQ" fd || has_column "NR_COTST" fd = true ->
  exists m, flow_figures fd = Returned (Some m) /\
    transfer_percentages m =
      map (fun figure => CNum (pct_of (num_of figure) (aum m)))
          [daily_transfers m; weekly_transfers m; monthly_transfers m] /\
    Forall (fun c => is_num c = true) (investor_percentages m) /\
    (no_base (aum m) ->
     Forall (eq (CNum 0)) (transfer_percentages m)) /\
    (no_base (cell_of_count (shareholders m)) ->
     Forall (eq (CNum 0)) (investor_percentages m)).
Proof.
  intros Hn Hnum Hcols.
  unfold numeric_columns in Hnum.
  apply andb_true_iff in Hnum as [Hnum Hmov].
  apply andb_true_iff in Hnum as [Hpat Hcot].
  unfold flow_figures, transfer_percentages, investor_percentages. cbv zeta.
  set (n := length (rows fd)) in *.
  pose proof (values_length fd "VL_PATRIM_LIQ") as Lpat.
  pose proof (values_length fd "NR_COTST") as Lcot.
  pose proof (values_length fd "MOVIMENTACAO") as Lmov.
  fold n in Lpat, Lcot, Lmov.
  set (patrim := values fd "VL_PATRIM_LIQ") in *.
  set (cotst := values fd "NR_COTST") in *.
  set (movim := values fd "MOVIMENTACAO") in *.
  assert (Hsum : forall k, series_sum (tail_n k movim) = Returned (sum_last k movim))
    by (intro k; now apply series_sum_num).
  destruct (has_column "VL_PATRIM_LIQ" fd) eqn:Ha;
  destruct (has_column "NR_COTST" fd) eqn:Hs;
  destruct (has_column "MOVIMENTACAO" fd) eqn:Ht;
  try discriminate Hcols; cbn [negb andb orb];
  repeat match goal with
  | H : true = true -> _ |- _ => specialize (H eq_refl)
  | H : false = true -> _ |- _ => clear H
  end;
  rewrite ?Hsum;
  destruct (Nat.leb_spec 2 n) as [_|?]; try lia;
  destruct (Nat.leb_spec 5 n); destruct (Nat.leb_spec 6 n); try lia;
  destruct (Nat.leb_spec 22 n); try lia;
  destruct (Nat.leb_spec 23 n); try lia;
  cbn [negb andb orb];
  repeat match goal with
  | |- context [iloc_back ?k ?s] =>
      let H := fresh "H" in
      let E := fresh "E" in
      assert (H : is_num (iloc_back k s) = true)
        by (rewrite iloc_back_num by (assumption || lia); reflexivity);
      destruct (iloc_back k s) eqn:E; try discriminate H; clear H
  end;
  unfold sum_last;
  cbn [bind arith as_float fsub fadd fneg cell_of_count py_int];
  rewrite ?int_or_zero_num; cbn [bind];
  flow_pct_value;
  (eexists; split; [reflexivity|]);
  cbn [daily_transfers weekly_transfers monthly_transfers
       daily_transfers_pct weekly_transfers_pct monthly_transfers_pct
       daily_investors_pct weekly_investors_pct monthly_investors_pct
       aum shareholders cell_of_count num_of map];
  (split; [reflexivity|]);
  (split; [repeat constructor|]);
  split; intro Hb; repeat constructor;
  rewrite (pct_of_no_base _ Hb); reflexivity.
Qed.

(** Flow percentages never divide by zero: on the date-ordered rows of
    a fund (finite numbers in the figure columns) every percentage is a
    finite number, each transfer percentage is its figure over the
    latest net assets times 100, and over net assets or a shareholder
    count that is zero or absent the percentages are 0. *)
Theorem flow_percentages_defined :
  forall (parse_datetime : string -> option Z) (datetime_of_number : Q -> Z)
         (df : DataFrame) (cnpj_standard : string) (fund_data : DataFrame),
  prepare_flow_table parse_datetime datetime_of_number (Some df)
                     (Some cnpj_standard) = Returned (Some fund_data) ->
  numeric_columns fund_data = true ->
  has_column "VL_PATRIM_LIQ" fund_data || has_column "NR_COTST" fund_data
    = true ->
  exists m,
    calculate_fund_flow_metrics parse_datetime datetime_of_number (Some df)
                                (Some cnpj_standard) = Returned (Some m) /\
    transfer_percentages m =
      map (fun figure => CNum (pct_of (num_of figure) (aum m)))
          [daily_transfers m; weekly_transfers m; monthly_transfers m] /\
    Forall (fun c => is_num c = true) (investor_percentages m) /\
    (no_base (aum m) ->
     Forall (eq (CNum 0)) (transfer_percentages m)) /\
    (no_base (cell_of_count (shareholders m)) ->
     Forall (eq (CNum 0)) (investor_percentages m)).
Proof.
  intros parse dnum df cnpj fd Hprep Hnum Hcols.
  unfold calculate_fund_flow_metrics. rewrite Hprep. cbn [bind].
  apply flow_figures_percentages; try assumption.
  eapply prepare_flow_table_rows. exact Hprep.
Qed.

Lemma flow_percentages_defined_witness :
  exists m,
    calculate_fund_flow_metrics sample_parse sample_number_date
      (Some six_day_table) (Some "00000000000191"%string)
    = Returned (Some m) /\
    Forall (fun c => is_num c = true) (investor_percentages m).
Proof.
  destruct (@flow_percentages_defined sample_parse sample_number_date
              six_day_table "00000000000191"%string six_day_table)
    as (m & Hm & _ & Hnum & _); [vm_compute; reflexivity ..|].
  exists m. split; assumption.
Defined.

(** ** Cumulative returns and drawdown *)

Lemma cumprod_from_length (acc : Q) (l : list Q) :
  length (cumprod_from acc l) = length l.
Proof. revert acc. induction l; intro acc; simpl; congruence. Qed.

Lemma cumprod_length (l : list Q) : length (cumprod l) = length l.
Proof. destruct l; simpl; [reflexivity|]. now rewrite cumprod_from_length. Qed.

Lemma fold_Qmult_acc (l : list Q) (a : Q) :
  (fold_left Qmult l a == a * fold_left Qmult l 1)%Q.
Proof.
  revert a. induction l as [|x l IH]; intro a; cbn [fold_left].
  - ring.
  - rewrite (IH (a * x)%Q), (IH (1 * x)%Q). ring.
Qed.

Lemma cumprod_from_nth (acc : Q) (l : list Q) (k : nat) :
  k < length l ->
  (nth k (cumprod_from acc l) 0 == acc * fold_left Qmult (firstn (S k) l) 1)%Q.
Proof.
  revert acc k. induction l as [|x l IH]; intros acc k Hk; [simpl in Hk; lia|].
  destruct k as [|k].
  - cbn. ring.
  - cbn [cumprod_from nth firstn fold_left]. simpl in Hk.
    rewrite IH by lia.
    rewrite (fold_Qmult_acc (firstn (S k) l) (1 * x)). ring.
Qed.

Lemma cumprod_nth (l : list Q) (k : nat) :
  k < length l ->
  (nth k (cumprod l) 0 == fold_left Qmult (firstn (S k) l) 1)%Q.
Proof.
  destruct l as [|x l]; intro Hk; [simpl in Hk; lia|].
  destruct k as [|k].
  - cbn. ring.
  - cbn [cumprod nth firstn fold_left]. simpl in Hk.
    rewrite cumprod_from_nth by lia.
    rewrite (fold_Qmult_acc (firstn (S k) l) (1 * x)). ring.
Qed.

Lemma last_as_nth (A : Type) (l : list A) (d : A) :
  last l d = nth (length l - 1) l d.
Proof.
  induction l as [|a l IH]; [reflexivity|].
  destruct l as [|b l]; [reflexivity|].
  change (last (a :: b :: l) d) with (last (b :: l) d).
  rewrite IH. cbn [length Nat.sub]. now rewrite Nat.sub_0_r.
Qed.

(** [cumulative_returns] has one value per input return, and the value
    at each position is the compounded return prod(1+r)-1 of the returns
    up to and including that position; the last one is the total
    return. *)
Theorem cumulative_returns_compound :
  forall returns : list Q,
  length (cumulative_returns returns) = length returns /\
  (forall k, k < length returns ->
     (nth k (cumulative_returns returns) 0
      == compound (firstn (S k) returns))%Q) /\
  (returns <> [] ->
   (last (cumulative_returns returns) 0 == compound returns)%Q).
Proof.
  intro returns.
  assert (Hlen : length (cumulative_returns returns) = length returns).
  { unfold cumulative_returns. now rewrite length_map, cumprod_length, length_map. }
  assert (Hnth : forall k, k < length returns ->
            (nth k (cumulative_returns returns) 0
             == compound (firstn (S k) returns))%Q).
  { intros k Hk. unfold cumulative_returns, compound.
    rewrite (nth_indep _ 0%Q (0 - 1)%Q)
      by (rewrite length_map, cumprod_length, length_map; exact Hk).
    rewrite (map_nth (fun g => (g - 1)%Q)).
    rewrite cumprod_nth by (rewrite length_map; exact Hk).
    now rewrite firstn_map. }
  split; [exact Hlen|]. split; [exact Hnth|].
  intro Hne.
  assert (Hpos : 0 < length returns) by (destruct returns; simpl; [congruence|lia]).
  rewrite last_as_nth, Hlen.
  rewrite Hnth by lia.
  replace (S (length returns - 1)) with (length returns) by lia.
  now rewrite firstn_all.
Qed.

Lemma Qmax_b_spec (m x : Q) : (m <= Qmax_b m x)%Q /\ (x <= Qmax_b m x)%Q.
Proof.
  unfold Qmax_b. destruct (Qle_bool m x) eqn:E.
  - apply Qle_bool_iff in E. split; [exact E|apply Qle_refl].
  - split; [apply Qle_refl|].
    destruct (Qlt_le_dec x m) as [H|H]; [now apply Qlt_le_weak|].
    apply Qle_bool_iff in H. congruence.
Qed.

Lemma cumprod_from_pos (acc : Q) (l : list Q) :
  (0 < acc)%Q -> Forall (fun x => (0 < x)%Q) l ->
  Forall (fun c => (0 < c)%Q) (cumprod_from acc l).
Proof.
  intros Ha Hl. revert acc Ha. induction Hl as [|x l Hx _ IH]; intros acc Ha.
  - constructor.
  - cbn [cumprod_from].
    assert (0 < acc * x)%Q by (apply Qmult_lt_0_compat; assumption).
    constructor; [assumption|now apply IH].
Qed.

Lemma cumprod_pos (l : list Q) :
  Forall (fun x => (0 < x)%Q) l -> Forall (fun c => (0 < c)%Q) (cumprod l).
Proof.
  destruct 1 as [|x l Hx Hl]; [constructor|].
  cbn [cumprod]. constructor; [exact Hx|now apply cumprod_from_pos].
Qed.

Lemma cummax_from_dominates (m : Q) (cs : list Q) :
  (0 < m)%Q -> Forall (fun c => (0 < c)%Q) cs ->
  Forall (fun cm => (0 < fst cm)%Q /\ (fst cm <= snd cm)%Q)
         (combine cs (cummax_from m cs)).
Proof.
  intros Hm Hcs. revert m Hm. induction Hcs as [|c cs Hc _ IH]; intros m Hm.
  - constructor.
  - cbn [cummax_from combine]. destruct (Qmax_b_spec m c) as [H1 H2].
    constructor.
    + cbn [fst snd]. split; assumption.
    + apply IH. eapply Qlt_le_trans; [exact Hm|exact H1].
Qed.

Lemma cummax_dominates (cs : list Q) :
  Forall (fun c => (0 < c)%Q) cs ->
  Forall (fun cm => (0 < fst cm)%Q /\ (fst cm <= snd cm)%Q)
         (combine cs (cummax cs)).
Proof.
  destruct 1 as [|c cs Hc Hcs]; [constructor|].
  cbn [cummax combine]. constructor.
  - cbn [fst snd]. split; [exact Hc|apply Qle_refl].
  - now apply cummax_from_dominates.
Qed.

Lemma cummax_from_length (m : Q) (l : list Q) :
  length (cummax_from m l) = length l.
Proof. revert m. induction l; intro m; simpl; congruence. Qed.

Lemma cummax_length (l : list Q) : length (cummax l) = length l.
Proof. destruct l; simpl; [reflexivity|]. now rewrite cummax_from_length. Qed.

Lemma drawdown_of_pair (c m : Q) :
  (0 < c)%Q -> (c <= m)%Q ->
  drawdown_value (fdiv (CNum (c - m)) (CNum m)).
Proof.
  intros Hc Hcm. assert (Hm : (0 < m)%Q) by (eapply Qlt_le_trans; eauto).
  cbn [fdiv]. unfold Qzero_b.
  destruct (Qeq_bool m 0) eqn:E.
  - apply Qeq_bool_iff in E. rewrite E in Hm. discriminate.
  - eexists. split; [reflexivity|]. split.
    + apply Qlt_shift_div_l; [exact Hm|]. Lqa.lra.
    + apply Qle_shift_div_r; [exact Hm|]. Lqa.lra.
Qed.

Lemma underwater_values (returns : list Q) :
  Forall (fun r => (-1 < r)%Q) returns ->
  Forall drawdown_value (underwater_series returns).
Proof.
  intro H. unfold underwater_series. cbv zeta.
  set (cs := cumprod (map (Qplus 1) returns)).
  assert (Hpos : Forall (fun c => (0 < c)%Q) cs).
  { apply cumprod_pos. apply Forall_forall. intros x Hx.
    apply in_map_iff in Hx as (r & <- & Hr).
    rewrite Forall_forall in H. specialize (H r Hr). Lqa.lra. }
  pose proof (cummax_dominates Hpos) as Hd.
  apply Forall_forall. intros c Hc.
  apply in_map_iff in Hc as ([x m] & <- & Hxm).
  rewrite Forall_forall in Hd. destruct (Hd _ Hxm) as [H1 H2].
  now apply drawdown_of_pair.
Qed.

Lemma underwater_length (returns : list Q) :
  length (underwater_series returns) = length returns.
Proof.
  unfold underwater_series. cbv zeta.
  rewrite length_map, length_combine, cummax_length, cumprod_length, length_map.
  lia.
Qed.

(** The minimum of a non-empty list of numbers is one of them and is at
    most each of them. *)
Lemma fold_min_spec (xs : list cell) (x : cell) :
  Forall (fun c => is_num c = true) (x :: xs) ->
  let m := fold_left (fun m c => if float_ge m c then c else m) xs x in
  In m (x :: xs) /\ Forall (fun c => (num_of m <= num_of c)%Q) (x :: xs).
Proof.
  cbv zeta. revert x. induction xs as [|y xs IH]; intros x H.
  - cbn [fold_left]. split; [now left|].
    constructor; [apply Qle_refl|constructor].
  - inversion H as [|? ? Hx Hrest]; subst.
    inversion Hrest as [|? ? Hy Hxs]; subst.
    cbn [fold_left].
    destruct x as [| | |qx| |]; try discriminate Hx.
    destruct y as [| | |qy| |]; try discriminate Hy.
    cbn [float_ge].
    destruct (Qle_bool qy qx) eqn:E.
    + destruct (IH (CNum qy)) as [Hin Hle]; [now constructor|].
      split; [simpl in *; tauto|].
      inversion Hle as [|? ? Hmy Hmxs]; subst.
      apply Qle_bool_iff in E. cbn [num_of] in *.
      constructor; [eapply Qle_trans; eauto|].
      constructor; assumption.
    + destruct (IH (CNum qx)) as [Hin Hle]; [now constructor|].
      split; [simpl in *; tauto|].
      inversion Hle as [|? ? Hmx Hmxs]; subst.
      assert (qx <= qy)%Q.
      { destruct (Qlt_le_dec qy qx) as [Hlt|Hge]; [|exact Hge].
        apply Qlt_le_weak in Hlt. apply Qle_bool_iff in Hlt. congruence. }
      cbn [num_of] in *.
      constructor; [exact Hmx|].
      constructor; [eapply Qle_trans; eauto|exact Hmxs].
Qed.

Lemma series_min_spec (l : list cell) :
  l <> [] -> Forall (fun c => is_num c = true) l ->
  In (series_min l) l /\
  Forall (fun c => (num_of (series_min l) <= num_of c)%Q) l.
Proof.
  intros Hne Hnum. unfold series_min.
  assert (Hf : filter (fun c => negb (isna c)) l = l).
  { apply filter_all. intros c Hc. rewrite Forall_forall in Hnum.
    specialize (Hnum c Hc). now destruct c. }
  rewrite Hf. destruct l as [|x xs]; [congruence|].
  now apply fold_min_spec.
Qed.

Lemma drawdown_value_num (c : cell) : drawdown_value c -> is_num c = true.
Proof. intros (d & -> & _). reflexivity. Qed.

(** In exact arithmetic, on returns all above -100%, the underwater
    series has one value per return, each a number in (-1, 0];
    [max_drawdown] is the least of them, so it too lies in (-1, 0].  (In
    binary64 the quotient can round to -1 itself.) *)
Theorem max_drawdown_range :
  forall returns : list Q,
  Forall (fun r => (-1 < r)%Q) returns ->
  length (underwater_series returns) = length returns /\
  Forall drawdown_value (underwater_series returns) /\
  drawdown_value (max_drawdown returns) /\
  (returns <> [] ->
   In (max_drawdown returns) (underwater_series returns) /\
   Forall (fun c => (num_of (max_drawdown returns) <= num_of c)%Q)
          (underwater_series returns)).
Proof.
  intros returns H.
  pose proof (underwater_values H) as Hvals.
  pose proof (underwater_length returns) as Hlen.
  split; [exact Hlen|]. split; [exact Hvals|].
  unfold max_drawdown.
  destruct returns as [|r rs].
  - cbn [length Nat.eqb]. split.
    + exists 0%Q. split; [reflexivity|]. split; [reflexivity|apply Qle_refl].
    + intro Hne. congruence.
  - cbn [length Nat.eqb].
    assert (Hne : underwater_series (r :: rs) <> []).
    { intro E. rewrite E in Hlen. discriminate Hlen. }
    assert (Hnum : Forall (fun c => is_num c = true)
                          (underwater_series (r :: rs))).
    { eapply Forall_impl; [|exact Hvals]. apply drawdown_value_num. }
    destruct (series_min_spec Hne Hnum) as [Hin Hle].
    split.
    + rewrite Forall_forall in Hvals. now apply Hvals.
    + intros _. split; assumption.
Qed.

Lemma max_drawdown_range_witness :
  drawdown_value (max_drawdown five_days).
Proof.
  apply (@max_drawdown_range five_days).
  unfold five_days. repeat constructor.
Defined.

Lemma cummax_from_rising (m acc : Q) (l : list Q) :
  (0 < acc)%Q -> (m <= acc)%Q -> Forall (fun x => (1 <= x)%Q) l ->
  cummax_from m (cumprod_from acc l) = cumprod_from acc l.
Proof.
  intros Ha Hm Hl. revert m acc Ha Hm.
  induction Hl as [|x l Hx _ IH]; intros m acc Ha Hm; [reflexivity|].
  cbn [cumprod_from cummax_from].
  assert (Hstep : (acc <= acc * x)%Q).
  { setoid_replace acc with (acc * 1)%Q at 1 by ring.
    apply Qmult_le_l; assumption. }
  assert (Hmax : Qmax_b m (acc * x) = (acc * x)%Q).
  { unfold Qmax_b.
    rewrite (proj2 (Qle_bool_iff m (acc * x))); [reflexivity|].
    eapply Qle_trans; eauto. }
  rewrite Hmax. f_equal. apply IH.
  - eapply Qlt_le_trans; eauto.
  - apply Qle_refl.
Qed.

(** A series without a negative return has no drawdown:
    [max_drawdown] is 0. *)
Theorem max_drawdown_without_losses :
  forall returns : list Q,
  Forall (fun r => (0 <= r)%Q) returns ->
  exists d, max_drawdown returns = CNum d /\ (d == 0)%Q.
Proof.
  intros returns H.
  destruct returns as [|r rs].
  - exists 0%Q. split; reflexivity.
  - assert (Hall : Forall (fun c => exists d, c = CNum d /\ (d == 0)%Q)
                          (underwater_series (r :: rs))).
    { unfold underwater_series. cbv zeta. cbn [map cumprod cummax].
      inversion H as [|? ? Hr Hrs]; subst.
      rewrite (@cummax_from_rising (1 + r) (1 + r));
        [|Lqa.lra|apply Qle_refl|].
      2:{ apply Forall_forall. intros x Hx.
          apply in_map_iff in Hx as (y & <- & Hy).
          rewrite Forall_forall in Hrs. specialize (Hrs y Hy). Lqa.lra. }
      assert (Hpos : Forall (fun c => (0 < c)%Q)
                            ((1 + r)%Q :: cumprod_from (1 + r) (map (Qplus 1) rs))).
      { constructor; [Lqa.lra|]. apply cumprod_from_pos; [Lqa.lra|].
        apply Forall_forall. intros x Hx.
        apply in_map_iff in Hx as (y & <- & Hy).
        rewrite Forall_forall in Hrs. specialize (Hrs y Hy). Lqa.lra. }
      set (cs := (1 + r)%Q :: cumprod_from (1 + r) (map (Qplus 1) rs)) in *.
      clearbody cs. induction Hpos as [|c cs Hc _ IH]; [constructor|].
      cbn [combine map fst snd]. constructor; [|exact IH].
      cbn [fdiv]. unfold Qzero_b. destruct (Qeq_bool c 0) eqn:E.
      - apply Qeq_bool_iff in E. rewrite E in Hc. discriminate.
      - eexists. split; [reflexivity|]. field. intro Hz.
        rewrite Hz in Hc. discriminate. }
    assert (Hne : underwater_series (r :: rs) <> []).
    { intro E. pose proof (underwater_length (r :: rs)) as Hl.
      rewrite E in Hl. discriminate Hl. }
    assert (Hnum : Forall (fun c => is_num c = true)
                          (underwater_series (r :: rs))).
    { eapply Forall_impl; [|exact Hall]. intros c (d & -> & _). reflexivity. }
    destruct (series_min_spec Hne Hnum) as [Hin _].
    unfold max_drawdown. cbn [length Nat.eqb].
    rewrite Forall_forall in Hall. now apply Hall.
Qed.

Lemma max_drawdown_without_losses_witness :
  exists d, max_drawdown [0; 0; 0]%Q = CNum d /\ (d == 0)%Q.
Proof.
  apply (@max_drawdown_without_losses [0; 0; 0]%Q).
  repeat constructor; discriminate.
Defined.

(** ** Percentiles and the two tails *)

(** The parts of the percentile computation, for a non-empty sample and
    a rank between 0 and 100. *)
Lemma percentile_parts (a : list Q) (q : Q) :
  a <> [] -> (0 <= q)%Q -> (q <= 100)%Q ->
  let n := length a in
  let vi := (inject_Z (Z.of_nat (n - 1)) * q / 100)%Q in
  let below := Z.to_nat (Qfloor vi) in
  let above := Nat.min (below + 1) (n - 1) in
  let gamma := (vi - inject_Z (Qfloor vi))%Q in
  let lo := nth below (sorted_values a) 0%Q in
  let hi := nth above (sorted_values a) 0%Q in
  percentile a q = Returned (CNum (lo + (hi - lo) * gamma)) /\
  below <= above < n /\ (0 <= gamma)%Q /\ (gamma < 1)%Q /\ (lo <= hi)%Q /\
  (inject_Z (Z.of_nat below) <= vi)%Q /\
  (vi < inject_Z (Z.of_nat below) + 1)%Q.
Proof.
  intros Hne H0 H100. cbv zeta. unfold percentile.
  rewrite (proj2 (Qle_bool_iff 0 q) H0), (proj2 (Qle_bool_iff q 100) H100).
  cbn [andb]. destruct a as [|r a']; [congruence|].
  set (a := r :: a') in *. cbv zeta.
  set (n := length a).
  assert (Hn : 1 <= n) by (unfold n, a; simpl; lia).
  set (vi := (inject_Z (Z.of_nat (n - 1)) * q / 100)%Q).
  assert (Hn0 : (0 <= inject_Z (Z.of_nat (n - 1)))%Q)
    by (change 0%Q with (inject_Z 0); rewrite <- Zle_Qle; lia).
  assert (Hvi0 : (0 <= vi)%Q).
  { unfold vi. apply Qle_shift_div_l; [reflexivity|]. Lqa.nra. }
  assert (Hvi1 : (vi <= inject_Z (Z.of_nat (n - 1)))%Q).
  { unfold vi. apply Qle_shift_div_r; [reflexivity|]. Lqa.nra. }
  assert (Hf0 : (0 <= Qfloor vi)%Z).
  { change 0%Z with (Qfloor 0). now apply Qfloor_resp_le. }
  assert (Hf1 : (Qfloor vi <= Z.of_nat (n - 1))%Z).
  { rewrite <- (Qfloor_Z (Z.of_nat (n - 1))). now apply Qfloor_resp_le. }
  set (below := Z.to_nat (Qfloor vi)).
  assert (Hb : below <= n - 1) by (unfold below; lia).
  assert (Hbz : Z.of_nat below = Qfloor vi) by (unfold below; lia).
  set (above := Nat.min (below + 1) (n - 1)).
  assert (Ha : below <= above < n) by (unfold above; lia).
  pose proof (Qfloor_le vi) as Hfl. pose proof (Qlt_floor vi) as Hfu.
  rewrite inject_Z_plus in Hfu. change (inject_Z 1) with 1%Q in Hfu.
  split; [reflexivity|]. split; [exact Ha|].
  split; [Lqa.lra|]. split; [Lqa.lra|].
  split; [apply sorted_values_nth_le; fold n; lia|].
  rewrite Hbz. split; Lqa.lra.
Qed.

(** The percentile lies at or below an element of the data. *)
Lemma percentile_below_element (a : list Q) (q : Q) :
  a <> [] -> (0 <= q)%Q -> (q <= 100)%Q ->
  exists v x, percentile a q = Returned (CNum v) /\ In x a /\ (v <= x)%Q.
Proof.
  intros Hne H0 H100.
  destruct (percentile_parts Hne H0 H100)
    as (Hp & Hab & Hg0 & Hg1 & Hlohi & _).
  eexists. eexists. split; [exact Hp|]. split.
  - apply sorted_values_nth_in. exact (proj2 Hab).
  - Lqa.nra.
Qed.

(** Percentiles grow with the rank. *)
Lemma percentile_monotone (a : list Q) (q1 q2 : Q) :
  a <> [] -> (0 <= q1)%Q -> (q1 <= q2)%Q -> (q2 <= 100)%Q ->
  exists v1 v2,
    percentile a q1 = Returned (CNum v1) /\
    percentile a q2 = Returned (CNum v2) /\ (v1 <= v2)%Q.
Proof.
  intros Hne H0 H12 H100.
  assert (H1 : (q1 <= 100)%Q) by Lqa.lra.
  assert (H2 : (0 <= q2)%Q) by Lqa.lra.
  destruct (percentile_parts Hne H0 H1)
    as (Hp1 & Hab1 & Hg10 & Hg11 & Hlh1 & Hb1 & Hu1).
  destruct (percentile_parts Hne H2 H100)
    as (Hp2 & Hab2 & Hg20 & Hg21 & Hlh2 & Hb2 & Hu2).
  cbv zeta in *.
  set (n := length a) in *.
  set (vi1 := (inject_Z (Z.of_nat (n - 1)) * q1 / 100)%Q) in *.
  set (vi2 := (inject_Z (Z.of_nat (n - 1)) * q2 / 100)%Q) in *.
  set (b1 := Z.to_nat (Qfloor vi1)) in *.
  set (b2 := Z.to_nat (Qfloor vi2)) in *.
  set (lo1 := nth b1 (sorted_values a) 0%Q) in *.
  set (lo2 := nth b2 (sorted_values a) 0%Q) in *.
  set (hi1 := nth (Nat.min (b1 + 1) (n - 1)) (sorted_values a) 0%Q) in *.
  set (hi2 := nth (Nat.min (b2 + 1) (n - 1)) (sorted_values a) 0%Q) in *.
  set (g1 := (vi1 - inject_Z (Qfloor vi1))%Q) in *.
  set (g2 := (vi2 - inject_Z (Qfloor vi2))%Q) in *.
  assert (Hvi : (vi1 <= vi2)%Q).
  { unfold vi1, vi2.
    assert (0 <= inject_Z (Z.of_nat (n - 1)))%Q
      by (change 0%Q with (inject_Z 0); rewrite <- Zle_Qle; lia).
    apply Qle_shift_div_l; [reflexivity|].
    setoid_replace (inject_Z (Z.of_nat (n - 1)) * q1 / 100 * 100)%Q
      with (inject_Z (Z.of_nat (n - 1)) * q1)%Q by field.
    Lqa.nra. }
  assert (Hfl : (Qfloor vi1 <= Qfloor vi2)%Z) by now apply Qfloor_resp_le.
  assert (Hf0 : (0 <= Qfloor vi1)%Z).
  { change 0%Z with (Qfloor 0). apply Qfloor_resp_le. unfold vi1.
    assert (0 <= inject_Z (Z.of_nat (n - 1)))%Q
      by (change 0%Q with (inject_Z 0); rewrite <- Zle_Qle; lia).
    apply Qle_shift_div_l; [reflexivity|]. Lqa.nra. }
  assert (Hb12 : b1 <= b2) by (unfold b1, b2; lia).
  exists (lo1 + (hi1 - lo1) * g1)%Q, (lo2 + (hi2 - lo2) * g2)%Q.
  split; [exact Hp1|]. split; [exact Hp2|].
  destruct (Nat.eq_dec b1 b2) as [E|NE].
  - assert (El : lo2 = lo1) by (unfold lo1, lo2; now rewrite E).
    assert (Eh : hi2 = hi1) by (unfold hi1, hi2; now rewrite E).
    assert (Ef : Qfloor vi1 = Qfloor vi2) by (unfold b1, b2 in E; lia).
    assert (Hg : (g1 <= g2)%Q) by (unfold g1, g2; rewrite Ef; Lqa.lra).
    rewrite El, Eh. Lqa.nra.
  - assert (Hmid : (hi1 <= lo2)%Q).
    { unfold hi1, lo2. apply sorted_values_nth_le. fold n. lia. }
    assert ((lo1 + (hi1 - lo1) * g1 <= hi1)%Q) by Lqa.nra.
    assert ((lo2 <= lo2 + (hi2 - lo2) * g2)%Q) by Lqa.nra.
    Lqa.lra.
Qed.

Lemma mean_at_least (l : list Q) (v : Q) :
  l <> [] -> Forall (fun r => (v <= r)%Q) l ->
  exists c, mean l = CNum c /\ (v <= c)%Q.
Proof.
  intros Hne Hall.
  assert (Hneg : Forall (fun r => (r <= - v)%Q) (map Qopp l)).
  { apply Forall_forall. intros r Hr.
    apply in_map_iff in Hr as (x & <- & Hx).
    rewrite Forall_forall in Hall. specialize (Hall x Hx). Lqa.lra. }
  pose proof (fold_Qplus_le 0 Hneg) as Hs. rewrite length_map in Hs.
  assert (Hopp : (Qsum (map Qopp l) == - Qsum l)%Q).
  { clear. induction l as [|x l IH]; [reflexivity|].
    cbn [map]. rewrite !Qsum_cons, IH. ring. }
  change (fold_left Qplus (map Qopp l) 0%Q) with (Qsum (map Qopp l)) in Hs.
  rewrite Hopp in Hs.
  destruct l as [|r l]; [congruence|].
  eexists. split; [reflexivity|].
  set (k := inject_Z (Z.of_nat (length (r :: l)))) in *.
  assert (Hk : (0 < k)%Q).
  { unfold k. change 0%Q with (inject_Z 0). rewrite <- Zlt_Qlt.
    cbn [length]. lia. }
  apply Qle_shift_div_l; [exact Hk|]. Lqa.lra.
Qed.

Lemma var_upper_le_cvar_upper (returns : list Q) (confidence : Q) :
  returns <> [] -> (0 <= confidence)%Q -> (confidence <= 1)%Q ->
  exists v c,
    var_upper returns confidence = Returned (CNum v) /\
    cvar_upper returns confidence = Returned (CNum c) /\
    (v <= c)%Q.
Proof.
  intros Hne H0 H1.
  destruct (@percentile_below_element returns (confidence * 100)%Q)
    as (v & x & Hv & Hx & Hvx); [exact Hne|Lqa.lra|Lqa.lra|].
  assert (Hvar : var_upper returns confidence = Returned (CNum v)).
  { unfold var_upper. destruct returns; [congruence|]. exact Hv. }
  destruct (@mean_at_least (at_least (CNum v) returns) v) as (c & Hc & Hcv).
  - intro E. assert (Hin : In x (at_least (CNum v) returns)).
    { apply filter_In. split; [exact Hx|]. now apply Qle_bool_iff. }
    rewrite E in Hin. destruct Hin.
  - apply Forall_forall. intros r Hr. apply filter_In in Hr as [_ Hr].
    now apply Qle_bool_iff.
  - exists v, c. split; [exact Hvar|]. split; [|exact Hcv].
    unfold cvar_upper. destruct returns; [congruence|].
    cbn [length Nat.eqb]. rewrite Hvar. cbn [bind]. now rewrite Hc.
Qed.

(** In exact arithmetic, for a non-empty series and a confidence
    between 0.5 and 1 the four tail figures are finite and ordered:
    cvar <= var <= var_upper <= cvar_upper.  (In binary64 a tail mean
    can cross its percentile in the last digit.) *)
Theorem tail_figures_ordered :
  forall (returns : list Q) (confidence : Q),
  returns <> [] -> (1 # 2 <= confidence)%Q -> (confidence <= 1)%Q ->
  exists cv v vu cvu,
    cvar returns confidence = Returned (CNum cv) /\
    var returns confidence = Returned (CNum v) /\
    var_upper returns confidence = Returned (CNum vu) /\
    cvar_upper returns confidence = Returned (CNum cvu) /\
    (cv <= v)%Q /\ (v <= vu)%Q /\ (vu <= cvu)%Q.
Proof.
  intros returns c Hne Hhalf H1.
  assert (H0 : (0 <= c)%Q) by Lqa.lra.
  destruct (cvar_le_var_nonempty Hne H0 H1) as (v & cv & Hv & Hcv & Hle1).
  destruct (var_upper_le_cvar_upper Hne H0 H1) as (vu & cvu & Hvu & Hcvu & Hle3).
  destruct (@percentile_monotone returns ((1 - c) * 100)%Q (c * 100)%Q)
    as (v1 & v2 & Hp1 & Hp2 & Hle2); [exact Hne|Lqa.lra|Lqa.lra|Lqa.lra|].
  assert (E1 : v1 = v).
  { unfold var in Hv. destruct returns; [congruence|].
    cbn [length Nat.eqb] in Hv. congruence. }
  assert (E2 : v2 = vu).
  { unfold var_upper in Hvu. destruct returns; [congruence|].
    cbn [length Nat.eqb] in Hvu. congruence. }
  subst v1 v2.
  exists cv, v, vu, cvu. repeat split; assumption.
Qed.

Lemma tail_figures_ordered_witness :
  exists cv v vu cvu,
    cvar five_days (95 # 100) = Returned (CNum cv) /\
    var five_days (95 # 100) = Returned (CNum v) /\
    var_upper five_days (95 # 100) = Returned (CNum vu) /\
    cvar_upper five_days (95 # 100) = Returned (CNum cvu) /\
    (cv <= v)%Q /\ (v <= vu)%Q /\ (vu <= cvu)%Q.
Proof.
  apply (@tail_figures_ordered five_days (95 # 100)); discriminate.
Defined.

(** The VaR of a non-empty series lies between two of its returns:
    never below the worst return, never above the best. *)
Theorem var_within_sample :
  forall (returns : list Q) (confidence : Q),
  returns <> [] -> (0 <= confidence)%Q -> (confidence <= 1)%Q ->
  exists v worse better,
    var returns confidence = Returned (CNum v) /\
    In worse returns /\ In better returns /\
    (worse <= v)%Q /\ (v <= better)%Q.
Proof.
  intros returns c Hne H0 H1.
  destruct (@percentile_above_element returns ((1 - c) * 100)%Q)
    as (v & x & Hv & Hx & Hxv); [exact Hne|Lqa.lra|Lqa.lra|].
  destruct (@percentile_below_element returns ((1 - c) * 100)%Q)
    as (v' & y & Hv' & Hy & Hvy); [exact Hne|Lqa.lra|Lqa.lra|].
  assert (v' = v) by congruence. subst v'.
  exists v, x, y. repeat split; try assumption.
  unfold var. destruct returns; [congruence|]. exact Hv.
Qed.

Lemma var_within_sample_witness :
  exists v worse better,
    var five_days (95 # 100) = Returned (CNum v) /\
    In worse five_days /\ In better five_days /\
    (worse <= v)%Q /\ (v <= better)%Q.
Proof.
  apply (@var_within_sample five_days (95 # 100)); discriminate.
Defined.

(** ** Omega and Rachev ratios *)

Lemma Qabs_q_nonneg (q : Q) : (0 <= Qabs_q q)%Q.
Proof.
  unfold Qabs_q. destruct (Qle_bool 0 q) eqn:E.
  - now apply Qle_bool_iff.
  - destruct (Qlt_le_dec q 0) as [H|H]; [Lqa.lra|].
    apply Qle_bool_iff in H. congruence.
Qed.

(** The Omega ratio is never NaN and never negative: it is a number at
    least 0 or +infinity, whatever the series and the threshold. *)
Theorem omega_ratio_nonnegative :
  forall (returns : list Q) (threshold : Q),
  nonneg_or_inf (omega_ratio returns threshold).
Proof.
  intros returns threshold. unfold omega_ratio, nonneg_or_inf.
  destruct (length returns =? 0).
  { right. exists 1%Q. split; [reflexivity|discriminate]. }
  cbv zeta.
  set (excess := map (fun r => (r - threshold)%Q) returns).
  set (gains := Qsum (filter (fun e => negb (Qle_bool e 0)) excess)).
  set (losses := Qabs_q _).
  assert (Hg : (0 <= gains)%Q).
  { apply Qsum_nonneg. apply Forall_forall. intros e He.
    apply filter_In in He as [_ He]. apply negb_true_iff in He.
    destruct (Qlt_le_dec 0 e) as [H|H]; [now apply Qlt_le_weak|].
    apply Qle_bool_iff in H. congruence. }
  assert (Hl : (0 <= losses)%Q) by apply Qabs_q_nonneg.
  destruct (Qeq_bool losses 0) eqn:E.
  - destruct (negb (Qle_bool gains 0)); [now left|].
    right. exists 1%Q. split; [reflexivity|discriminate].
  - right. eexists. split; [reflexivity|].
    assert (Hpos : (0 < losses)%Q).
    { destruct (Qlt_le_dec 0 losses) as [H|H]; [exact H|].
      assert (losses == 0)%Q by Lqa.lra.
      apply Qeq_bool_iff in H0. congruence. }
    apply Qle_shift_div_l; [exact Hpos|]. Lqa.lra.
Qed.

(** For a tail fraction between 0 and 1 the Rachev ratio does not raise
    and is never NaN: it is a number or +infinity. *)
Theorem rachev_ratio_defined :
  forall (returns : list Q) (alpha : Q),
  (0 <= alpha)%Q -> (alpha <= 1)%Q ->
  exists c, rachev_ratio returns alpha = Returned c /\ number_or_inf c.
Proof.
  intros returns alpha H0 H1. unfold rachev_ratio.
  destruct returns as [|r rs].
  { eexists. split; [reflexivity|]. right. now exists 1%Q. }
  set (returns := r :: rs). cbn [length Nat.eqb].
  assert (Hne : returns <> []) by discriminate.
  destruct (@percentile_below_element returns ((1 - alpha) * 100)%Q)
    as (vu & x & Hvu & Hx & Hvx); [exact Hne|Lqa.lra|Lqa.lra|].
  destruct (@percentile_above_element returns (alpha * 100)%Q)
    as (vl & y & Hvl & Hy & Hyv); [exact Hne|Lqa.lra|Lqa.lra|].
  rewrite Hvu, Hvl. cbn [bind].
  destruct (@mean_at_least (at_least (CNum vu) returns) vu) as (g & Hg & _).
  { intro E. assert (Hin : In x (at_least (CNum vu) returns)).
    { apply filter_In. split; [exact Hx|]. now apply Qle_bool_iff. }
    rewrite E in Hin. destruct Hin. }
  { apply Forall_forall. intros z Hz. apply filter_In in Hz as [_ Hz].
    now apply Qle_bool_iff. }
  destruct (@mean_at_most (at_most (CNum vl) returns) vl) as (l & Hl & _).
  { intro E. assert (Hin : In y (at_most (CNum vl) returns)).
    { apply filter_In. split; [exact Hy|]. now apply Qle_bool_iff. }
    rewrite E in Hin. destruct Hin. }
  { apply Forall_forall. intros z Hz. apply filter_In in Hz as [_ Hz].
    now apply Qle_bool_iff. }
  rewrite Hg, Hl. cbn [fabs is_zero].
  destruct (Qeq_bool (Qabs_q l) 0) eqn:E.
  - eexists. split; [reflexivity|].
    destruct (is_positive (CNum g)); [now left|right; now exists 1%Q].
  - eexists. split; [reflexivity|]. right.
    cbn [fdiv]. unfold Qzero_b. rewrite E. eexists. reflexivity.
Qed.

Lemma rachev_ratio_defined_witness :
  exists c, rachev_ratio five_days (5 # 100) = Returned c /\ number_or_inf c.
Proof.
  apply (@rachev_ratio_defined five_days (5 # 100)); discriminate.
Defined.

(** ** A series against itself *)

Lemma aligned_self_columns (s : ReturnSeries) :
  column_values (aligned s s) 0 = column_values (aligned s s) 1.
Proof.
  unfold column_values, aligned, dropna_lines, frame_of_dict.
  cbn [lines map snd]. apply map_ext_in. intros l Hl.
  apply filter_In in Hl as [Hl _].
  apply in_map_iff in Hl as (dt & <- & _). reflexivity.
Qed.

(** The beta of a series against itself is 1 (exact arithmetic): by one
    of the fallbacks, or as the quotient of the variance by itself. *)
Theorem beta_of_itself :
  forall s : ReturnSeries,
  exists b, beta s s = CNum b /\ (b == 1)%Q.
Proof.
  intro s. unfold beta.
  destruct ((length s =? 0) || (length s =? 0));
    [exists 1%Q; split; reflexivity|].
  cbv zeta. destruct (length (lines (aligned s s)) <? 2);
    [exists 1%Q; split; reflexivity|].
  rewrite aligned_self_columns.
  set (v := covariance _ _).
  destruct (Qeq_bool v 0) eqn:E; [exists 1%Q; split; reflexivity|].
  eexists. split; [reflexivity|].
  field. intro Hz. apply Qeq_bool_iff in Hz. congruence.
Qed.

Lemma Qsum_self_differences (a : list Q) :
  (Qsum (map (fun ab => (fst ab - snd ab)%Q) (combine a a)) == 0)%Q.
Proof.
  induction a as [|x a IH]; [reflexivity|].
  cbn [combine map fst snd]. rewrite Qsum_cons, IH. ring.
Qed.

Lemma std_two_observations (sqrtQ : Q -> Q) (l : list Q) :
  2 <= length l -> exists t, std sqrtQ l = CNum t.
Proof.
  destruct l as [|x [|y l]]; cbn [length]; try lia.
  intros _. eexists. reflexivity.
Qed.

Lemma mean_of_zero_sum (l : list Q) :
  1 <= length l -> (Qsum l == 0)%Q ->
  exists m, mean l = CNum m /\ (m == 0)%Q.
Proof.
  destruct l as [|x l]; cbn [length]; [lia|].
  intros _ Hs. eexists. split; [reflexivity|].
  rewrite Hs. unfold Qdiv. ring.
Qed.

(** The information ratio of a series against itself is 0 (whatever the
    square root function): there is no excess return. *)
Theorem information_ratio_of_itself :
  forall (sqrtQ : Q -> Q) (s : ReturnSeries),
  exists r, information_ratio sqrtQ s s = CNum r /\ (r == 0)%Q.
Proof.
  intros sqrtQ s. unfold information_ratio.
  destruct ((length s =? 0) || (length s =? 0));
    [exists 0%Q; split; reflexivity|].
  cbv zeta. destruct (Nat.ltb_spec (length (lines (aligned s s))) 2) as [|Hlen];
    [exists 0%Q; split; reflexivity|].
  rewrite aligned_self_columns.
  set (a := column_values (aligned s s) 1).
  assert (Ha : 2 <= length a)
    by (unfold a, column_values; now rewrite length_map).
  assert (He : length (map (fun ab : Q * Q => (fst ab - snd ab)%Q)
                           (combine a a)) = length a)
    by (rewrite length_map, length_combine; lia).
  destruct (@std_two_observations sqrtQ
              (map (fun ab : Q * Q => (fst ab - snd ab)%Q) (combine a a)))
    as [t Ht]; [lia|].
  destruct (@mean_of_zero_sum
              (map (fun ab : Q * Q => (fst ab - snd ab)%Q) (combine a a)))
    as (m & Hm & Hm0); [lia|apply Qsum_self_differences|].
  rewrite Ht, Hm.
  cbn [fmul is_zero].
  destruct (Qeq_bool (t * sqrtQ 252%Q) 0%Q) eqn:E;
    [exists 0%Q; split; reflexivity|].
  cbn [fdiv]. unfold Qzero_b. rewrite E.
  eexists. split; [reflexivity|]. rewrite Hm0. unfold Qdiv. ring.
Qed.

(** ** The aggregate of any number of funds *)

Lemma union_index_spec (ss : list ReturnSeries) (x : Z) :
  In x (union_index ss) <-> exists s, In s ss /\ In x (dates s).
Proof.
  destruct ss as [|s rest]; [cbn; split; [tauto|now intros (? & [] & _)]|].
  unfold union_index.
  destruct (forallb _ rest) eqn:E.
  - split.
    + intro H. exists s. split; [now left|exact H].
    + intros (s' & [<-|Hs'] & Hx); [exact Hx|].
      rewrite forallb_forall in E. specialize (E s' Hs').
      apply dates_eqb_eq in E. now rewrite <- E.
  - rewrite (proj2 (sorted_union_spec _)), in_concat. split.
    + intros (l & Hl & Hx). apply in_map_iff in Hl as (s' & <- & Hs').
      now exists s'.
    + intros (s' & Hs' & Hx). exists (dates s'). split; [|exact Hx].
      apply in_map_iff. now exists s'.
Qed.

(** The joined rows are the dates every fund has. *)
Lemma joined_dates (d : list (string * ReturnSeries)) (dt : Z) :
  d <> [] ->
  In dt (map fst (lines (dropna_lines (frame_of_dict d)))) <->
  (forall k sk, In (k, sk) d -> In dt (dates sk)).
Proof.
  intro Hne. unfold dropna_lines, frame_of_dict. cbn [lines].
  rewrite filter_map_comm, map_map. cbn [fst snd].
  rewrite map_id, filter_In, union_index_spec, forallb_forall.
  split.
  - intros [_ Hall] k sk Hin.
    specialize (Hall (match find_date dt sk with
                      | Some q => CNum q
                      | None => CNaN
                      end)).
    apply has_date_spec. rewrite <- isna_found. apply Hall.
    apply in_map_iff. now exists (k, sk).
  - intro Hall. split.
    + destruct d as [|[k sk] d]; [congruence|].
      exists sk. split; [now left|]. apply (Hall k sk). now left.
    + intros c Hc. apply in_map_iff in Hc as ([k sk] & <- & Hin).
      cbn [snd]. rewrite isna_found. apply has_date_spec.
      now apply (Hall k sk).
Qed.

(** The accumulation loop keeps one entry per joined row. *)
Lemma fold_add_weighted_shape (f : ReturnsFrame) (nw : list (string * Q)) :
  forall h : Z * list cell -> Q,
  exists h' : Z * list cell -> Q,
    fold_left (fun acc kw => add_weighted f acc (fst kw) (snd kw)) nw
              (map (fun l => (fst l, h l)) (lines f))
    = map (fun l => (fst l, h' l)) (lines f).
Proof.
  induction nw as [|[k w] nw IH]; intro h; cbn [fold_left fst snd].
  - now exists h.
  - destruct (col_pos k (funds f)) as [i|] eqn:E.
    + rewrite (@add_weighted_step f h k w i E). apply IH.
    + unfold add_weighted at 2. rewrite E. apply IH.
Qed.

(** Whatever the weights, a portfolio series has at least one date, and
    its dates are exactly the dates that every fund of the dictionary
    has: the funds are joined on their common dates. *)
Theorem portfolio_dates_common :
  forall (fund_returns_dict : list (string * ReturnSeries))
         (weights : list (string * Q)) (s : ReturnSeries),
  calculate_portfolio_returns fund_returns_dict weights = Some s ->
  s <> [] /\
  forall dt, In dt (dates s) <->
             (forall k sk, In (k, sk) fund_returns_dict -> In dt (dates sk)).
Proof.
  intros d w s H. unfold calculate_portfolio_returns in H.
  destruct d as [|p d]; [discriminate|].
  destruct w as [|q w]; [discriminate|].
  destruct (normalize_weights (q :: w)) as [nw|]; [|discriminate].
  cbv zeta in H.
  set (f := dropna_lines (frame_of_dict (p :: d))) in *.
  destruct (Nat.eqb_spec (length (lines f)) 0) as [|Hlen]; [discriminate|].
  destruct (@fold_add_weighted_shape f nw (fun _ => 0%Q)) as [h' Hh].
  rewrite Hh in H. injection H as <-. split.
  - intro E. apply (f_equal (@length _)) in E.
    rewrite length_map in E. cbn [length] in E. contradiction.
  - intro dt. rewrite <- (@joined_dates (p :: d) dt) by discriminate.
    fold f. unfold dates. rewrite map_map. reflexivity.
Qed.

Lemma portfolio_dates_common_witness :
  [(2%Z, (1200 # 40000)%Q); (3%Z, (400 # 40000)%Q)] <> [] /\
  forall dt,
    In dt (dates [(2%Z, (1200 # 40000)%Q); (3%Z, (400 # 40000)%Q)]) <->
    (forall k sk,
       In (k, sk) [("A"%string, series_a); ("B"%string, series_b)] ->
       In dt (dates sk)).
Proof.
  apply (@portfolio_dates_common
           [("A"%string, series_a); ("B"%string, series_b)]
           [("A"%string, 1%Q); ("B"%string, 1%Q)]).
  vm_compute. reflexivity.
Defined.

(** ** Weights that do not sum to one *)

Lemma add_weighted_equiv (f : ReturnsFrame) (k : string) (w w' : Q)
      (acc acc' : ReturnSeries) :
  (w == w')%Q -> series_equiv acc acc' ->
  series_equiv (add_weighted f acc k w) (add_weighted f acc' k w').
Proof.
  intros Hw Hacc. unfold add_weighted.
  destruct (col_pos k (funds f)) as [i|]; [|exact Hacc].
  generalize (lines f) as ls.
  induction Hacc as [|a b acc acc' [Hd Hv] _ IH]; intros [|l ls];
    cbn [combine map]; try constructor.
  - cbn [fst snd]. split; [exact Hd|]. rewrite Hv, Hw. reflexivity.
  - apply IH.
Qed.

Lemma fold_add_weighted_equiv (f : ReturnsFrame)
      (nw nw' : list (string * Q)) :
  weights_equiv nw nw' ->
  forall acc acc', series_equiv acc acc' ->
  series_equiv
    (fold_left (fun acc kw => add_weighted f acc (fst kw) (snd kw)) nw acc)
    (fold_left (fun acc kw => add_weighted f acc (fst kw) (snd kw)) nw' acc').
Proof.
  induction 1 as [|a b nw nw' [Hk Hw] _ IH]; intros acc acc' Hacc;
    cbn [fold_left]; [exact Hacc|].
  apply IH. rewrite Hk. now apply add_weighted_equiv.
Qed.

Lemma series_equiv_refl (s : ReturnSeries) : series_equiv s s.
Proof.
  induction s as [|x s IH]; constructor; [|exact IH].
  split; reflexivity.
Qed.

Lemma scaled_total (k : Q) (w : list (string * Q)) :
  (Qsum (map snd (scaled k w)) == Qsum (map snd w) * k)%Q.
Proof.
  induction w as [|x w IH]; [reflexivity|].
  cbn [scaled map snd] in *. rewrite !Qsum_cons, IH. ring.
Qed.

(** In exact arithmetic the aggregator depends only on the proportions
    of the weights: multiplying every weight by the same non-zero factor
    gives the same result, absent in the same cases and else equal date
    by date.  (In binary64 both the values and the zero-total test can
    differ by rounding.) *)
Theorem portfolio_weights_rescaled :
  forall (fund_returns_dict : list (string * ReturnSeries))
         (weights : list (string * Q)) (k : Q),
  ~ (k == 0)%Q ->
  same_result (calculate_portfolio_returns fund_returns_dict weights)
              (calculate_portfolio_returns fund_returns_dict
                                           (scaled k weights)).
Proof.
  intros d w k Hk. unfold calculate_portfolio_returns.
  destruct d as [|p d]; [exact I|].
  destruct w as [|q w]; [exact I|].
  change (scaled k (q :: w)) with ((fst q, (snd q * k)%Q) :: scaled k w).
  change ((fst q, (snd q * k)%Q) :: scaled k w) with (scaled k (q :: w)).
  unfold normalize_weights. cbv zeta.
  change (fold_left Qplus (map snd (scaled k (q :: w))) 0%Q)
    with (Qsum (map snd (scaled k (q :: w)))).
  change (fold_left Qplus (map snd (q :: w)) 0%Q)
    with (Qsum (map snd (q :: w))).
  pose proof (scaled_total k (q :: w)) as Ht.
  set (t := Qsum (map snd (q :: w))) in *.
  set (t' := Qsum (map snd (scaled k (q :: w)))) in *.
  destruct (Qeq_bool t 0) eqn:E.
  - apply Qeq_bool_iff in E.
    assert (E' : Qeq_bool t' 0 = true)
      by (apply Qeq_bool_iff; rewrite Ht, E; ring).
    destruct (scaled k (q :: w)); [exact I|]. rewrite E'. exact I.
  - assert (Hz : ~ (t == 0)%Q)
      by (intro Hz; apply Qeq_bool_iff in Hz; congruence).
    assert (E' : Qeq_bool t' 0 = false).
    { destruct (Qeq_bool t' 0) eqn:E'; [|reflexivity].
      apply Qeq_bool_iff in E'. rewrite Ht in E'.
      apply Qmult_integral in E'. tauto. }
    change (scaled k (q :: w)) with ((fst q, (snd q * k)%Q) :: scaled k w).
    cbv iota.
    change ((fst q, (snd q * k)%Q) :: scaled k w) with (scaled k (q :: w)).
    rewrite E'.
    destruct (length (lines (dropna_lines (frame_of_dict (p :: d)))) =? 0);
      [exact I|].
    cbn [same_result]. apply fold_add_weighted_equiv;
      [|apply series_equiv_refl].
    unfold weights_equiv, scaled. rewrite map_map.
    generalize (q :: w) as l. intro l.
    induction l as [|x l IH]; cbn [map]; constructor; [|exact IH].
    cbn [fst snd]. split; [reflexivity|].
    rewrite Ht. field. split; assumption.
Qed.

Lemma portfolio_weights_rescaled_witness :
  same_result
    (calculate_portfolio_returns
       [("A"%string, series_a); ("B"%string, series_b)]
       [("A"%string, (3 # 10)%Q); ("B"%string, (7 # 10)%Q)])
    (calculate_portfolio_returns
       [("A"%string, series_a); ("B"%string, series_b)]
       (scaled 100 [("A"%string, (3 # 10)%Q); ("B"%string, (7 # 10)%Q)])).
Proof.
  apply (@portfolio_weights_rescaled
           [("A"%string, series_a); ("B"%string, series_b)]
           [("A"%string, (3 # 10)%Q); ("B"%string, (7 # 10)%Q)] 100%Q).
  intro H. discriminate H.
Defined.

(** ** Short histories at the resampler *)

Lemma resampled_first (sqrtQ : Q -> Q) (s : ReturnSeries) (frequency : string) :
  get_returns_for_frequency sqrtQ s frequency =
  let returns := resampled sqrtQ s frequency in
  if length returns =? 0 then (returns, CNum 0, CNum 0, CNum 0)
  else (returns, mean (returns_of returns), std sqrtQ (returns_of returns),
        if 0 <? length returns
        then CNum (last (returns_of returns) 0%Q) else CNum 0).
Proof.
  unfold resampled, get_returns_for_frequency. cbv zeta.
  set (returns := if String.eqb frequency "daily" then _ else _).
  destruct (length returns =? 0) eqn:E; cbn [fst]; now rewrite E.
Qed.

(** A history shorter than the window (5 days for weekly, 22 for
    monthly) gives an empty series, and the three statistics are then
    0.0. *)
Theorem get_returns_for_frequency_short_history :
  forall (sqrtQ : Q -> Q) (daily_returns : ReturnSeries)
         (frequency : string) (window : nat),
  (frequency = "weekly"%string /\ window = 5) \/
  (frequency = "monthly"%string /\ window = 22) ->
  length daily_returns < window ->
  get_returns_for_frequency sqrtQ daily_returns frequency
  = ([], CNum 0, CNum 0, CNum 0).
Proof.
  intros sqrtQ s frequency window Hf Hlen.
  assert (Hw : resampled sqrtQ s "weekly" = compounded_windows 5 s).
  { unfold resampled, get_returns_for_frequency.
    change (String.eqb "weekly" "daily") with false.
    change (String.eqb "weekly" "weekly") with true.
    cbv zeta. cbv iota. rewrite rolling_apply_windows.
    destruct (length (compounded_windows 5 s) =? 0); reflexivity. }
  assert (Hm : resampled sqrtQ s "monthly" = compounded_windows 22 s).
  { unfold resampled, get_returns_for_frequency.
    change (String.eqb "monthly" "daily") with false.
    change (String.eqb "monthly" "weekly") with false.
    change (String.eqb "monthly" "monthly") with true.
    cbv zeta. cbv iota. rewrite rolling_apply_windows.
    destruct (length (compounded_windows 22 s) =? 0); reflexivity. }
  rewrite resampled_first. cbv zeta.
  assert (Hr : resampled sqrtQ s frequency = []).
  { apply length_zero_iff_nil.
    destruct Hf as [[-> ->]|[-> ->]].
    - rewrite Hw, compounded_windows_length. lia.
    - rewrite Hm, compounded_windows_length. lia. }
  rewrite Hr. reflexivity.
Qed.

Lemma get_returns_for_frequency_short_history_witness :
  get_returns_for_frequency sample_sqrt
    [(1%Z, (1 # 100)%Q); (2%Z, (2 # 100)%Q); (3%Z, (-1 # 100)%Q);
     (4%Z, (3 # 100)%Q)] "weekly"
  = ([], CNum 0, CNum 0, CNum 0).
Proof.
  apply (@get_returns_for_frequency_short_history sample_sqrt
           [(1%Z, (1 # 100)%Q); (2%Z, (2 # 100)%Q); (3%Z, (-1 # 100)%Q);
            (4%Z, (3 # 100)%Q)] "weekly" 5).
  - left. split; reflexivity.
  - cbn [length]. lia.
Defined.

(** When the series at the requested frequency has a single point (one
    daily return, or a history of exactly 5 days at weekly or 22 days at
    monthly frequency), the mean and the latest return are that point
    and the standard deviation is NaN, not 0.0. *)
Theorem get_returns_for_frequency_single_point :
  forall (sqrtQ : Q -> Q) (daily_returns : ReturnSeries)
         (frequency : string) (d : Z) (x : Q),
  resampled sqrtQ daily_returns frequency = [(d, x)] ->
  exists m,
    get_returns_for_frequency sqrtQ daily_returns frequency
    = ([(d, x)], CNum m, CNaN, CNum x) /\ (m == x)%Q.
Proof.
  intros sqrtQ s frequency d x Hr.
  rewrite resampled_first, Hr. cbv zeta.
  cbn [length Nat.eqb Nat.ltb Nat.leb returns_of map snd mean std last].
  eexists. split; [reflexivity|].
  unfold Qsum. cbn [fold_left length]. field.
Qed.

Lemma get_returns_for_frequency_single_point_witness :
  exists m,
    get_returns_for_frequency sample_sqrt
      [(1%Z, 0%Q); (2%Z, 0%Q); (3%Z, 0%Q); (4%Z, 0%Q); (5%Z, (1 # 10)%Q)]
      "weekly"
    = ([(5%Z, (11 # 10)%Q - 1)%Q], CNum m, CNaN, CNum ((11 # 10) - 1)%Q)
    /\ (m == (11 # 10) - 1)%Q.
Proof.
  apply (@get_returns_for_frequency_single_point sample_sqrt
           [(1%Z, 0%Q); (2%Z, 0%Q); (3%Z, 0%Q); (4%Z, 0%Q);
            (5%Z, (1 # 10)%Q)] "weekly" 5%Z).
  vm_compute. reflexivity.
Defined.

(** ** The funds the optimizer works on *)

Lemma dict_set_keys (k : string) (v : ReturnSeries)
      (d : list (string * ReturnSeries)) (x : string) :
  In x (map fst (dict_set k v d)) <-> x = k \/ In x (map fst d).
Proof.
  induction d as [|[k' v'] d IH]; cbn [dict_set map fst In].
  - intuition congruence.
  - destruct (String.eqb_spec k k') as [->|Hne]; cbn [map fst In].
    + intuition congruence.
    + rewrite IH. intuition congruence.
Qed.

Lemma dict_set_entries (k : string) (v : ReturnSeries)
      (d : list (string * ReturnSeries)) (k' : string) (v' : ReturnSeries) :
  In (k', v') (dict_set k v d) -> (k' = k /\ v' = v) \/ In (k', v') d.
Proof.
  induction d as [|[k0 v0] d IH]; cbn [dict_set In].
  - intros [E|[]]. left. now injection E as <- <-.
  - destruct (String.eqb k k0); cbn [In].
    + intros [E|H]; [left; now injection E as <- <-|right; now right].
    + intros [E|H]; [right; now left|].
      destruct (IH H) as [?|?]; [now left|right; now right].
Qed.

Lemma dict_set_NoDup (k : string) (v : ReturnSeries)
      (d : list (string * ReturnSeries)) :
  NoDup (map fst d) -> NoDup (map fst (dict_set k v d)).
Proof.
  induction d as [|[k' v'] d IH]; cbn [dict_set map fst]; intro Hnd.
  - constructor; [intros []|constructor].
  - inversion Hnd as [|? ? Hnin Hnd']; subst.
    destruct (String.eqb_spec k k') as [->|Hne]; cbn [map fst].
    + now constructor.
    + constructor; [|now apply IH].
      rewrite dict_set_keys. intros [E|H]; [congruence|contradiction].
Qed.

Section CollectedReturns.
Variable get_fund_returns_by_name : string -> option ReturnSeries.

(** A dictionary of the loop at lines 424-433: distinct names, each
    with the series the loader gives for it, of at least 252 returns. *)
Let collected (names : list string) (d : list (string * ReturnSeries))
  : Prop :=
  NoDup (map fst d) /\
  forall k s, In (k, s) d ->
    In k names /\ get_fund_returns_by_name k = Some s /\ 252 <= length s.

Lemma collect_returns_from (all names : list string) :
  incl names all ->
  forall acc, collected all acc ->
  collected all
    (fold_left
       (fun returns_dict fund_name =>
          match get_fund_returns_by_name fund_name with
          | Some returns =>
              if 252 <=? length returns
              then dict_set fund_name returns returns_dict
              else returns_dict
          | None => returns_dict
          end)
       names acc).
Proof.
  induction names as [|n names IH]; intros Hincl acc Hacc; [exact Hacc|].
  cbn [fold_left]. apply IH; [intros x Hx; apply Hincl; now right|].
  destruct (get_fund_returns_by_name n) as [s|] eqn:Eg; [|exact Hacc].
  destruct (Nat.leb_spec 252 (length s)) as [Hlen|_]; [|exact Hacc].
  destruct Hacc as [Hnd Hall]. split; [now apply dict_set_NoDup|].
  intros k s' Hin. apply dict_set_entries in Hin as [[-> ->]|Hin].
  - split; [apply Hincl; now left|]. now split.
  - now apply Hall.
Qed.

Lemma collect_returns_spec (names : list string) :
  NoDup (map fst (collect_returns get_fund_returns_by_name names)) /\
  forall k s, In (k, s) (collect_returns get_fund_returns_by_name names) ->
    In k names /\ get_fund_returns_by_name k = Some s /\ 252 <= length s.
Proof.
  apply (@collect_returns_from names names); [apply incl_refl|].
  split; [constructor|intros k s []].
Qed.

Lemma collect_returns_distinct (names : list string) :
  length (collect_returns get_fund_returns_by_name names)
  <= length (nodup string_dec names).
Proof.
  destruct (collect_returns_spec names) as [Hnd Hall].
  rewrite <- (length_map fst). apply NoDup_incl_length; [exact Hnd|].
  intros k Hk. apply nodup_In.
  apply in_map_iff in Hk as ([k' s] & <- & Hin). now apply (Hall k' s).
Qed.
End CollectedReturns.

Lemma collect_requested_total
      (get : string -> outcome (option ReturnSeries)) (names : list string) :
  forall acc,
  collect_requested get names acc =
  if existsb (fun n => raises (get n)) names then Raised
  else Returned
         (fold_left
            (fun returns_dict fund_name =>
               match returned_series (get fund_name) with
               | Some returns =>
                   if 252 <=? length returns
                   then dict_set fund_name returns returns_dict
                   else returns_dict
               | None => returns_dict
               end)
            names acc).
Proof.
  induction names as [|n names IH]; intro acc; [reflexivity|].
  cbn [collect_requested existsb fold_left].
  destruct (get n) as [|v]; [reflexivity|].
  cbn [bind raises orb returned_series]. apply IH.
Qed.

(** A request that names fewer than two distinct funds (one name, or
    the same name repeated) is never optimised, whatever the loader
    does: the answer is HTTP 503 when the fund data is not loaded;
    otherwise an exception of the loader leaves the endpoint, and when
    every loader call returns the answer is HTTP 400, whatever series
    were returned, because the returns are collected in a dictionary
    keyed by name.  The endpoint with a loader that always returns
    answers alike. *)
Theorem optimize_portfolio_repeated_names :
  forall (get_fund_returns_by_name : string -> outcome (option ReturnSeries))
         (cache_loaded : bool) (request : OptimizationRequest),
  length (nodup string_dec (fund_names request)) < 2 ->
  requested_returns get_fund_returns_by_name cache_loaded request
  = (if negb cache_loaded
     then Returned (inl (HTTPException 503 "Fund data not loaded"))
     else if existsb (fun n => raises (get_fund_returns_by_name n))
                     (fund_names request)
          then Raised
          else Returned
                 (inl (HTTPException 400
                         "Need at least 2 funds with sufficient data for optimization")))
  /\
  forall (sqrtQ : Q -> Q)
         (minimize : (list Q -> Q) -> list Q -> list (Q * Q) ->
                     (list Q -> Q) -> nat -> OptimizeResult)
         (loader : string -> option ReturnSeries),
    optimize_portfolio sqrtQ minimize loader cache_loaded request
    = (if negb cache_loaded
       then HTTPException 503 "Fund data not loaded"
       else HTTPException 400
              "Need at least 2 funds with sufficient data for optimization").
Proof.
  intros get loaded request Hlen. split.
  - unfold requested_returns. destruct (negb loaded); [reflexivity|].
    rewrite collect_requested_total.
    destruct (existsb _ (fund_names request)); [reflexivity|].
    cbn [bind].
    pose proof (collect_returns_distinct
                  (fun n => returned_series (get n)) (fund_names request))
      as Hle.
    unfold collect_returns in Hle.
    destruct (Nat.ltb_spec
                (length
                   (fold_left
                      (fun returns_dict fund_name =>
                         match returned_series (get fund_name) with
                         | Some returns =>
                             if 252 <=? length returns
                             then dict_set fund_name returns returns_dict
                             else returns_dict
                         | None => returns_dict
                         end)
                      (fund_names request) [])) 2) as [_|Hge];
      [reflexivity|lia].
  - intros sqrtQ minimize loader.
    unfold optimize_portfolio. destruct (negb loaded); [reflexivity|].
    cbv zeta.
    pose proof (collect_returns_distinct loader (fund_names request)) as Hle.
    destruct (Nat.ltb_spec
                (length (collect_returns loader (fund_names request))) 2)
      as [_|Hge]; [reflexivity|lia].
Qed.

Lemma optimize_portfolio_repeated_names_witness :
  requested_returns failing_loader true repeated_request
  = Returned
      (inl (HTTPException 400
              "Need at least 2 funds with sufficient data for optimization"))
  /\
  optimize_portfolio sample_sqrt stops_at_start share_class_returns true
                     repeated_request
  = HTTPException 400
      "Need at least 2 funds with sufficient data for optimization".
Proof.
  destruct (@optimize_portfolio_repeated_names failing_loader true
              repeated_request) as [Hrequested Hendpoint];
    [vm_compute; lia|].
  split.
  - exact Hrequested.
  - exact (Hendpoint sample_sqrt stops_at_start share_class_returns).
Defined.

Lemma reported_names (names : list string) (ws : list cell) (n : string) :
  In n (map fst
          (flat_map (fun nw : string * cell =>
                       if is_positive (snd nw)
                       then [(fst nw, num_of (snd nw))] else [])
                    (combine names ws))) ->
  In n names.
Proof.
  intro H. apply in_map_iff in H as ([n' w] & <- & H).
  apply in_flat_map in H as ([n0 c] & Hin & H). cbn [fst snd] in *.
  destruct (is_positive c); [|destruct H].
  destruct H as [E|[]]. injection E as <- _.
  eapply in_combine_l. exact Hin.
Qed.

Lemma reported_names_NoDup (names : list string) :
  NoDup names ->
  forall ws : list cell,
  NoDup (map fst
           (flat_map (fun nw : string * cell =>
                        if is_positive (snd nw)
                        then [(fst nw, num_of (snd nw))] else [])
                     (combine names ws))).
Proof.
  induction 1 as [|n names Hnin _ IH]; intros [|c ws];
    cbn [combine flat_map map]; try constructor.
  cbn [fst snd]. destruct (is_positive c); cbn [app map fst].
  - constructor; [|apply IH]. intro H. apply Hnin.
    eapply reported_names. exact H.
  - apply IH.
Qed.

Lemma response_is_report
      (sqrtQ : Q -> Q)
      (minimize : (list Q -> Q) -> list Q -> list (Q * Q) ->
                  (list Q -> Q) -> nat -> OptimizeResult)
      (get_fund_returns_by_name : string -> option ReturnSeries)
      (cache_loaded : bool)
      (request : OptimizationRequest) (r : OptimizationResult) :
  optimize_portfolio sqrtQ minimize get_fund_returns_by_name cache_loaded
                     request = Response r ->
  let returns_df :=
    dropna_lines
      (frame_of_dict (collect_returns get_fund_returns_by_name
                                      (fund_names request))) in
  r = report_solution sqrtQ (funds returns_df) (mean_returns_of returns_df)
                      (cov_matrix_of returns_df)
                      (solve sqrtQ minimize request returns_df).
Proof.
  unfold optimize_portfolio. cbv zeta.
  destruct (negb cache_loaded); [discriminate|].
  destruct (_ <? 2); [discriminate|].
  destruct (_ <? 252); [discriminate|].
  destruct (negb _); [discriminate|].
  intro H. now injection H as <-.
Qed.

(** Every fund in a reported allocation was named in the request and
    has at least 252 returns from the loader, and no fund is reported
    twice. *)
Theorem optimize_portfolio_reported_funds :
  forall (sqrtQ : Q -> Q)
         (minimize : (list Q -> Q) -> list Q -> list (Q * Q) ->
                     (list Q -> Q) -> nat -> OptimizeResult)
         (get_fund_returns_by_name : string -> option ReturnSeries)
         (cache_loaded : bool)
         (request : OptimizationRequest) (r : OptimizationResult),
  optimize_portfolio sqrtQ minimize get_fund_returns_by_name cache_loaded
                     request = Response r ->
  NoDup (map fst (weights r)) /\
  Forall (fun name =>
            In name (fund_names request) /\
            exists returns,
              get_fund_returns_by_name name = Some returns /\
              252 <= length returns)
         (map fst (weights r)).
Proof.
  intros sqrtQ minimize get loaded request r H.
  apply response_is_report in H. cbv zeta in H. subst r.
  destruct (collect_returns_spec get (fund_names request)) as [Hnd Hall].
  unfold report_solution. cbv zeta. cbn [weights].
  cbn [funds dropna_lines frame_of_dict]. split.
  - now apply reported_names_NoDup.
  - apply Forall_forall. intros n Hn. apply reported_names in Hn.
    apply in_map_iff in Hn as ([k s] & <- & Hin). cbn [fst].
    destruct (Hall k s Hin) as (Hk & Hs & Hlen).
    split; [exact Hk|]. now exists s.
Qed.

Lemma optimize_portfolio_reported_funds_witness :
  exists r,
    optimize_portfolio sample_sqrt stops_at_start share_class_returns true
                       two_class_request = Response r /\
    NoDup (map fst (weights r)) /\
    Forall (fun name =>
              In name (fund_names two_class_request) /\
              exists returns,
                share_class_returns name = Some returns /\
                252 <= length returns)
           (map fst (weights r)).
Proof.
  assert (H : exists r,
            optimize_portfolio sample_sqrt stops_at_start share_class_returns
                               true two_class_request = Response r)
    by (eexists; reflexivity).
  destruct H as [r H]. exists r. split; [exact H|].
  apply (@optimize_portfolio_reported_funds sample_sqrt stops_at_start
           share_class_returns true two_class_request r H).
Defined.

Lemma Qsum_member_le (l : list Q) (v : Q) :
  Forall (fun z => (0 <= z)%Q) l -> In v l -> (v <= Qsum l)%Q.
Proof.
  induction 1 as [|z l Hz Hl IH]; intros Hin; [destruct Hin|].
  rewrite Qsum_cons. pose proof (Qsum_nonneg Hl) as Hs.
  destruct Hin as [->|Hin]; [Lqa.lra|].
  specialize (IH Hin). Lqa.lra.
Qed.

Lemma report_solution_weight_range (sqrtQ : Q -> Q) (names : list string)
      (mean_returns : list Q) (cov_matrix : list (list Q))
      (result : OptimizeResult) (n : string) (w : Q) :
  In (n, w) (weights (report_solution sqrtQ names mean_returns cov_matrix
                                      result)) ->
  (0 < w)%Q /\ (w <= 1)%Q.
Proof.
  unfold report_solution. cbv zeta. cbn [weights]. intro H.
  apply in_flat_map in H as ([n0 c] & Hin & H). cbn [fst snd] in H.
  destruct (is_positive c) eqn:Ep; [|destruct H].
  destruct H as [E|[]]. injection E as _ <-.
  apply in_combine_r in Hin.
  apply in_map_iff in Hin as (v & <- & Hv).
  pose proof (zero_below_nonneg (res_x result)) as Hnn.
  pose proof (@Qsum_member_le _ _ Hnn Hv) as Hle.
  pose proof (Qsum_nonneg Hnn) as Htot.
  assert (Hv0 : (0 <= v)%Q)
    by (rewrite Forall_forall in Hnn; now apply Hnn).
  set (total := Qsum (zero_below (1 # 100) (res_x result))) in *.
  cbn [fdiv] in *. unfold Qzero_b in *.
  destruct (Qeq_bool total 0) eqn:Ez.
  - apply Qeq_bool_iff in Ez.
    assert (Ev : Qeq_bool v 0 = true)
      by (apply Qeq_bool_iff; Lqa.lra).
    rewrite Ev in Ep. discriminate.
  - assert (Hpos : (0 < total)%Q).
    { destruct (Qeq_bool_iff total 0) as [_ Hz].
      destruct (Qlt_le_dec 0 total) as [|Hneg]; [assumption|].
      assert (Hz0 : (total == 0)%Q) by Lqa.lra.
      rewrite (Hz Hz0) in Ez. discriminate. }
    cbn [is_positive num_of] in *. split.
    + apply negb_true_iff in Ep.
      destruct (Qlt_le_dec 0 (v / total)) as [|Hneg]; [assumption|].
      apply Qle_bool_iff in Hneg. congruence.
    + apply Qle_shift_div_r; [exact Hpos|]. Lqa.lra.
Qed.

(** Every weight in a reported allocation lies in (0, 1], whatever the
    solver returned. *)
Theorem optimize_portfolio_reported_weights :
  forall (sqrtQ : Q -> Q)
         (minimize : (list Q -> Q) -> list Q -> list (Q * Q) ->
                     (list Q -> Q) -> nat -> OptimizeResult)
         (get_fund_returns_by_name : string -> option ReturnSeries)
         (cache_loaded : bool)
         (request : OptimizationRequest) (r : OptimizationResult),
  optimize_portfolio sqrtQ minimize get_fund_returns_by_name cache_loaded
                     request = Response r ->
  Forall (fun nw => (0 < snd nw)%Q /\ (snd nw <= 1)%Q) (weights r).
Proof.
  intros sqrtQ minimize get loaded request r H.
  apply response_is_report in H. cbv zeta in H.
  apply Forall_forall. intros [n w] Hin. cbn [snd]. subst r.
  eapply report_solution_weight_range. exact Hin.
Qed.

Lemma optimize_portfolio_reported_weights_witness :
  exists r,
    optimize_portfolio sample_sqrt stops_at_start share_class_returns true
                       two_class_request = Response r /\
    Forall (fun nw => (0 < snd nw)%Q /\ (snd nw <= 1)%Q) (weights r).
Proof.
  assert (H : exists r,
            optimize_portfolio sample_sqrt stops_at_start share_class_returns
                               true two_class_request = Response r)
    by (eexists; reflexivity).
  destruct H as [r H]. exists r. split; [exact H|].
  apply (@optimize_portfolio_reported_weights sample_sqrt stops_at_start
           share_class_returns true two_class_request r H).
Defined.

(** When the solver returns one weight per fund, as scipy does, an
    allocation that is reported either has no weight at all or has
    weights that sum to 1. *)
Theorem optimize_portfolio_total_weight :
  forall (sqrtQ : Q -> Q)
         (minimize : (list Q -> Q) -> list Q -> list (Q * Q) ->
                     (list Q -> Q) -> nat -> OptimizeResult)
         (get_fund_returns_by_name : string -> option ReturnSeries)
         (cache_loaded : bool)
         (request : OptimizationRequest) (r : OptimizationResult),
  (forall objective x0 bounds constraint maxiter,
     length (res_x (minimize objective x0 bounds constraint maxiter))
     = length x0) ->
  optimize_portfolio sqrtQ minimize get_fund_returns_by_name cache_loaded
                     request = Response r ->
  weights r = [] \/ (reported_total r == 1)%Q.
Proof.
  intros sqrtQ minimize get loaded request r Hshape H.
  apply response_is_report in H. cbv zeta in H.
  set (returns_df := dropna_lines _) in H. subst r.
  set (result := solve sqrtQ minimize request returns_df).
  destruct (existsb (Qle_bool (1 # 100)) (res_x result)) eqn:E.
  - right. apply report_solution_renormalized; [|exact E].
    unfold result, solve. cbv zeta. rewrite Hshape.
    now rewrite repeat_length.
  - left. apply report_solution_all_small.
    apply forallb_forall. intros x Hx.
    apply negb_true_iff.
    destruct (Qle_bool (1 # 100) x) eqn:Ex; [|reflexivity].
    assert (Hex : existsb (Qle_bool (1 # 100)) (res_x result) = true)
      by (apply existsb_exists; now exists x).
    congruence.
Qed.

Lemma optimize_portfolio_total_weight_witness :
  exists r,
    optimize_portfolio sample_sqrt stops_at_start share_class_returns true
                       two_class_request = Response r /\
    (weights r = [] \/ (reported_total r == 1)%Q).
Proof.
  assert (H : exists r,
            optimize_portfolio sample_sqrt stops_at_start share_class_returns
                               true two_class_request = Response r)
    by (eexists; reflexivity).
  destruct H as [r H]. exists r. split; [exact H|].
  apply (@optimize_portfolio_total_weight sample_sqrt stops_at_start
           share_class_returns true two_class_request r);
    [intros; reflexivity|exact H].
Defined.

(** ** Risk snapshot *)

Lemma fold_max_spec (xs : list cell) (x : cell) :
  Forall (fun c => is_num c = true) (x :: xs) ->
  let m := fold_left (fun m c => if float_ge c m then c else m) xs x in
  In m (x :: xs) /\ Forall (fun c => (num_of c <= num_of m)%Q) (x :: xs).
Proof.
  cbv zeta. revert x. induction xs as [|y xs IH]; intros x H.
  - cbn [fold_left]. split; [now left|].
    constructor; [apply Qle_refl|constructor].
  - inversion H as [|? ? Hx Hrest]; subst.
    inversion Hrest as [|? ? Hy Hxs]; subst.
    cbn [fold_left].
    destruct x as [| | |qx| |]; try discriminate Hx.
    destruct y as [| | |qy| |]; try discriminate Hy.
    cbn [float_ge].
    destruct (Qle_bool qx qy) eqn:E.
    + destruct (IH (CNum qy)) as [Hin Hle]; [now constructor|].
      split; [simpl in *; tauto|].
      inversion Hle as [|? ? Hmy Hmxs]; subst.
      apply Qle_bool_iff in E. cbn [num_of] in *.
      constructor; [eapply Qle_trans; eauto|].
      constructor; assumption.
    + destruct (IH (CNum qx)) as [Hin Hle]; [now constructor|].
      split; [simpl in *; tauto|].
      inversion Hle as [|? ? Hmx Hmxs]; subst.
      assert (qy <= qx)%Q.
      { destruct (Qlt_le_dec qx qy) as [Hlt|Hge]; [|exact Hge].
        apply Qlt_le_weak in Hlt. apply Qle_bool_iff in Hlt. congruence. }
      cbn [num_of] in *.
      constructor; [exact Hmx|].
      constructor; [eapply Qle_trans; eauto|exact Hmxs].
Qed.

Lemma min_of_numbers (l : list Q) :
  l <> [] ->
  exists mn, series_min (map CNum l) = CNum mn /\
             Forall (fun r => (mn <= r)%Q) l.
Proof.
  intro Hne.
  destruct (@series_min_spec (map CNum l)) as [Hin Hall].
  - destruct l; [congruence|discriminate].
  - apply Forall_forall. intros c Hc.
    apply in_map_iff in Hc as (q & <- & _). reflexivity.
  - apply in_map_iff in Hin as (mn & Hmn & _). exists mn.
    split; [now symmetry|]. rewrite <- Hmn in Hall. cbn [num_of] in Hall.
    apply Forall_forall. intros r Hr. rewrite Forall_forall in Hall.
    apply (Hall (CNum r)). apply in_map_iff. now exists r.
Qed.

Lemma max_of_numbers (l : list Q) :
  l <> [] ->
  exists mx, series_max (map CNum l) = CNum mx /\
             Forall (fun r => (r <= mx)%Q) l.
Proof.
  intro Hne. unfold series_max.
  assert (Hf : filter (fun c => negb (isna c)) (map CNum l) = map CNum l).
  { apply filter_all. intros c Hc.
    apply in_map_iff in Hc as (q & <- & _). reflexivity. }
  rewrite Hf. destruct l as [|x xs]; [congruence|]. cbn [map].
  destruct (@fold_max_spec (map CNum xs) (CNum x)) as [Hin Hall].
  - apply Forall_forall. intros c Hc.
    change (CNum x :: map CNum xs) with (map CNum (x :: xs)) in Hc.
    apply in_map_iff in Hc as (q & <- & _). reflexivity.
  - change (CNum x :: map CNum xs) with (map CNum (x :: xs)) in *.
    apply in_map_iff in Hin as (mx & Hmx & _). exists mx.
    split; [now symmetry|]. rewrite <- Hmx in Hall. cbn [num_of] in Hall.
    apply Forall_forall. intros r Hr. rewrite Forall_forall in Hall.
    apply (Hall (CNum r)). apply in_map_iff. now exists r.
Qed.

Lemma cvar_above_floor (l : list Q) (c lo cv : Q) :
  l <> [] -> Forall (fun r => (lo <= r)%Q) l ->
  cvar l c = Returned (CNum cv) -> (lo <= cv)%Q.
Proof.
  intros Hne Hlo H. unfold cvar in H.
  destruct l as [|x l0] eqn:El; [congruence|]. rewrite <- El in *.
  assert (Hlen : (length l =? 0) = false) by (rewrite El; reflexivity).
  rewrite Hlen in H.
  destruct (var l c) as [|v]; [discriminate|]. cbn [bind] in H.
  injection H as H.
  destruct (@mean_at_least (at_most v l) lo) as (c' & Hc' & Hle).
  - intro E. rewrite E in H. discriminate.
  - apply Forall_forall. intros r Hr. rewrite Forall_forall in Hlo.
    apply Hlo. destruct v; try destruct Hr.
    + destruct pos; [exact Hr|destruct Hr].
    + now apply filter_In in Hr as [Hr _].
  - congruence.
Qed.

Lemma cvar_upper_below_ceiling (l : list Q) (c hi cv : Q) :
  l <> [] -> Forall (fun r => (r <= hi)%Q) l ->
  cvar_upper l c = Returned (CNum cv) -> (cv <= hi)%Q.
Proof.
  intros Hne Hhi H. unfold cvar_upper in H.
  destruct l as [|x l0] eqn:El; [congruence|]. rewrite <- El in *.
  assert (Hlen : (length l =? 0) = false) by (rewrite El; reflexivity).
  rewrite Hlen in H.
  destruct (var_upper l c) as [|v]; [discriminate|]. cbn [bind] in H.
  injection H as H.
  destruct (@mean_at_most (at_least v l) hi) as (c' & Hc' & Hle).
  - intro E. rewrite E in H. discriminate.
  - apply Forall_forall. intros r Hr. rewrite Forall_forall in Hhi.
    apply Hhi. destruct v; try destruct Hr.
    + destruct pos; [destruct Hr|exact Hr].
    + now apply filter_In in Hr as [Hr _].
  - congruence.
Qed.

Lemma last_in (l : list Q) : l <> [] -> In (last l 0%Q) l.
Proof.
  induction l as [|x l IH]; [congruence|]. intros _.
  destruct l as [|y l]; [now left|].
  right. apply IH. discriminate.
Qed.

Lemma dropna_returns_length (s : list (Z * option Q)) :
  length (dropna_returns s) <= length s.
Proof.
  unfold dropna_returns. induction s as [|[d [q|]] s IH];
    cbn [flat_map snd app length] in *; lia.
Qed.

(** [calculate_risk_metrics] answers [None] exactly when fewer than 10
    returns remain after the nulls are dropped; otherwise it returns the
    dictionary without raising, every figure but skewness and kurtosis
    (library values) is a finite number, the z-score included (no
    division by a zero deviation), and
    min <= cvar_95 <= var_95 <= var_5 <= cvar_5 <= max, with the latest
    return between min and max. *)
Theorem risk_metrics_snapshot :
  forall (sqrtQ : Q -> Q) (skew kurtosis : list Q -> cell)
         (returns : list (Z * option Q)),
  (length (dropna_returns returns) < 10 /\
   calculate_risk_metrics sqrtQ skew kurtosis (Some returns) = Returned None)
  \/
  (10 <= length (dropna_returns returns) /\
   exists m latest mean std z mn cv v vu cvu mx,
     calculate_risk_metrics sqrtQ skew kurtosis (Some returns)
       = Returned (Some m) /\
     m_return m = CNum latest /\ m_mean m = CNum mean /\
     m_std m = CNum std /\ m_z_score m = CNum z /\
     m_min m = CNum mn /\ m_cvar_95 m = CNum cv /\ m_var_95 m = CNum v /\
     m_var_5 m = CNum vu /\ m_cvar_5 m = CNum cvu /\ m_max m = CNum mx /\
     (mn <= cv)%Q /\ (cv <= v)%Q /\ (v <= vu)%Q /\ (vu <= cvu)%Q /\
     (cvu <= mx)%Q /\ (mn <= latest)%Q /\ (latest <= mx)%Q).
Proof.
  intros sqrtQ skew kurtosis returns.
  unfold calculate_risk_metrics. cbv zeta.
  assert (Hclean : length (returns_of (dropna_returns returns))
                   = length (dropna_returns returns))
    by (unfold returns_of; apply length_map).
  pose proof (dropna_returns_length returns) as Hsub.
  destruct (Nat.eqb_spec (length returns) 0) as [Hz|Hnz];
    [left; split; [lia|reflexivity]|].
  rewrite Hclean.
  destruct (Nat.ltb_spec (length (dropna_returns returns)) 10) as [Hlt|Hge];
    [left; split; [lia|reflexivity]|].
  right. split; [exact Hge|].
  set (l := returns_of (dropna_returns returns)) in *.
  assert (Hne : l <> [])
    by (intro E; rewrite E in Hclean; cbn [length] in Hclean; lia).
  destruct (@cvar_le_var_nonempty l (95 # 100)%Q)
    as (v & cv & Hv & Hcv & Hle1); [exact Hne|discriminate|discriminate|].
  destruct (@var_upper_le_cvar_upper l (95 # 100)%Q)
    as (vu & cvu & Hvu & Hcvu & Hle3); [exact Hne|discriminate|discriminate|].
  destruct (@percentile_monotone l ((1 - (95 # 100)) * 100)%Q
                                 ((95 # 100) * 100)%Q)
    as (v1 & v2 & Hp1 & Hp2 & Hle2);
    [exact Hne|discriminate|discriminate|discriminate|].
  assert (E1 : v1 = v).
  { unfold var in Hv. destruct l; [congruence|].
    cbn [length Nat.eqb] in Hv. congruence. }
  assert (E2 : v2 = vu).
  { unfold var_upper in Hvu. destruct l; [congruence|].
    cbn [length Nat.eqb] in Hvu. congruence. }
  subst v1 v2.
  destruct (min_of_numbers Hne) as (mn & Hmn & Hmin).
  destruct (max_of_numbers Hne) as (mx & Hmx & Hmax).
  pose proof (@cvar_above_floor _ _ _ _ Hne Hmin Hcv) as Hfloor.
  pose proof (@cvar_upper_below_ceiling _ _ _ _ Hne Hmax Hcvu) as Hceil.
  pose proof (last_in Hne) as Hlast.
  assert (Hmean : exists m, mean l = CNum m)
    by (unfold mean; destruct l; [congruence|eexists; reflexivity]).
  destruct Hmean as [m Hm].
  destruct (@std_two_observations sqrtQ l) as [s Hs]; [lia|].
  rewrite Hv, Hvu, Hcv, Hcvu. cbn [bind]. rewrite Hm, Hs.
  assert (Hz : exists z,
            (if is_positive (CNum s)
             then fdiv (fsub (CNum (last l 0%Q)) (CNum m)) (CNum s)
             else CNum 0%Q) = CNum z).
  { cbn [is_positive fsub fneg fadd fdiv]. unfold Qzero_b.
    destruct (Qle_bool s 0) eqn:Es; cbn [negb]; [now eexists|].
    destruct (Qeq_bool s 0) eqn:Ez; [|now eexists].
    apply Qeq_bool_iff in Ez.
    assert (Hs0 : (s <= 0)%Q) by Lqa.lra.
    apply Qle_bool_iff in Hs0. congruence. }
  destruct Hz as [z Hz].
  eexists. exists (last l 0%Q), m, s, z, mn, cv, v, vu, cvu, mx.
  split; [reflexivity|]. cbn [m_return m_mean m_std m_z_score m_min m_cvar_95
                              m_var_95 m_var_5 m_cvar_5 m_max].
  rewrite Forall_forall in Hmin, Hmax.
  repeat split; try assumption; try reflexivity.
  - now apply Hmin.
  - now apply Hmax.
Qed.

(** ** Annualised return *)

Lemma growth_acc (l : list R) (a : R) :
  fold_left Rmult (map (Rplus 1) l) a = (a * growth l)%R.
Proof.
  unfold growth. revert a. induction l as [|x l IH]; intro a;
    cbn [map fold_left].
  - ring.
  - rewrite (IH (a * (1 + x))%R), (IH (1 * (1 + x))%R). ring.
Qed.

Lemma growth_cons (x : R) (l : list R) :
  growth (x :: l) = ((1 + x) * growth l)%R.
Proof.
  unfold growth at 1. cbn [map fold_left]. rewrite growth_acc. ring.
Qed.

Lemma years_positive (n : nat) (p : positive) :
  0 < n -> (0 < IZR (Z.of_nat n) / IZR (Zpos p))%R.
Proof.
  intro Hn. apply Rdiv_lt_0_compat; apply IZR_lt; lia.
Qed.

Lemma Rpower_one_base (e : R) : Rpower 1 e = 1%R.
Proof. unfold Rpower. now rewrite ln_1, Rmult_0_r, exp_0. Qed.

(** Over exactly one year of observations the annualised return is the
    total compounded return, whatever its sign. *)
Theorem annualized_return_one_year :
  forall (returns : list R) (periods_per_year : positive),
  length returns = Pos.to_nat periods_per_year ->
  annualized_return returns periods_per_year = XNum (growth returns - 1).
Proof.
  intros returns p Hlen. unfold annualized_return. cbv zeta.
  assert (Hn : 0 < length returns) by lia.
  destruct (Nat.eqb_spec (length returns) 0) as [|_]; [lia|].
  assert (Hy : (IZR (Z.of_nat (length returns)) / IZR (Zpos p))%R = 1%R).
  { rewrite Hlen, positive_nat_Z. field. apply not_0_IZR. lia. }
  rewrite Hy.
  destruct (Rle_dec 1 0) as [|_]; [lra|].
  replace (1 / 1)%R with 1%R by field.
  replace (1 + (growth returns - 1))%R with (growth returns) by ring.
  unfold float_pow.
  destruct (Rlt_dec 0 (growth returns)) as [Hpos|Hnpos].
  - cbn [xminus]. now rewrite Rpower_1.
  - destruct (Req_dec_T (growth returns) 0) as [Hz|Hnz].
    + cbn [xminus]. now rewrite Hz.
    + assert (Hint : Int_part 1 = 1%Z).
      { unfold Int_part. rewrite <- (tech_up 1 2); [reflexivity|lra|lra]. }
      rewrite Hint.
      destruct (Req_dec_T 1 1) as [_|]; [|congruence].
      cbn [xminus]. now rewrite powerRZ_1.
Qed.

Lemma annualized_return_one_year_witness :
  annualized_return four_quarters 4 = XNum (growth four_quarters - 1).
Proof.
  apply (@annualized_return_one_year four_quarters 4%positive).
  reflexivity.
Defined.

Lemma growth_wiped (l : list R) : In (-1)%R l -> growth l = 0%R.
Proof.
  induction l as [|x l IH]; intro Hin; [destruct Hin|].
  rewrite growth_cons. destruct Hin as [->|Hin].
  - ring.
  - rewrite (IH Hin). ring.
Qed.

(** A series that contains a total loss (a return of -100%) has an
    annualised return of -100%, however long it is and whatever the
    other returns. *)
Theorem annualized_return_total_loss :
  forall (returns : list R) (periods_per_year : positive),
  In (-1)%R returns ->
  annualized_return returns periods_per_year = XNum (-1).
Proof.
  intros returns p Hin. unfold annualized_return. cbv zeta.
  assert (Hn : 0 < length returns)
    by (destruct returns; [destruct Hin|cbn [length]; lia]).
  destruct (Nat.eqb_spec (length returns) 0) as [|_]; [lia|].
  pose proof (years_positive p Hn) as Hy.
  destruct (Rle_dec _ 0) as [|_]; [lra|].
  rewrite (growth_wiped _ Hin).
  replace (1 + (0 - 1))%R with 0%R by ring.
  unfold float_pow.
  destruct (Rlt_dec 0 0) as [|_]; [lra|].
  destruct (Req_dec_T 0 0) as [_|]; [|congruence].
  cbn [xminus]. f_equal. ring.
Qed.

Lemma annualized_return_total_loss_witness :
  annualized_return wiped_out 252 = XNum (-1).
Proof.
  apply (@annualized_return_total_loss wiped_out 252%positive).
  right. left. reflexivity.
Defined.

(** Annualising keeps the sign of the total return: for a non-empty
    series whose compounded growth is positive, the annualised return is
    a number above -1, non-negative when the series gained overall and
    non-positive when it lost. *)
Theorem annualized_return_sign :
  forall (returns : list R) (periods_per_year : positive),
  returns <> [] -> (0 < growth returns)%R ->
  exists a,
    annualized_return returns periods_per_year = XNum a /\
    (-1 < a)%R /\
    (1 <= growth returns -> 0 <= a)%R /\
    (growth returns <= 1 -> a <= 0)%R.
Proof.
  intros returns p Hne Hg. unfold annualized_return. cbv zeta.
  assert (Hn : 0 < length returns)
    by (destruct returns; [congruence|cbn [length]; lia]).
  destruct (Nat.eqb_spec (length returns) 0) as [|_]; [lia|].
  pose proof (years_positive p Hn) as Hy.
  set (years := (IZR (Z.of_nat (length returns)) / IZR (Zpos p))%R) in *.
  destruct (Rle_dec years 0) as [|_]; [lra|].
  replace (1 + (growth returns - 1))%R with (growth returns) by ring.
  unfold float_pow.
  destruct (Rlt_dec 0 (growth returns)) as [_|]; [|contradiction].
  cbn [xminus]. eexists. split; [reflexivity|].
  assert (He : (0 < 1 / years)%R) by (apply Rdiv_lt_0_compat; lra).
  split; [|split].
  - unfold Rpower. pose proof (exp_pos (1 / years * ln (growth returns))).
    lra.
  - intro H1.
    pose proof (@Rle_Rpower_l 1 (growth returns) (1 / years)) as Hle.
    rewrite Rpower_one_base in Hle.
    assert (Rpower (growth returns) (1 / years) >= 1)%R
      by (apply Rle_ge, Hle; lra).
    lra.
  - intro H1.
    pose proof (@Rle_Rpower_l (growth returns) 1 (1 / years)) as Hle.
    rewrite Rpower_one_base in Hle.
    assert (Rpower (growth returns) (1 / years) <= 1)%R
      by (apply Hle; lra).
    lra.
Qed.

Lemma annualized_return_sign_witness :
  exists a,
    annualized_return four_gains 252 = XNum a /\
    (-1 < a)%R /\
    (1 <= growth four_gains -> 0 <= a)%R /\
    (growth four_gains <= 1 -> a <= 0)%R.
Proof.
  apply (@annualized_return_sign four_gains 252%positive).
  - discriminate.
  - unfold four_gains, growth. cbn [map fold_left]. lra.
Defined.
